(** * Browser-history recommender: a shallow embedding of [recommend.py]

    The development follows the source file top to bottom: the tokenizer, the
    document builder, the TF-IDF vector space, cosine similarity, the interest
    aggregate, the explainer, the cluster summaries and [main].

    Conventions.
    - A Python [dict] keeps insertion order, and two functions of the program
      iterate over dictionaries ([cosine] sums in that order, [explain_doc]
      collects in that order), so a dictionary is an association list whose
      keys are pairwise distinct; assignment to an existing key keeps its
      position, assignment to a new key appends.
    - Python's [float] arithmetic is kept behind the interface [Num].  Two
      interpretations are given: [Binary64] (IEEE 754 double precision, the
      machine arithmetic of CPython) and [Exact] (real numbers).
    - A Python exception is a value of [exn]; code that can raise returns a
      [result]. *)

From Stdlib Require Import Floats.
From Stdlib Require Import List String Ascii ZArith Lia Bool DecimalString.
From Stdlib Require Import Reals Lra Psatz.
From Stdlib Require Import Permutation Sorted.
From Equations Require Import Equations.
Import ListNotations.

Set Implicit Arguments.

(* ===================================================================== *)
(** ** Exceptions *)
(* ===================================================================== *)

Inductive exn : Type :=
| ZeroDivisionError
| ValueError
| OverflowError
| KeyError
| IndexError
| ReError.

Inductive result (A : Type) : Type :=
| Ok (a : A)
| Raise (e : exn).

Arguments Ok {A} a.
Arguments Raise {A} e.

Definition bind {A B : Type} (m : result A) (k : A -> result B) : result B :=
  match m with
  | Ok a => k a
  | Raise e => Raise e
  end.

Declare Scope result_scope.
Delimit Scope result_scope with result.
Notation "x <- m ;; k" := (bind m (fun x => k))
  (at level 61, m at next level, right associativity) : result_scope.
Open Scope result_scope.

(** [for x in xs: acc = step acc x], where the body can raise. *)
Fixpoint foldM {A B : Type} (step : B -> A -> result B) (xs : list A) (acc : B)
  : result B :=
  match xs with
  | [] => Ok acc
  | x :: xs' => acc' <- step acc x ;; foldM step xs' acc'
  end.

(** A list comprehension [[f x for x in xs]] whose element expression can
    raise. *)
Fixpoint mapM {A B : Type} (f : A -> result B) (xs : list A) : result (list B) :=
  match xs with
  | [] => Ok []
  | x :: xs' => y <- f x ;; ys <- mapM f xs' ;; Ok (y :: ys)
  end.

(* ===================================================================== *)
(** ** Insertion-ordered dictionaries *)
(* ===================================================================== *)

Class Key (K : Type) : Type := {
  key_eqb : K -> K -> bool;
  key_eqb_eq : forall a b, key_eqb a b = true <-> a = b
}.

#[export] Instance Key_string : Key string :=
  {| key_eqb := String.eqb; key_eqb_eq := String.eqb_eq |}.

#[export] Instance Key_Z : Key Z :=
  {| key_eqb := Z.eqb; key_eqb_eq := Z.eqb_eq |}.

Definition dict (K V : Type) : Type := list (K * V).

Section Dict.
Context {K V : Type} `{Key K}.

(** [d.get(k)] *)
Fixpoint dict_get (d : dict K V) (k : K) : option V :=
  match d with
  | [] => None
  | (k', v) :: d' => if key_eqb k' k then Some v else dict_get d' k
  end.

(** [d.get(k, default)] *)
Definition dict_get_default (d : dict K V) (k : K) (default : V) : V :=
  match dict_get d k with
  | Some v => v
  | None => default
  end.

(** [d[k]] as an expression *)
Definition dict_lookup (d : dict K V) (k : K) : result V :=
  match dict_get d k with
  | Some v => Ok v
  | None => Raise KeyError
  end.

(** [d[k] = v] *)
Fixpoint dict_set (d : dict K V) (k : K) (v : V) : dict K V :=
  match d with
  | [] => [(k, v)]
  | (k', v') :: d' =>
      if key_eqb k' k then (k', v) :: d' else (k', v') :: dict_set d' k v
  end.

Definition dict_keys (d : dict K V) : list K := map fst d.
Definition dict_values (d : dict K V) : list V := map snd d.

(** [not d] *)
Definition dict_is_empty (d : dict K V) : bool :=
  match d with
  | [] => true
  | _ :: _ => false
  end.

(** The invariant of every dictionary value: no key occurs twice. *)
Definition dict_wf (d : dict K V) : Prop := NoDup (dict_keys d).
End Dict.

(* ===================================================================== *)
(** ** Arithmetic *)
(* ===================================================================== *)

(** The operations on [float] that the program uses.  [of_int] is the
    conversion that Python applies when an [int] meets a [float]. *)
Class Num (F : Type) : Type := {
  fzero : F;
  fone : F;
  fadd : F -> F -> F;
  fmul : F -> F -> F;
  fdiv : F -> F -> F;
  fsqrt : F -> F;
  of_int : Z -> F;
  feqb : F -> F -> bool;
  fltb : F -> F -> bool;
  fleb : F -> F -> bool
}.

(** [math.log] is a C library routine, outside IEEE 754; it is a separate
    interface. *)
Class Log (F : Type) : Type := {
  flog : F -> F
}.

Section PythonArith.
Context {F : Type} `{Num F}.

(** [x / y] on floats. *)
Definition truediv (x y : F) : result F :=
  if feqb y fzero then Raise ZeroDivisionError else Ok (fdiv x y).

(** [a / b] on ints: true division, the quotient as a float. *)
Definition int_truediv (a b : Z) : result F :=
  if (b =? 0)%Z then Raise ZeroDivisionError
  else Ok (fdiv (of_int a) (of_int b)).

(** [math.sqrt(x)] *)
Definition math_sqrt (x : F) : result F :=
  if fltb x fzero then Raise ValueError else Ok (fsqrt x).

(** [math.log(x)] *)
Definition math_log `{Log F} (x : F) : result F :=
  if fleb x fzero then Raise ValueError else Ok (flog x).

(** [sum(xs)] over floats: left to right, starting from 0. *)
Definition py_sum (xs : list F) : F := fold_left fadd xs fzero.
End PythonArith.

(** *** IEEE 754 binary64 *)

Definition float_of_int (z : Z) : float :=
  match z with
  | Z0 => PrimFloat.zero
  | Zpos _ => PrimFloat.of_uint63 (Uint63.of_Z z)
  | Zneg _ => PrimFloat.opp (PrimFloat.of_uint63 (Uint63.of_Z (Z.opp z)))
  end.

#[export] Instance Binary64 : Num float := {|
  fzero := PrimFloat.zero;
  fone := PrimFloat.one;
  fadd := PrimFloat.add;
  fmul := PrimFloat.mul;
  fdiv := PrimFloat.div;
  fsqrt := PrimFloat.sqrt;
  of_int := float_of_int;
  feqb := PrimFloat.eqb;
  fltb := PrimFloat.ltb;
  fleb := PrimFloat.leb
|}.

(** *** Exact real arithmetic *)

Definition Reqb (x y : R) : bool := if Req_dec_T x y then true else false.
Definition Rltb (x y : R) : bool := if Rlt_dec x y then true else false.
Definition Rleb (x y : R) : bool := if Rle_dec x y then true else false.

#[export] Instance Exact : Num R := {|
  fzero := 0%R;
  fone := 1%R;
  fadd := Rplus;
  fmul := Rmult;
  fdiv := Rdiv;
  fsqrt := sqrt;
  of_int := IZR;
  feqb := Reqb;
  fltb := Rltb;
  fleb := Rleb
|}.

#[export] Instance Exact_log : Log R := {| flog := ln |}.

(* ===================================================================== *)
(** ** Cosine similarity *)
(* ===================================================================== *)

Definition vector (F : Type) : Type := dict string F.

Section Cosine.
Context {F : Type} `{Num F}.

(** [[
    def cosine(a, b):
        if not a or not b:
            return 0.0
        dot = 0.0
        for k, v in a.items():
            dot += v * b.get(k, 0.0)
        norm_a = math.sqrt(sum(v * v for v in a.values()))
        norm_b = math.sqrt(sum(v * v for v in b.values()))
        if norm_a == 0.0 or norm_b == 0.0:
            return 0.0
        return dot / (norm_a * norm_b)
    ]] *)
Definition cosine (a b : vector F) : result F :=
  if dict_is_empty a || dict_is_empty b then Ok fzero
  else
    let dot :=
      fold_left (fun dot kv => fadd dot (fmul (snd kv) (dict_get_default b (fst kv) fzero)))
                a fzero in
    norm_a <- math_sqrt (py_sum (map (fun v => fmul v v) (dict_values a))) ;;
    norm_b <- math_sqrt (py_sum (map (fun v => fmul v v) (dict_values b))) ;;
    if feqb norm_a fzero || feqb norm_b fzero then Ok fzero
    else truediv dot (fmul norm_a norm_b).
End Cosine.


(* ===================================================================== *)
(** ** Text *)
(* ===================================================================== *)

(** A Python [str] is a sequence of code points.  The embedding covers the
    code points 0..255: a character is an [ascii], read as the code point of
    that number.  On this range [str.lower] and the whitespace test of
    [str.strip] are the tables below. *)

Open Scope string_scope.
Open Scope list_scope.

Definition code (c : ascii) : N := N_of_ascii c.

(** [c.lower()]: A-Z, and the Latin-1 capitals U+00C0..U+00DE except the
    multiplication sign U+00D7, move up by 32. *)
Definition lower_char (c : ascii) : ascii :=
  let n := code c in
  if ((65 <=? n) && (n <=? 90)
      || (192 <=? n) && (n <=? 222) && negb (n =? 215))%N
  then ascii_of_N (n + 32)
  else c.

Fixpoint str_map (f : ascii -> ascii) (s : string) : string :=
  match s with
  | EmptyString => EmptyString
  | String c s' => String (f c) (str_map f s')
  end.

(** [s.lower()] *)
Definition lower (s : string) : string := str_map lower_char s.

(** [c.isspace()] *)
Definition is_space (c : ascii) : bool :=
  let n := code c in
  ((9 <=? n) && (n <=? 13) || (28 <=? n) && (n <=? 32)
   || (n =? 133) || (n =? 160))%N.

Fixpoint lstrip (s : string) : string :=
  match s with
  | EmptyString => EmptyString
  | String c s' => if is_space c then lstrip s' else s
  end.

Fixpoint str_rev_onto (s acc : string) : string :=
  match s with
  | EmptyString => acc
  | String c s' => str_rev_onto s' (String c acc)
  end.

Definition str_rev (s : string) : string := str_rev_onto s EmptyString.

(** [s.strip()] *)
Definition strip (s : string) : string :=
  str_rev (lstrip (str_rev (lstrip s))).

(** [s.replace(a, b)] for single characters [a] and [b]. *)
Definition replace_char (a b : ascii) (s : string) : string :=
  str_map (fun c => if Ascii.eqb c a then b else c) s.

(** [s.split(sep)] for a single character [sep]: the pieces between the
    separators, empty pieces included. *)
Fixpoint split_char (sep : ascii) (s : string) : list string :=
  match s with
  | EmptyString => [EmptyString]
  | String c s' =>
      if Ascii.eqb c sep then EmptyString :: split_char sep s'
      else match split_char sep s' with
           | [] => [String c EmptyString]
           | p :: ps => String c p :: ps
           end
  end.

(** [sep.join(xs)] *)
Definition join (sep : string) (xs : list string) : string :=
  String.concat sep xs.

(** [not s] for a string. *)
Definition str_is_empty (s : string) : bool :=
  match s with
  | EmptyString => true
  | String _ _ => false
  end.

(** [x in xs] for a set or list of strings. *)
Definition mem (x : string) (xs : list string) : bool :=
  existsb (String.eqb x) xs.

(* ===================================================================== *)
(** ** Tokenizer *)
(* ===================================================================== *)

Definition STOPWORDS : list string :=
  [ "a"; "an"; "and"; "are"; "as"; "at"; "be"; "but"; "by"; "for"; "from";
    "has"; "have"; "if"; "in"; "into"; "is"; "it"; "its"; "of"; "on"; "or";
    "that"; "the"; "their"; "there"; "to"; "was"; "were"; "will"; "with";
    "you"; "your" ].

(** The character class [[a-z0-9]] of [TOKEN_RE]. *)
Definition is_token_char (c : ascii) : bool :=
  let n := code c in
  ((97 <=? n) && (n <=? 122) || (48 <=? n) && (n <=? 57))%N.

(** The longest prefix of [s] whose characters satisfy [p], and the rest. *)
Fixpoint span (p : ascii -> bool) (s : string) : string * string :=
  match s with
  | EmptyString => (EmptyString, EmptyString)
  | String c s' =>
      if p c then let '(m, r) := span p s' in (String c m, r)
      else (EmptyString, s)
  end.

(** [TOKEN_RE = re.compile(r"[a-z0-9]{3,}")] matched at the start of [s]:
    the greedy repetition takes every character of the class that follows;
    there is a match when at least three were taken.  The result is the
    match and the text after it. *)
Definition TOKEN_RE (s : string) : option (string * string) :=
  let '(m, r) := span is_token_char s in
  if (3 <=? String.length m)%nat then Some (m, r) else None.

Lemma span_lengths (p : ascii -> bool) (s : string) :
  String.length (fst (span p s)) + String.length (snd (span p s))
  = String.length s.
Proof.
  induction s as [|c s IH]; simpl; [lia|].
  destruct (p c); [|simpl; lia].
  destruct (span p s); simpl in *; lia.
Qed.

Lemma TOKEN_RE_shorter (s m r : string) :
  TOKEN_RE s = Some (m, r) -> String.length r < String.length s.
Proof.
  unfold TOKEN_RE. pose proof (span_lengths is_token_char s) as Hl.
  destruct (span is_token_char s) as [m' r']; simpl in Hl.
  destruct (Nat.leb_spec 3 (String.length m')); [|discriminate].
  intros [= <- <-]. lia.
Qed.

Definition inspect {A : Type} (a : A) : {b : A | a = b} := exist _ a eq_refl.

(** [TOKEN_RE.findall(s)]: the scan of [re.findall].  At each position the
    pattern is tried; after a match the scan resumes behind it, otherwise it
    moves one character on. *)
Equations? findall (s : string) : list string by wf (String.length s) lt :=
  findall EmptyString := [];
  findall (String c s') with inspect (TOKEN_RE (String c s')) => {
    | exist _ (Some (m, r)) e := m :: findall r;
    | exist _ None _ := findall s' }.
Proof.
  apply TOKEN_RE_shorter in e. exact e.
Qed.

(** [[
    def tokenize(text):
        if not text:
            return []
        return [t for t in TOKEN_RE.findall(text.lower()) if t not in STOPWORDS]
    ]]
    [None] is Python's [None]. *)
Definition tokenize (text : option string) : list string :=
  match text with
  | None => []
  | Some s =>
      if str_is_empty s then []
      else filter (fun t => negb (mem t STOPWORDS)) (findall (lower s))
  end.

(* ===================================================================== *)
(** ** Time *)
(* ===================================================================== *)

(** A timezone-aware [datetime] is the number of microseconds between
    1601-01-01T00:00:00 UTC ([CHROME_EPOCH]) and the instant it denotes.
    [datetime] covers the years 1 to 9999; arithmetic that leaves this range
    raises [OverflowError]. *)
Definition time : Type := Z.

Definition microseconds_per_day : Z := 86400 * 1000000.

(** 0001-01-01T00:00:00, 584388 days before the epoch. *)
Definition datetime_min : time := (- 584388 * microseconds_per_day)%Z.

(** 9999-12-31T23:59:59.999999, the last microsecond of day 3067670. *)
Definition datetime_max : time := (3067671 * microseconds_per_day - 1)%Z.

Definition datetime_of (t : Z) : result time :=
  if ((datetime_min <=? t) && (t <=? datetime_max))%Z then Ok t
  else Raise OverflowError.

(** [[
    def chrome_time_to_dt(value):
        if value is None:
            return None
        return CHROME_EPOCH + dt.timedelta(microseconds=value)
    ]] *)
Definition chrome_time_to_dt (value : option Z) : result (option time) :=
  match value with
  | None => Ok None
  | Some v => t <- datetime_of v ;; Ok (Some t)
  end.

(* ===================================================================== *)
(** ** Documents *)
(* ===================================================================== *)

(** A row of the [urls] table: [(id, url, title, visit_count,
    last_visit_time)]; a nullable column is an [option]. *)
Record row : Type := {
  row_id : Z;
  row_url : string;
  row_title : option string;
  row_visit_count : option Z;
  row_last_visit_time : option Z
}.

Record doc : Type := {
  doc_id : Z;
  doc_url : string;
  doc_title : string;
  doc_visit_count : Z;
  doc_last_visit : option time;
  doc_host : string;
  doc_tokens : list string
}.

(** A compiled regular expression: its source text and whether
    [re.IGNORECASE] is set. *)
Record regex : Type := {
  pattern : string;
  ignorecase : bool
}.

(** Library routines the program calls and this development does not
    define: the URL parser, the regular expression engine and the calendar.
    - [urlparse u] is [(urlparse(u).hostname, urlparse(u).path)];
    - [re_valid p] tells whether [re.compile(p)] accepts [p];
    - [re_search r s] tells whether [r.search(s)] finds a match;
    - [strptime_ymd s] is [datetime.strptime(s, "%Y-%m-%d")] as
      microseconds since 1601-01-01T00:00:00 on the naive time line, [None]
      when it raises [ValueError];
    - [strftime_local_ymd t] is [t.astimezone().strftime("%Y-%m-%d")]. *)
Record Externals : Type := {
  urlparse : string -> result (option string * string);
  re_valid : string -> bool;
  re_search : regex -> string -> bool;
  strptime_ymd : string -> option Z;
  strftime_local_ymd : time -> string
}.

(** [x or default] for a nullable string and a nullable int. *)
Definition str_or (x : option string) (default : string) : string :=
  match x with
  | Some s => if str_is_empty s then default else s
  | None => default
  end.

Definition int_or (x : option Z) (default : Z) : Z :=
  match x with
  | Some n => if (n =? 0)%Z then default else n
  | None => default
  end.

Section BuildDocs.
Variable ext : Externals.

(** The body of the loop of [build_docs]. *)
Definition build_doc (r : row) : result doc :=
  let url := row_url r in
  let title := str_or (row_title r) "" in
  let visit_count := int_or (row_visit_count r) 0 in
  last_visit <- chrome_time_to_dt (row_last_visit_time r) ;;
  parsed <- urlparse ext url ;;
  let host := str_or (fst parsed) "" in
  let path := replace_char "/" " " (snd parsed) in
  let tokens :=
    tokenize (Some title) ++ tokenize (Some host) ++ tokenize (Some path) in
  Ok {| doc_id := row_id r;
        doc_url := url;
        doc_title := title;
        doc_visit_count := visit_count;
        doc_last_visit := last_visit;
        doc_host := host;
        doc_tokens := tokens |}.

Definition build_docs (rows : list row) : result (list doc) :=
  mapM build_doc rows.
End BuildDocs.

(* ===================================================================== *)
(** ** TF-IDF vectors *)
(* ===================================================================== *)

(** [set(xs)]: the distinct elements of [xs].  Python leaves the iteration
    order of a set open; the order chosen here is not observable, since the
    table built from it is only read with [get]. *)
Definition py_set (xs : list string) : list string := nodup string_dec xs.

(** [for t in ts: counts[t] = counts.get(t, 0) + 1] *)
Definition count_into (counts : dict string Z) (ts : list string)
  : dict string Z :=
  fold_left (fun c t => dict_set c t (dict_get_default c t 0 + 1)%Z) ts counts.

(** The first loop of [tfidf_vectors]. *)
Definition document_frequency (docs : list doc) : dict string Z :=
  fold_left (fun df d => count_into df (py_set (doc_tokens d))) docs [].

Section TfIdf.
Context {F : Type} `{Num F} `{Log F}.

(** [[
    tf = {}
    for t in doc["tokens"]:
        tf[t] = tf.get(t, 0) + 1
    vec = {}
    for t, c in tf.items():
        idf = math.log((n + 1) / (1 + df.get(t, 0))) + 1.0
        vec[t] = c * idf
    ]] *)
Definition tfidf_vector (df : dict string Z) (n : Z) (d : doc)
  : result (vector F) :=
  let tf := count_into [] (doc_tokens d) in
  foldM (fun vec tc =>
           q <- int_truediv (n + 1)%Z (1 + dict_get_default df (fst tc) 0)%Z ;;
           l <- math_log q ;;
           let idf := fadd l fone in
           Ok (dict_set vec (fst tc) (fmul (of_int (snd tc)) idf)))
        tf [].

Definition tfidf_vectors (docs : list doc) : result (list (vector F)) :=
  let df := document_frequency docs in
  let n := Z.of_nat (List.length docs) in
  mapM (tfidf_vector df n) docs.
End TfIdf.

(* ===================================================================== *)
(** ** Interest aggregate *)
(* ===================================================================== *)

(** [xs[i]] for a list and a non-negative index. *)
Definition list_index {A : Type} (xs : list A) (i : nat) : result A :=
  match nth_error xs i with
  | Some x => Ok x
  | None => Raise IndexError
  end.

Section Aggregate.
Context {F : Type} `{Num F}.

(** [for k, v in vec.items(): agg[k] = agg.get(k, 0.0) + v * w] *)
Definition add_scaled (agg : vector F) (vec : vector F) (w : F) : vector F :=
  fold_left (fun agg kv =>
               dict_set agg (fst kv)
                        (fadd (dict_get_default agg (fst kv) fzero)
                              (fmul (snd kv) w)))
            vec agg.

(** [1.0 if not weights else weights[i]] *)
Definition weight_at (weights : option (list F)) (i : nat) : result F :=
  match weights with
  | None | Some [] => Ok fone
  | Some ws => list_index ws i
  end.

(** [[
    def aggregate_vector(vectors, weights=None):
        agg = {}
        for i, vec in enumerate(vectors):
            w = 1.0 if not weights else weights[i]
            for k, v in vec.items():
                agg[k] = agg.get(k, 0.0) + v * w
        return agg
    ]] *)
Definition aggregate_vector (vectors : list (vector F))
           (weights : option (list F)) : result (vector F) :=
  foldM (fun agg iv =>
           w <- weight_at weights (fst iv) ;;
           Ok (add_scaled agg (snd iv) w))
        (combine (seq 0 (List.length vectors)) vectors) [].
End Aggregate.

(* ===================================================================== *)
(** ** Sorting *)
(* ===================================================================== *)

(** [list.sort] is stable and compares with [<] only.  It is modelled by a
    stable insertion sort; on keys that [<] orders totally (every comparison
    in this program, NaN apart) all stable sorts agree. *)
Section Sort.
Variable A : Type.
Variable ltb : A -> A -> bool.

Fixpoint insert (x : A) (l : list A) : list A :=
  match l with
  | [] => [x]
  | y :: l' => if ltb y x then y :: insert x l' else x :: l
  end.

(** [l.sort()]: ascending, equal elements in their original order. *)
Definition py_sort (l : list A) : list A := fold_right insert [] l.

(** [l.sort(reverse=True)]: the list is reversed, sorted and reversed
    again, which keeps equal elements in their original order. *)
Definition py_sort_reverse (l : list A) : list A := rev (py_sort (rev l)).

(** [x] and [y] are not ordered by [<] in either direction. *)
Definition tied (x y : A) : bool := negb (ltb x y) && negb (ltb y x).
End Sort.

(** A strict total order, given by its two tests. *)
Record strict_total {A : Type} (eqb ltb : A -> A -> bool) : Prop := {
  st_eqb : forall x y, eqb x y = true <-> x = y;
  st_irrefl : forall x, ltb x x = false;
  st_trans : forall x y z, ltb x y = true -> ltb y z = true -> ltb x z = true;
  st_total : forall x y, x <> y -> ltb x y = true \/ ltb y x = true
}.

Arguments st_eqb {A eqb ltb} _ x y.
Arguments st_irrefl {A eqb ltb} _ x.
Arguments st_trans {A eqb ltb} _ x y z _ _.
Arguments st_total {A eqb ltb} _ x y _.

(** [x < y] on tuples [(a, s)] with a string second component: the first
    components decide unless they are equal. *)
Definition tuple_ltb {A : Type} (eqb ltb : A -> A -> bool)
           (x y : A * string) : bool :=
  if eqb (fst x) (fst y) then
    if String.eqb (snd x) (snd y) then false
    else String.ltb (snd x) (snd y)
  else ltb (fst x) (fst y).

(** [l[:n]] *)
Definition py_slice_to {A : Type} (n : Z) (l : list A) : list A :=
  if (0 <=? n)%Z then firstn (Z.to_nat n) l
  else firstn (List.length l - Z.to_nat (- n)) l.

(* ===================================================================== *)
(** ** Explanations *)
(* ===================================================================== *)

Section Explain.
Context {F : Type} `{Num F}.

(** The list [contributions] of [explain_doc] before it is sorted. *)
Definition contributions (interest_vec doc_vec : vector F)
  : list (F * string) :=
  filter (fun ct => fltb fzero (fst ct))
         (map (fun tw =>
                 (fmul (snd tw) (dict_get_default interest_vec (fst tw) fzero),
                  fst tw))
              doc_vec).

(** [[
    def explain_doc(interest_vec, doc_vec, topn):
        if topn <= 0:
            return []
        contributions = []
        for token, weight in doc_vec.items():
            contrib = weight * interest_vec.get(token, 0.0)
            if contrib > 0:
                contributions.append((contrib, token))
        contributions.sort(reverse=True)
        return [t for _, t in contributions[:topn]]
    ]] *)
Definition explain_doc (interest_vec doc_vec : vector F) (topn : Z)
  : list string :=
  if (topn <=? 0)%Z then []
  else
    map snd
        (py_slice_to topn
           (py_sort_reverse (tuple_ltb feqb fltb)
                            (contributions interest_vec doc_vec))).
End Explain.

(* ===================================================================== *)
(** ** Result rows *)
(* ===================================================================== *)

(** The dictionary built by [format_row]; the key ["cluster"] is absent
    until [main] assigns it. *)
Record out_row : Type := {
  r_score : string;
  r_last_visit : string;
  r_visits : string;
  r_title : string;
  r_url : string;
  r_host : string;
  r_why : string;
  r_why_tokens : list string;
  r_cluster : option string
}.

(** [r["cluster"] = name] *)
Definition set_cluster (r : out_row) (name : string) : out_row :=
  {| r_score := r_score r;
     r_last_visit := r_last_visit r;
     r_visits := r_visits r;
     r_title := r_title r;
     r_url := r_url r;
     r_host := r_host r;
     r_why := r_why r;
     r_why_tokens := r_why_tokens r;
     r_cluster := Some name |}.

(** [str(n)] for an int. *)
Definition str_of_int (n : Z) : string := NilZero.string_of_int (Z.to_int n).

Section FormatRow.
Context {F : Type}.
Variable ext : Externals.
(** [f"{score:.3f}"] *)
Variable format_score : F -> string.

(** [[
    def format_row(score, doc, why_tokens):
        last_visit = doc["last_visit"]
        last_visit_str = last_visit.astimezone().strftime("%Y-%m-%d") if last_visit else ""
        title = doc["title"].strip()
        return {"score": f"{score:.3f}", "last_visit": last_visit_str,
                "visits": str(doc["visit_count"]), "title": title,
                "url": doc["url"], "host": doc["host"],
                "why": ", ".join(why_tokens), "why_tokens": why_tokens}
    ]] *)
Definition format_row (score : F) (d : doc) (why_tokens : list string)
  : out_row :=
  let last_visit_str :=
    match doc_last_visit d with
    | Some t => strftime_local_ymd ext t
    | None => ""
    end in
  {| r_score := format_score score;
     r_last_visit := last_visit_str;
     r_visits := str_of_int (doc_visit_count d);
     r_title := strip (doc_title d);
     r_url := doc_url d;
     r_host := doc_host d;
     r_why := join ", " why_tokens;
     r_why_tokens := why_tokens;
     r_cluster := None |}.
End FormatRow.

(* ===================================================================== *)
(** ** Cluster summaries *)
(* ===================================================================== *)

(** [{"count": c, "tokens": t}] *)
Record cluster_info : Type := {
  info_count : Z;
  info_tokens : dict string Z
}.

(** [{"count": c, "top_tokens": ts}] *)
Record summary : Type := {
  count : Z;
  top_tokens : list string
}.

(** The body of the first loop of [build_cluster_summary]:
    [[
    name = r["cluster"]
    info = clusters.setdefault(name, {"count": 0, "tokens": {}})
    info["count"] += 1
    for t in r.get("why_tokens", []):
        info["tokens"][t] = info["tokens"].get(t, 0) + 1
    ]] *)
Definition add_to_cluster (clusters : dict string cluster_info) (r : out_row)
  : result (dict string cluster_info) :=
  match r_cluster r with
  | None => Raise KeyError
  | Some name =>
      let info :=
        dict_get_default clusters name
                         {| info_count := 0; info_tokens := [] |} in
      Ok (dict_set clusters name
                   {| info_count := (info_count info + 1)%Z;
                      info_tokens :=
                        count_into (info_tokens info) (r_why_tokens r) |})
  end.

(** The sort key [lambda x: (-x[1], x[0])] and [<] on such keys. *)
Definition token_count_key (x : string * Z) : Z * string :=
  ((- snd x)%Z, fst x).

Definition token_count_ltb (x y : string * Z) : bool :=
  tuple_ltb Z.eqb Z.ltb (token_count_key x) (token_count_key y).

(** The body of the second loop. *)
Definition summarize (topn : Z) (info : cluster_info) : summary :=
  let token_counts := py_sort token_count_ltb (info_tokens info) in
  {| count := info_count info;
     top_tokens := map fst (py_slice_to topn token_counts) |}.

(** [[
    def build_cluster_summary(rows, topn):
        clusters = {}
        for r in rows:
            ...
        summaries = {}
        for name, info in clusters.items():
            token_counts = sorted(info["tokens"].items(), key=lambda x: (-x[1], x[0]))
            top_tokens = [t for t, _ in token_counts[:topn]]
            summaries[name] = {"count": info["count"], "top_tokens": top_tokens}
        return summaries
    ]] *)
Definition build_cluster_summary (rows : list out_row) (topn : Z)
  : result (dict string summary) :=
  clusters <- foldM add_to_cluster rows [] ;;
  Ok (fold_left (fun summaries ni =>
                   dict_set summaries (fst ni) (summarize topn (snd ni)))
                clusters []).

(* ===================================================================== *)
(** ** Reading filter *)
(* ===================================================================== *)

Definition DEFAULT_EXCLUDE_HOSTS : list string :=
  [ "accounts.google.com"; "auth.openai.com"; "mail.google.com"; "gmail.com";
    "login.microsoftonline.com"; "login.live.com"; "github.com"; "x.com";
    "twitter.com"; "www.linkedin.com"; "linkedin.com"; "facebook.com";
    "www.facebook.com" ].

Definition DEFAULT_EXCLUDE_PATTERNS : regex :=
  {| pattern :=
       "(login|signin|sign-in|sign_in|signup|sign-up|oauth|sso|account|accounts|auth|callback)";
     ignorecase := true |}.

(** [[
    def parse_csv_list(value):
        if not value:
            return []
        return [v.strip() for v in value.split(",") if v.strip()]
    ]] *)
Definition parse_csv_list (value : option string) : list string :=
  match value with
  | None => []
  | Some v =>
      if str_is_empty v then []
      else map strip
               (filter (fun p => negb (str_is_empty (strip p)))
                       (split_char "," v))
  end.

Section ReadingFilter.
Variable ext : Externals.

(** [re.compile(p, flags)] *)
Definition re_compile (p : string) (flag : bool) : result regex :=
  if re_valid ext p then Ok {| pattern := p; ignorecase := flag |}
  else Raise ReError.

(** [[
    def is_reading_candidate(doc, exclude_hosts, exclude_patterns):
        host = (doc.get("host") or "").lower()
        url = doc.get("url") or ""
        title = doc.get("title") or ""
        if host in exclude_hosts:
            return False
        if exclude_patterns.search(url) or exclude_patterns.search(title):
            return False
        return True
    ]] *)
Definition is_reading_candidate (d : doc) (exclude_hosts : list string)
           (exclude_patterns : regex) : bool :=
  let host := lower (str_or (Some (doc_host d)) "") in
  let url := str_or (Some (doc_url d)) "" in
  let title := str_or (Some (doc_title d)) "" in
  if mem host exclude_hosts then false
  else if re_search ext exclude_patterns url
          || re_search ext exclude_patterns title then false
  else true.
End ReadingFilter.

(* ===================================================================== *)
(** ** The program *)
(* ===================================================================== *)

Inductive output_format : Type := Table | Json | Csv.

(** The namespace returned by [parser.parse_args()]; [--history] and
    [--profile] only select the database file and are left out. *)
Record args : Type := {
  limit : Z;
  recent_days : Z;
  min_visits : Z;
  dedupe_host : bool;
  since : option string;
  no_reading_filter : bool;
  exclude_hosts : option string;
  exclude_url_pattern : option string;
  format : output_format;
  explain_top : Z;
  no_cluster : bool
}.

(** What a run writes to standard output: one of the messages, or the call
    of [print_table], [print_csv] or [print_json] with its arguments. *)
Inductive printed : Type :=
| Message (s : string)
| Results (fmt : output_format) (rows : list out_row) (cluster_enabled : bool)
          (cluster_summaries : dict string summary).

(** How [main] ends: it returns an exit code, or an exception escapes. *)
Inductive outcome : Type :=
| Returned (code : Z) (out : printed)
| Uncaught (e : exn).

(** A stage of [main] goes on with a value or ends the run. *)
Inductive flow (A : Type) : Type :=
| Go (a : A)
| Halt (o : outcome).

Arguments Go {A} a.
Arguments Halt {A} o.

Definition flow_bind {A B : Type} (m : flow A) (k : A -> flow B) : flow B :=
  match m with
  | Go a => k a
  | Halt o => Halt o
  end.

Definition lift {A : Type} (m : result A) : flow A :=
  match m with
  | Ok a => Go a
  | Raise e => Halt (Uncaught e)
  end.

Definition finish (m : flow outcome) : outcome :=
  match m with
  | Go o => o
  | Halt o => o
  end.

Notation "x <~ m ;; k" := (flow_bind m (fun x => k))
  (at level 61, m at next level, right associativity) : result_scope.

(** The reads of the environment that [main] performs:
    - [GetNow] is [dt.datetime.now(dt.timezone.utc)];
    - [GetLocalOffset] is the UTC offset, in microseconds, of
      [dt.datetime.now().astimezone().tzinfo]. *)
Inductive io (A : Type) : Type :=
| Ret (a : A)
| GetNow (k : time -> io A)
| GetLocalOffset (k : Z -> io A).

Arguments Ret {A} a.
Arguments GetNow {A} k.
Arguments GetLocalOffset {A} k.

Fixpoint io_bind {A B : Type} (m : io A) (f : A -> io B) : io B :=
  match m with
  | Ret a => f a
  | GetNow k => GetNow (fun t => io_bind (k t) f)
  | GetLocalOffset k => GetLocalOffset (fun z => io_bind (k z) f)
  end.

(** The machine a run happens on: what the clock and the timezone
    database answer. *)
Record world : Type := {
  clock : time;
  local_offset : Z
}.

Fixpoint run {A : Type} (w : world) (m : io A) : A :=
  match m with
  | Ret a => a
  | GetNow k => run w (k (clock w))
  | GetLocalOffset k => run w (k (local_offset w))
  end.

Definition is_nil {A : Type} (l : list A) : bool :=
  match l with
  | [] => true
  | _ :: _ => false
  end.

(** [d["last_visit"] and d["last_visit"] >= t] *)
Definition visited_since (t : time) (d : doc) : bool :=
  match doc_last_visit d with
  | Some v => (t <=? v)%Z
  | None => false
  end.

(** [not d["last_visit"] or d["last_visit"] < t] *)
Definition visited_before (t : time) (d : doc) : bool :=
  match doc_last_visit d with
  | Some v => (v <? t)%Z
  | None => true
  end.

(** [{d["id"]: i for i, d in enumerate(docs)}] *)
Definition index_docs (docs : list doc) : dict Z nat :=
  fold_left (fun idx id => dict_set idx (doc_id (snd id)) (fst id))
            (combine (seq 0 (List.length docs)) docs) [].

Section Main.
Context {F : Type} `{Num F} `{Log F}.
Variable ext : Externals.
Variable format_score : F -> string.

(** [vectors[doc_index[d["id"]]]] *)
Definition vector_of (vectors : list (vector F)) (doc_index : dict Z nat)
           (d : doc) : result (vector F) :=
  i <- dict_lookup doc_index (doc_id d) ;;
  list_index vectors i.

(** [[
    scored = []
    for d in older_docs:
        vec = vectors[doc_index[d["id"]]]
        score = cosine(interest, vec)
        if score <= 0.0:
            continue
        scored.append((score, d))
    ]] *)
Definition score_candidates (interest : vector F)
           (vectors : list (vector F)) (doc_index : dict Z nat)
           (older_docs : list doc) : result (list (F * doc)) :=
  foldM (fun scored d =>
           vec <- vector_of vectors doc_index d ;;
           score <- cosine interest vec ;;
           Ok (if fleb score fzero then scored else scored ++ [(score, d)]))
        older_docs [].

(** [scored.sort(key=lambda x: x[0], reverse=True)] *)
Definition sort_scored (scored : list (F * doc)) : list (F * doc) :=
  py_sort_reverse (fun x y => fltb (fst x) (fst y)) scored.

(** [[
    for score, doc in scored:
        if args.dedupe_host and doc["host"] in seen_hosts:
            continue
        seen_hosts.add(doc["host"])
        vec = vectors[doc_index[doc["id"]]]
        why_tokens = explain_doc(interest, vec, args.explain_top)
        results.append(format_row(score, doc, why_tokens))
        if len(results) >= args.limit:
            break
    ]] *)
Fixpoint collect_results (a : args) (interest : vector F)
         (vectors : list (vector F)) (doc_index : dict Z nat)
         (scored : list (F * doc)) (results : list out_row)
         (seen_hosts : list string) : result (list out_row) :=
  match scored with
  | [] => Ok results
  | (score, d) :: rest =>
      if dedupe_host a && mem (doc_host d) seen_hosts then
        collect_results a interest vectors doc_index rest results seen_hosts
      else
        let seen_hosts' := doc_host d :: seen_hosts in
        vec <- vector_of vectors doc_index d ;;
        let why_tokens := explain_doc interest vec (explain_top a) in
        let results' :=
          results ++ [format_row ext format_score score d why_tokens] in
        if (limit a <=? Z.of_nat (List.length results'))%Z then Ok results'
        else collect_results a interest vectors doc_index rest results'
                             seen_hosts'
  end.

(** [[
    r["cluster"] = r["why_tokens"][0] if (cluster_enabled and r["why_tokens"]) \
                   else (r["host"] or "other")
    ]] *)
Definition assign_cluster (cluster_enabled : bool) (r : out_row) : out_row :=
  set_cluster r
    (match r_why_tokens r with
     | t :: _ => if cluster_enabled then t else str_or (Some (r_host r)) "other"
     | [] => str_or (Some (r_host r)) "other"
     end).

(** [main] from the first filter to [build_docs]' result. *)
Definition stage_docs (a : args) (rows : list row) : flow (list doc) :=
  if is_nil rows then Halt (Returned 1 (Message "No history rows found."))
  else
    docs <~ lift (build_docs ext rows) ;;
    Go (filter (fun d => (min_visits a <=? doc_visit_count d)%Z) docs).

(** [if args.since: ...] *)
Definition stage_since (a : args) (docs : list doc) : io (flow (list doc)) :=
  match since a with
  | None => Ret (Go docs)
  | Some s =>
      if str_is_empty s then Ret (Go docs)
      else
        match strptime_ymd ext s with
        | None =>
            Ret (Halt (Returned 1
                         (Message "Invalid --since format. Use YYYY-MM-DD.")))
        | Some since_local =>
            GetLocalOffset (fun offset =>
              Ret (since_utc <~ lift (datetime_of (since_local - offset)%Z) ;;
                   Go (filter (visited_since since_utc) docs)))
        end
  end.

(** The hosts to exclude:
    [[
    exclude_hosts = set()
    if not args.no_reading_filter:
        exclude_hosts.update(DEFAULT_EXCLUDE_HOSTS)
    extra_hosts = parse_csv_list(args.exclude_hosts)
    exclude_hosts.update(h.lower() for h in extra_hosts)
    ]] *)
Definition exclusion_hosts (a : args) : list string :=
  let default_hosts :=
    if no_reading_filter a then [] else DEFAULT_EXCLUDE_HOSTS in
  let extra_hosts := parse_csv_list (exclude_hosts a) in
  default_hosts ++ map lower extra_hosts.

(** The pattern to exclude: the default one or [re.compile(r"$^")], merged
    with [--exclude-url-pattern] when that is given. *)
Definition exclusion_patterns (a : args) : flow regex :=
  let default_patterns :=
    if no_reading_filter a then {| pattern := "$^"; ignorecase := false |}
    else DEFAULT_EXCLUDE_PATTERNS in
  match exclude_url_pattern a with
  | None => Go default_patterns
  | Some p =>
      if str_is_empty p then Go default_patterns
      else
        match re_compile ext p true with
        | Raise _ =>
            Halt (Returned 1 (Message "Invalid --exclude-url-pattern regex."))
        | Ok user_pattern =>
            if String.eqb (pattern default_patterns) "$^"
            then Go user_pattern
            else lift (re_compile ext
                         (String.append "(?:"
                           (String.append (pattern default_patterns)
                             (String.append ")|(?:"
                               (String.append (pattern user_pattern) ")"))))
                         true)
        end
  end.

(** The reading filter and the check that follows it. *)
Definition stage_filter (a : args) (docs : list doc) : flow (list doc) :=
  exclude_patterns <~ exclusion_patterns a ;;
  let docs :=
    filter (fun d => is_reading_candidate ext d (exclusion_hosts a)
                                          exclude_patterns)
           docs in
  if is_nil docs then
    Halt (Returned 1 (Message "No history rows after filtering."))
  else Go docs.

(** [main] from the computation of [cutoff] to the end. *)
Definition pipeline (a : args) (docs : list doc) (now : time) : outcome :=
  finish (
    cutoff <~ lift (datetime_of (now - recent_days a * microseconds_per_day)%Z) ;;
    let recent_docs := filter (visited_since cutoff) docs in
    let older_docs := filter (visited_before cutoff) docs in
    if is_nil recent_docs then
      Halt (Returned 1
              (Message "Not enough recent history to build an interest profile."))
    else
      vectors <~ lift (tfidf_vectors docs) ;;
      let doc_index := index_docs docs in
      recent_vectors <~ lift (mapM (vector_of vectors doc_index) recent_docs) ;;
      interest <~ lift (aggregate_vector recent_vectors None) ;;
      scored <~ lift (score_candidates interest vectors doc_index older_docs) ;;
      let scored := sort_scored scored in
      results <~ lift (collect_results a interest vectors doc_index scored [] []) ;;
      if is_nil results then
        Halt (Returned 1 (Message "No recommendations found."))
      else
        let cluster_enabled := negb (no_cluster a) in
        let results := map (assign_cluster cluster_enabled) results in
        cluster_summaries <~
          (if cluster_enabled then lift (build_cluster_summary results 5)
           else Go []) ;;
        Go (Returned 0
              (Results (format a) results cluster_enabled cluster_summaries))).

(** [main], given the rows that [load_history] returned. *)
Definition main (a : args) (rows : list row) : io outcome :=
  match stage_docs a rows with
  | Halt o => Ret o
  | Go docs =>
      io_bind (stage_since a docs) (fun f =>
        match f with
        | Halt o => Ret o
        | Go docs =>
            match stage_filter a docs with
            | Halt o => Ret o
            | Go docs => GetNow (fun now => Ret (pipeline a docs now))
            end
        end)
  end.
End Main.

(* ===================================================================== *)
(** ** Reference definitions *)
(* ===================================================================== *)

(** The notions the specification of the program is phrased in.  They are
    written independently of the code above and compared with it below. *)

(** *** Maximal runs *)

(** The pieces of [s] between the characters that do not satisfy [p], the
    empty pieces included: [s] is cut at every such character. *)
Fixpoint pieces (p : ascii -> bool) (s : string) : list string :=
  match s with
  | EmptyString => [EmptyString]
  | String c s' =>
      if p c then
        match pieces p s' with
        | [] => [String c EmptyString]
        | r :: rs => String c r :: rs
        end
      else EmptyString :: pieces p s'
  end.

(** Every character of [s] satisfies [p]. *)
Fixpoint str_forall (p : ascii -> bool) (s : string) : bool :=
  match s with
  | EmptyString => true
  | String c s' => p c && str_forall p s'
  end.

(** The characters of [s] that satisfy [p], and the number of those that
    do not. *)
Fixpoint str_filter (p : ascii -> bool) (s : string) : string :=
  match s with
  | EmptyString => EmptyString
  | String c s' => if p c then String c (str_filter p s') else str_filter p s'
  end.

Fixpoint count_breaks (p : ascii -> bool) (s : string) : nat :=
  match s with
  | EmptyString => 0
  | String c s' => if p c then count_breaks p s' else S (count_breaks p s')
  end.

(** The maximal runs of characters of [[a-z0-9]] that are at least three
    characters long, from left to right. *)
Definition long_runs (s : string) : list string :=
  filter (fun r => (3 <=? String.length r)%nat) (pieces is_token_char s).

(** The tokenizer as the specification words it. *)
Definition tokenize_spec (text : option string) : list string :=
  match text with
  | None => []
  | Some s => filter (fun t => negb (mem t STOPWORDS)) (long_runs (lower s))
  end.

(** *** Euclidean geometry of term vectors *)

(** Real weights. *)
Definition Rsum (xs : list R) : R := fold_right Rplus 0%R xs.

(** The sum of the squared weights of [v], and its square root, the
    Euclidean norm. *)
Definition sumsq (v : vector R) : R :=
  Rsum (map (fun kv => (snd kv * snd kv)%R) v).

Definition norm (v : vector R) : R := sqrt (sumsq v).

(** The weight of token [k] in [v]; an absent token weighs 0. *)
Definition weight (v : vector R) (k : string) : R := dict_get_default v k 0%R.

(** The dot product: the sum over the tokens of [a] of the product of the
    two weights. *)
Definition dot (a b : vector R) : R :=
  Rsum (map (fun kv => (snd kv * weight b (fst kv))%R) a).

(** The value of the cosine over the reals. *)
Definition similarity (a b : vector R) : R :=
  if dict_is_empty a || dict_is_empty b then 0%R
  else if Reqb (norm a) 0 || Reqb (norm b) 0 then 0%R
  else (dot a b / (norm a * norm b))%R.

(** Two vectors share no token. *)
Definition disjoint (a b : vector R) : Prop :=
  forall k, In k (dict_keys a) -> ~ In k (dict_keys b).

(** *** Claims about [cosine], for any arithmetic *)

Section CosineClaims.
Context {F : Type} `{Num F}.

(** Every weight of [v] is at least 0. *)
Definition nonneg (v : vector F) : Prop :=
  Forall (fun kv => fleb fzero (snd kv) = true) v.

(** Some weight of [v] is not 0. *)
Definition nonzero (v : vector F) : Prop :=
  Exists (fun kv => feqb (snd kv) fzero = false) v.

(** On vectors with non-negative weights [cosine] returns a value of the
    closed interval from 0 to 1. *)
Definition cosine_in_unit_interval : Prop :=
  forall a b : vector F,
    dict_wf a -> dict_wf b -> nonneg a -> nonneg b ->
    exists c, cosine a b = Ok c
              /\ fleb fzero c = true /\ fleb c fone = true.

(** The cosine of a non-zero vector with itself is 1. *)
Definition cosine_self_is_one : Prop :=
  forall v : vector F,
    dict_wf v -> nonzero v ->
    exists c, cosine v v = Ok c /\ feqb c fone = true.
End CosineClaims.

(** *** Explanations with ties in insertion order *)

Section ExplainClaims.
Context {F : Type} `{Num F}.

(** The tokens with a positive product, in descending order of the product,
    tokens with equal products in the order of the candidate vector: a
    stable sort on the product alone. *)
Definition explain_by_insertion_order (interest_vec doc_vec : vector F)
           (topn : Z) : list string :=
  if (topn <=? 0)%Z then []
  else
    map snd
        (py_slice_to topn
           (py_sort_reverse (fun x y => fltb (fst x) (fst y))
                            (contributions interest_vec doc_vec))).

Definition explain_ties_in_insertion_order : Prop :=
  forall (interest_vec doc_vec : vector F) (topn : Z),
    dict_wf doc_vec ->
    explain_doc interest_vec doc_vec topn
    = explain_by_insertion_order interest_vec doc_vec topn.
End ExplainClaims.

(** *** Term and document frequencies *)

(** [tf t d]: how often token [t] occurs in the token sequence of [d]. *)
Definition tf (t : string) (d : doc) : nat :=
  count_occ string_dec (doc_tokens d) t.

(** [df t docs]: how many documents of [docs] contain [t] at least once. *)
Definition df (t : string) (docs : list doc) : nat :=
  List.length (filter (fun d => mem t (doc_tokens d)) docs).

(** [idf t docs = ln((N + 1) / (1 + df t docs)) + 1], [N] the number of
    documents. *)
Definition idf (t : string) (docs : list doc) : R :=
  (ln (INR (List.length docs + 1) / INR (1 + df t docs)) + 1)%R.

(** *** Sample data *)

(** A history of two pages, used to instantiate the statements below: one
    visited about a day before [sample_world]'s clock reading, one forty
    days before. *)
Definition sample_rows : list row :=
  [ {| row_id := 1;
       row_url := "https://doc.rust-lang.org/guide";
       row_title := Some "Rust memory safety guide";
       row_visit_count := Some 5%Z;
       row_last_visit_time := Some 13399900000000000%Z |};
    {| row_id := 2;
       row_url := "https://blog.example.org/ownership";
       row_title := Some "Rust ownership and borrowing";
       row_visit_count := Some 2%Z;
       row_last_visit_time := Some 13396544000000000%Z |} ].

Definition sample_ext : Externals :=
  {| urlparse := fun u =>
       if String.eqb u "https://doc.rust-lang.org/guide"
       then Ok (Some "doc.rust-lang.org", "/guide")
       else Ok (Some "blog.example.org", "/ownership");
     re_valid := fun _ => true;
     re_search := fun _ _ => false;
     strptime_ymd := fun _ => None;
     strftime_local_ymd := fun _ => "2025-08-17" |}.

(** The defaults of the argument parser. *)
Definition sample_args : args :=
  {| limit := 15;
     recent_days := 14;
     min_visits := 1;
     dedupe_host := false;
     since := None;
     no_reading_filter := false;
     exclude_hosts := None;
     exclude_url_pattern := None;
     format := Table;
     explain_top := 5;
     no_cluster := false |}.

Definition sample_world : world :=
  {| clock := 13400000000000000%Z; local_offset := 0%Z |}.

(** The same machine a hundred days later. *)
Definition later_world : world :=
  {| clock := 13408640000000000%Z; local_offset := 0%Z |}.

(** The documents that [build_docs] makes of [sample_rows]. *)
Definition sample_docs : list doc :=
  [ {| doc_id := 1;
       doc_url := "https://doc.rust-lang.org/guide";
       doc_title := "Rust memory safety guide";
       doc_visit_count := 5;
       doc_last_visit := Some 13399900000000000%Z;
       doc_host := "doc.rust-lang.org";
       doc_tokens := ["rust"; "memory"; "safety"; "guide"; "doc"; "rust";
                      "lang"; "org"; "guide"] |};
    {| doc_id := 2;
       doc_url := "https://blog.example.org/ownership";
       doc_title := "Rust ownership and borrowing";
       doc_visit_count := 2;
       doc_last_visit := Some 13396544000000000%Z;
       doc_host := "blog.example.org";
       doc_tokens := ["rust"; "ownership"; "borrowing"; "blog"; "example";
                      "org"; "ownership"] |} ].

Definition sample_recent : doc := nth 0 sample_docs
  {| doc_id := 0; doc_url := ""; doc_title := ""; doc_visit_count := 0;
     doc_last_visit := None; doc_host := ""; doc_tokens := [] |}.

Definition sample_older : doc := nth 1 sample_docs
  {| doc_id := 0; doc_url := ""; doc_title := ""; doc_visit_count := 0;
     doc_last_visit := None; doc_host := ""; doc_tokens := [] |}.

(** *** Time as an input *)

(** The outcome of a run is fixed by the rows and the options alone,
    whatever the clock of the machine says. *)
Definition outcome_independent_of_clock {F : Type} `{Num F} `{Log F} : Prop :=
  forall (ext : Externals) (format_score : F -> string) (a : args)
         (rows : list row) (w1 w2 : world),
    run w1 (main ext format_score a rows) = run w2 (main ext format_score a rows).

(** *** Clusters *)

(** The result [r] carries the cluster label [name]. *)
Definition in_cluster (name : string) (r : out_row) : bool :=
  match r_cluster r with
  | Some n => String.eqb n name
  | None => false
  end.

(** The members of a cluster, and their explanation tokens, one after the
    other. *)
Definition members (name : string) (rows : list out_row) : list out_row :=
  filter (in_cluster name) rows.

Definition member_tokens (name : string) (rows : list out_row) : list string :=
  List.concat (map r_why_tokens (members name rows)).

(** How often token [t] occurs among the explanation tokens of the members
    of cluster [name]. *)
Definition frequency (t name : string) (rows : list out_row) : nat :=
  count_occ string_dec (member_tokens name rows) t.

(** The label rule: the first explanation token when clustering is enabled
    and there is one, otherwise the host, or ["other"] for an empty host. *)
Definition label_rule (cluster_enabled : bool) (why_tokens : list string)
           (host : string) : string :=
  match cluster_enabled, why_tokens with
  | true, t :: _ => t
  | _, _ => if str_is_empty host then "other" else host
  end.

(** A result row built by [main] from a scored candidate. *)
Definition row_of_candidate {F : Type} `{Num F} (ext : Externals)
           (format_score : F -> string) (a : args) (interest : vector F)
           (vectors : list (vector F)) (doc_index : dict Z nat)
           (scored : list (F * doc)) (r : out_row) : Prop :=
  exists score d v,
    In (score, d) scored
    /\ vector_of vectors doc_index d = Ok v
    /\ r = format_row ext format_score score d
                      (explain_doc interest v (explain_top a)).

(** Token [t] occurs in a document visited at or after [cutoff]. *)
Definition recent_token (cutoff : time) (docs : list doc) (t : string) : Prop :=
  exists d, In d docs /\ visited_since cutoff d = true /\ In t (doc_tokens d).

(** Row [r] shows a document of [docs] that was last visited before
    [cutoff] (or never), that shares a token with the recent documents, and
    whose explanation tokens are all shared with them. *)
Definition row_from_history (cutoff : time) (docs : list doc) (r : out_row)
  : Prop :=
  exists d,
    In d docs
    /\ visited_since cutoff d = false
    /\ r_url r = doc_url d
    /\ r_host r = doc_host d
    /\ r_title r = strip (doc_title d)
    /\ (exists t, In t (doc_tokens d) /\ recent_token cutoff docs t)
    /\ forall t, In t (r_why_tokens r) ->
                 In t (doc_tokens d) /\ recent_token cutoff docs t.

(** Document [d] passes the filters that [main] applies before ranking:
    the visit threshold, the excluded hosts, the excluded pattern on the URL
    and on the title, and the [--since] date when one is given. *)
Definition passes_filters (ext : Externals) (a : args) (w : world) (d : doc)
  : Prop :=
  (min_visits a <= doc_visit_count d)%Z
  /\ ~ In (lower (doc_host d)) (exclusion_hosts a)
  /\ (exists pat,
         exclusion_patterns ext a = Go pat
         /\ re_search ext pat (doc_url d) = false
         /\ re_search ext pat (doc_title d) = false)
  /\ (forall s t,
         since a = Some s -> str_is_empty s = false ->
         strptime_ymd ext s = Some t ->
         visited_since (t - local_offset w)%Z d = true).

(** A row whose timestamp lies after the year 9999. *)
Definition sample_corrupt_row : row :=
  {| row_id := 3;
     row_url := "https://example.org/";
     row_title := None;
     row_visit_count := Some 1%Z;
     row_last_visit_time := Some 9000000000000000000%Z |}.

(** *** Comma-separated options *)

(** [s] does not begin with white space. *)
Definition starts_clean (s : string) : bool :=
  match s with
  | EmptyString => true
  | String c _ => negb (is_space c)
  end.

(** An item as [parse_csv_list] returns them: not empty, without a comma,
    and without white space at either end. *)
Definition csv_item (x : string) : Prop :=
  x <> EmptyString
  /\ strip x = x
  /\ str_forall (fun c => negb (Ascii.eqb c ",")) x = true.

(** *** Totals *)

Definition Zsum (xs : list Z) : Z := fold_right Z.add 0%Z xs.

(** Two rows of one cluster and one of another. *)
Definition sample_clustered_rows : list out_row :=
  map (fun hw : string * list string =>
         {| r_score := "0.500"; r_last_visit := "2025-08-17";
            r_visits := "1"; r_title := ""; r_url := "";
            r_host := fst hw; r_why := join ", " (snd hw);
            r_why_tokens := snd hw;
            r_cluster := Some (label_rule true (snd hw) (fst hw)) |})
      [ ("blog.example.org", ["rust"; "ownership"]);
        ("doc.rust-lang.org", ["rust"]);
        ("example.com", []) ].

(** The pattern that [main] compiles from the default pattern and the
    user's. *)
Definition merged_pattern (p : string) : string :=
  String.append "(?:"
    (String.append (pattern DEFAULT_EXCLUDE_PATTERNS)
       (String.append ")|(?:" (String.append p ")"))).

(** An engine that accepts a global flag only at the start of a pattern,
    and a calendar that reads no date. *)
Definition strict_ext : Externals :=
  {| urlparse := urlparse sample_ext;
     re_valid := fun p => String.eqb p "(?i)wiki";
     re_search := fun _ _ => false;
     strptime_ymd := fun _ => None;
     strftime_local_ymd := fun _ => "2025-08-17" |}.

Definition with_since (s : string) (a : args) : args :=
  {| limit := limit a; recent_days := recent_days a;
     min_visits := min_visits a; dedupe_host := dedupe_host a;
     since := Some s; no_reading_filter := no_reading_filter a;
     exclude_hosts := exclude_hosts a;
     exclude_url_pattern := exclude_url_pattern a;
     format := format a; explain_top := explain_top a;
     no_cluster := no_cluster a |}.

Definition with_pattern (p : string) (a : args) : args :=
  {| limit := limit a; recent_days := recent_days a;
     min_visits := min_visits a; dedupe_host := dedupe_host a;
     since := since a; no_reading_filter := no_reading_filter a;
     exclude_hosts := exclude_hosts a;
     exclude_url_pattern := Some p;
     format := format a; explain_top := explain_top a;
     no_cluster := no_cluster a |}.

(** Every weight of [v] is greater than 0. *)
Definition positive (v : vector R) : Prop :=
  Forall (fun kv => (0 < snd kv)%R) v.

(* ===================================================================== *)
(** ** Table output *)
(* ===================================================================== *)

(** What [print_table] writes: one string per call of [print]. *)

Definition headers : list string :=
  ["score"; "last_visit"; "visits"; "title"; "url"; "why"].

(** [r[h]] for a column [h] of the table; every row that [format_row]
    builds has these six keys. *)
Definition cell (r : out_row) (h : string) : string :=
  if String.eqb h "score" then r_score r
  else if String.eqb h "last_visit" then r_last_visit r
  else if String.eqb h "visits" then r_visits r
  else if String.eqb h "title" then r_title r
  else if String.eqb h "url" then r_url r
  else if String.eqb h "why" then r_why r
  else "".

(** [c * n] *)
Fixpoint str_repeat (c : ascii) (n : nat) : string :=
  match n with
  | O => EmptyString
  | S n' => String c (str_repeat c n')
  end.

(** [s.ljust(width)] *)
Definition ljust (s : string) (width : nat) : string :=
  String.append s (str_repeat " " (width - String.length s)).

(** [[
    for h in headers:
        col_widths[h] = max(col_widths[h], len(r[h]))
    ]] *)
Definition widen (col_widths : dict string nat) (r : out_row)
  : result (dict string nat) :=
  foldM (fun cw h =>
           w <- dict_lookup cw h ;;
           Ok (dict_set cw h (Nat.max w (String.length (cell r h)))))
        headers col_widths.

(** [[
    col_widths = {h: len(h) for h in headers}
    for r in rows:
        ...
    ]] *)
Definition col_widths (rows : list out_row) : result (dict string nat) :=
  foldM widen rows (map (fun h => (h, String.length h)) headers).

(** [fmt_row(r)], for a row given by its cells:
    [["  ".join(r[h].ljust(col_widths[h]) for h in headers)]] *)
Definition fmt_row (cw : dict string nat) (r : string -> string)
  : result string :=
  cells <- mapM (fun h => w <- dict_lookup cw h ;; Ok (ljust (r h) w)) headers ;;
  Ok (join "  " cells).

(** The two calls of [print] in [print_header]. *)
Definition print_header (cw : dict string nat) : result (list string) :=
  names <- fmt_row cw (fun h => h) ;;
  rules <- mapM (fun h => w <- dict_lookup cw h ;; Ok (str_repeat "-" w))
                headers ;;
  Ok [names; join "  " rules].

(** The text of a cluster heading:
    [[
    summary = cluster_summaries.get(r["cluster"], {})
    top = ", ".join(summary.get("top_tokens", []))
    count = summary.get("count", 0)
    suffix = f" (top: {top}, items: {count})" if top else f" (items: {count})"
    print(f"\n# {r['cluster']}{suffix}")
    ]] *)
Definition heading (cluster_summaries : dict string summary) (name : string)
  : string :=
  let summary := dict_get cluster_summaries name in
  let top :=
    join ", " (match summary with Some s => top_tokens s | None => [] end) in
  let count := match summary with Some s => count s | None => 0%Z end in
  let suffix :=
    if str_is_empty top
    then String.append " (items: " (String.append (str_of_int count) ")")
    else String.append " (top: "
           (String.append top
              (String.append ", items: "
                 (String.append (str_of_int count) ")"))) in
  String "010" (String.append "# " (String.append name suffix)).

(** The body of the loop over the rows when clusters are shown; the state
    is [last_cluster] and what was printed so far. *)
Definition print_clustered_row (cw : dict string nat)
           (cluster_summaries : dict string summary)
           (st : option string * list string) (r : out_row)
  : result (option string * list string) :=
  match r_cluster r with
  | None => Raise KeyError
  | Some name =>
      let changed :=
        match fst st with
        | Some l => negb (String.eqb name l)
        | None => true
        end in
      let out :=
        if changed then snd st ++ [heading cluster_summaries name]
        else snd st in
      let last := if changed then Some name else fst st in
      line <- fmt_row cw (cell r) ;;
      Ok (last, out ++ [line])
  end.

(** [[
    def print_table(rows, cluster_enabled, cluster_summaries):
        headers = ["score", "last_visit", "visits", "title", "url", "why"]
        col_widths = {h: len(h) for h in headers}
        ...
        if not cluster_enabled:
            print_header()
            for r in rows:
                print(fmt_row(r))
            return
        print_header()
        last_cluster = None
        for r in rows:
            ...
    ]] *)
Definition print_table (rows : list out_row) (cluster_enabled : bool)
           (cluster_summaries : dict string summary) : result (list string) :=
  cw <- col_widths rows ;;
  if negb cluster_enabled then
    head <- print_header cw ;;
    body <- mapM (fun r => fmt_row cw (cell r)) rows ;;
    Ok (head ++ body)
  else
    head <- print_header cw ;;
    st <- foldM (print_clustered_row cw cluster_summaries) rows (None, []) ;;
    Ok (head ++ snd st).

(** *** The shape of the table *)

(** The width of column [h]: the longest of its name and its cells. *)
Definition column_width (rows : list out_row) (h : string) : nat :=
  fold_left (fun w r => Nat.max w (String.length (cell r h))) rows
            (String.length h).

(** The length of a line of the table: the six columns and the five
    separators of two spaces. *)
Definition table_width (rows : list out_row) : nat :=
  list_sum (map (column_width rows) headers) + 2 * 5.

(** How often the cluster changes along the rows, the first row counted
    as a change. *)
Fixpoint cluster_changes (last : option string) (rows : list out_row) : nat :=
  match rows with
  | [] => 0
  | r :: rows' =>
      (match last, r_cluster r with
       | Some l, Some name => if String.eqb name l then 0 else 1
       | _, _ => 1
       end) + cluster_changes (r_cluster r) rows'
  end.

(* ===================================================================== *)
(** * Properties *)
(* ===================================================================== *)

Unset Implicit Arguments.

(** ** The tokenizer *)

Lemma findall_cons (c : ascii) (s' : string) :
  findall (String c s') =
  match TOKEN_RE (String c s') with
  | Some (m, r) => m :: findall r
  | None => findall s'
  end.
Proof.
  funelim (findall (String c s')).
  - discriminate.
  - injection eqargs as -> ->. rewrite e. reflexivity.
  - injection eqargs as -> ->. rewrite e. reflexivity.
Qed.

(** [pieces] in terms of [span]: the first piece is the longest prefix in
    the class; the others are the pieces behind the character that stopped
    it. *)
Lemma pieces_span (p : ascii -> bool) (s : string) :
  pieces p s =
  match snd (span p s) with
  | EmptyString => [fst (span p s)]
  | String _ r' => fst (span p s) :: pieces p r'
  end.
Proof.
  induction s as [|c s IH]; simpl; [reflexivity|].
  destruct (p c) eqn:Hc; simpl; [|reflexivity].
  rewrite IH. destruct (span p s) as [m r]; simpl.
  destruct r; reflexivity.
Qed.

Lemma span_stops (p : ascii -> bool) (s : string) (c : ascii) (r : string) :
  snd (span p s) = String c r -> p c = false.
Proof.
  induction s as [|c0 s IH]; simpl; [discriminate|].
  destruct (p c0) eqn:Hc.
  - destruct (span p s) as [m r0]; simpl in *. exact IH.
  - simpl. intros [= <- <-]. exact Hc.
Qed.

Lemma findall_long_runs_aux (n : nat) :
  forall s, String.length s <= n -> findall s = long_runs s.
Proof.
  induction n as [|n IH]; intros s Hn.
  - destruct s; [reflexivity | simpl in Hn; lia].
  - destruct s as [|c s']; [reflexivity|].
    simpl in Hn.
    rewrite findall_cons. unfold long_runs, TOKEN_RE.
    rewrite (pieces_span is_token_char (String c s')).
    pose proof (span_lengths is_token_char (String c s')) as Hl.
    pose proof (span_stops is_token_char (String c s')) as Hstop.
    destruct (span is_token_char (String c s')) as [m r] eqn:Hsp.
    simpl fst in *; simpl snd in *.
    assert (Hr : forall c' r', r = String c' r' ->
                 findall r = filter (fun x => (3 <=? String.length x)%nat)
                                    (pieces is_token_char r')).
    { intros c' r' ->. rewrite findall_cons. unfold TOKEN_RE.
      simpl span. rewrite (Hstop c' r' eq_refl). simpl.
      apply IH. simpl in Hl. simpl String.length in Hl. lia. }
    destruct (3 <=? String.length m)%nat eqn:Hm.
    + destruct r as [|c' r']; cbn [filter]; rewrite Hm.
      * reflexivity.
      * f_equal. apply (Hr c' r' eq_refl).
    + rewrite (IH s') by lia. unfold long_runs.
      rewrite (pieces_span is_token_char s').
      simpl in Hsp. destruct (is_token_char c) eqn:Hc.
      * destruct (span is_token_char s') as [m' r0] eqn:Hsp'.
        injection Hsp as <- <-. cbn [fst snd].
        assert (Hm' : (3 <=? String.length m')%nat = false).
        { apply Nat.leb_gt. apply Nat.leb_gt in Hm.
          simpl String.length in Hm. lia. }
        destruct r0 as [|c' r']; cbn [filter]; rewrite Hm, Hm'; reflexivity.
      * injection Hsp as <- <-. cbn [filter].
        replace (3 <=? String.length "")%nat with false by reflexivity.
        rewrite <- (pieces_span is_token_char s'). reflexivity.
Qed.

(** The scan of [re.findall] returns the maximal runs of length at least
    three. *)
Lemma findall_long_runs (s : string) : findall s = long_runs s.
Proof. apply (findall_long_runs_aux (String.length s)). lia. Qed.

(** [pieces] cuts at the characters outside the class and nowhere else:
    every piece lies in the class, there is one piece more than there are
    characters outside it, and the pieces together are the characters of
    the class in their order. *)
Lemma pieces_forall (p : ascii -> bool) (s : string) :
  Forall (fun r => str_forall p r = true) (pieces p s).
Proof.
  induction s as [|c s IH]; simpl.
  - constructor; [reflexivity|constructor].
  - destruct (p c) eqn:Hc.
    + destruct (pieces p s) as [|r rs]; inversion IH; subst;
        constructor; simpl; try rewrite Hc; auto.
    + constructor; [reflexivity|exact IH].
Qed.

Lemma pieces_count (p : ascii -> bool) (s : string) :
  List.length (pieces p s) = S (count_breaks p s).
Proof.
  induction s as [|c s IH]; simpl; [reflexivity|].
  destruct (p c); simpl; [|rewrite IH; reflexivity].
  destruct (pieces p s); simpl in *; [discriminate|exact IH].
Qed.

Lemma pieces_content (p : ascii -> bool) (s : string) :
  fold_right String.append EmptyString (pieces p s) = str_filter p s.
Proof.
  induction s as [|c s IH]; simpl; [reflexivity|].
  destruct (p c); simpl; [|exact IH].
  destruct (pieces p s) as [|r rs]; simpl in *; rewrite <- IH; reflexivity.
Qed.

(** C7.  For every input string, [tokenize] returns the maximal runs of
    [[a-z0-9]] of length at least 3 of the lower-cased input, in order,
    without the stop words; a null or empty input gives the empty sequence;
    and [tokenize("The Quick Fox runs!")] is [["quick", "fox", "runs"]]. *)
Theorem tokenize_correct :
  (forall text, tokenize text = tokenize_spec text)
  /\ (forall text t,
         In t (tokenize text) ->
         (3 <= String.length t)%nat
         /\ str_forall is_token_char t = true
         /\ mem t STOPWORDS = false)
  /\ tokenize None = []
  /\ tokenize (Some "") = []
  /\ tokenize (Some "The Quick Fox runs!") = ["quick"; "fox"; "runs"].
Proof.
  assert (Hspec : forall text, tokenize text = tokenize_spec text).
  { intros [s|]; [|reflexivity].
    unfold tokenize, tokenize_spec.
    destruct s as [|c s]; [reflexivity|].
    simpl str_is_empty. cbv iota.
    rewrite findall_long_runs. reflexivity. }
  split; [exact Hspec|]. split; [|split; [|split]]; try reflexivity.
  intros text t Hin. rewrite Hspec in Hin. unfold tokenize_spec in Hin.
  destruct text as [s|]; [|contradiction].
  apply filter_In in Hin as [Hin Hstop]. unfold long_runs in Hin.
  apply filter_In in Hin as [Hin Hlen].
  split; [apply Nat.leb_le; exact Hlen|]. split.
  - pose proof (pieces_forall is_token_char (lower s)) as Hall.
    rewrite Forall_forall in Hall. apply Hall. exact Hin.
  - apply negb_true_iff. exact Hstop.
Qed.

(** ** Exact arithmetic *)

Local Open Scope R_scope.

Lemma Reqb_true (x y : R) : Reqb x y = true <-> x = y.
Proof. unfold Reqb. destruct (Req_dec_T x y); split; congruence. Qed.

Lemma Reqb_false (x y : R) : Reqb x y = false <-> x <> y.
Proof. unfold Reqb. destruct (Req_dec_T x y); split; congruence. Qed.

Lemma Rltb_true (x y : R) : Rltb x y = true <-> x < y.
Proof. unfold Rltb. destruct (Rlt_dec x y); split; congruence. Qed.

Lemma Rltb_false (x y : R) : Rltb x y = false <-> y <= x.
Proof.
  unfold Rltb. destruct (Rlt_dec x y); split; try congruence; lra.
Qed.

Lemma Rleb_true (x y : R) : Rleb x y = true <-> x <= y.
Proof. unfold Rleb. destruct (Rle_dec x y); split; congruence. Qed.

Lemma Rleb_false (x y : R) : Rleb x y = false <-> y < x.
Proof.
  unfold Rleb. destruct (Rle_dec x y); split; try congruence; lra.
Qed.

Lemma fold_left_Rplus (xs : list R) (acc : R) :
  fold_left Rplus xs acc = acc + Rsum xs.
Proof.
  revert acc. induction xs as [|x xs IH]; intros acc; simpl.
  - lra.
  - rewrite IH. lra.
Qed.

Lemma py_sum_exact (xs : list R) : py_sum xs = Rsum xs.
Proof. unfold py_sum. simpl. rewrite fold_left_Rplus. lra. Qed.

Lemma Rsum_app (xs ys : list R) : Rsum (xs ++ ys) = Rsum xs + Rsum ys.
Proof. induction xs as [|x xs IH]; simpl; lra. Qed.

Lemma Rsum_nonneg (xs : list R) :
  Forall (fun x => 0 <= x) xs -> 0 <= Rsum xs.
Proof. induction 1; simpl; lra. Qed.

Lemma Rsum_le (A : Type) (f g : A -> R) (xs : list A) :
  (forall x, In x xs -> f x <= g x) ->
  Rsum (map f xs) <= Rsum (map g xs).
Proof.
  induction xs as [|x xs IH]; intros Hle; simpl; [lra|].
  pose proof (Hle x (or_introl eq_refl)).
  assert (Rsum (map f xs) <= Rsum (map g xs)) by (apply IH; intros; apply Hle; now right).
  lra.
Qed.

Lemma Rsum_ext (A : Type) (f g : A -> R) (xs : list A) :
  (forall x, In x xs -> f x = g x) ->
  Rsum (map f xs) = Rsum (map g xs).
Proof.
  intros Heq. f_equal. apply map_ext_in. exact Heq.
Qed.

Lemma sumsq_nonneg (v : vector R) : 0 <= sumsq v.
Proof.
  unfold sumsq. apply Rsum_nonneg. apply Forall_forall.
  intros x Hx. apply in_map_iff in Hx as [kv [<- _]]. nra.
Qed.

(** A sum of squares is 0 only when every term is. *)
Lemma sumsq_zero (v : vector R) :
  sumsq v = 0 -> forall kv, In kv v -> snd kv = 0.
Proof.
  induction v as [|[k w] v IH]; intros Hs kv Hin; [contradiction|].
  unfold sumsq in Hs. simpl in Hs. fold (sumsq v) in Hs.
  pose proof (sumsq_nonneg v) as Hv.
  assert (Hw : w * w = 0) by nra.
  destruct Hin as [<-|Hin].
  - simpl. nra.
  - apply IH; [nra | exact Hin].
Qed.

(** The polynomial behind the Cauchy-Schwarz inequality: the sum of the
    squares [(x t - y)^2] is not negative. *)
Lemma quadratic_nonneg (xys : list (R * R)) (t : R) :
  0 <= t * t * Rsum (map (fun p => fst p * fst p) xys)
       - 2 * t * Rsum (map (fun p => fst p * snd p) xys)
       + Rsum (map (fun p => snd p * snd p) xys).
Proof.
  induction xys as [|[x y] xys IH]; simpl.
  - lra.
  - pose proof (Rle_0_sqr (x * t - y)) as Hsq. unfold Rsqr in Hsq. nra.
Qed.

Lemma cauchy_schwarz (xys : list (R * R)) :
  Rsum (map (fun p => fst p * snd p) xys)
  * Rsum (map (fun p => fst p * snd p) xys)
  <= Rsum (map (fun p => fst p * fst p) xys)
     * Rsum (map (fun p => snd p * snd p) xys).
Proof.
  set (A := Rsum (map (fun p => fst p * fst p) xys)).
  set (S := Rsum (map (fun p => fst p * snd p) xys)).
  set (B := Rsum (map (fun p => snd p * snd p) xys)).
  assert (HA : 0 <= A).
  { apply Rsum_nonneg, Forall_forall. intros x Hx.
    apply in_map_iff in Hx as [p [<- _]]. nra. }
  assert (HB : 0 <= B).
  { apply Rsum_nonneg, Forall_forall. intros x Hx.
    apply in_map_iff in Hx as [p [<- _]]. nra. }
  assert (Hq : forall t, 0 <= t * t * A - 2 * t * S + B).
  { intros t. apply quadratic_nonneg. }
  destruct (Req_dec A 0) as [HA0|HA0].
  - (* the polynomial is linear: its slope must vanish *)
    destruct (Req_dec S 0) as [HS0|HS0]; [rewrite HS0, HA0; lra|].
    exfalso. specialize (Hq ((B + 1) / (2 * S))).
    rewrite HA0 in Hq.
    replace (2 * ((B + 1) / (2 * S)) * S) with (B + 1) in Hq by (field; exact HS0).
    lra.
  - specialize (Hq (S / A)).
    replace (S / A * (S / A) * A - 2 * (S / A) * S + B)
      with ((A * B - S * S) / A) in Hq by (field; exact HA0).
    assert (HApos : 0 < A) by lra.
    assert (0 <= A * B - S * S).
    { apply Rmult_le_reg_r with (r := / A).
      - apply Rinv_0_lt_compat. exact HApos.
      - rewrite Rmult_0_l. exact Hq. }
    lra.
Qed.

(** ** Dictionaries *)

Section DictFacts.
Context {K V : Type} `{Key K}.

Lemma key_eqb_refl (k : K) : key_eqb k k = true.
Proof. apply key_eqb_eq. reflexivity. Qed.

Lemma key_eqb_neq (a b : K) : a <> b -> key_eqb a b = false.
Proof.
  intros Hne. destruct (key_eqb a b) eqn:E; [|reflexivity].
  apply key_eqb_eq in E. contradiction.
Qed.

Lemma key_eq_dec (a b : K) : {a = b} + {a <> b}.
Proof.
  destruct (key_eqb a b) eqn:E.
  - left. apply key_eqb_eq. exact E.
  - right. intros Heq. apply key_eqb_eq in Heq. congruence.
Qed.

Lemma dict_get_absent (d : dict K V) (k : K) :
  ~ In k (dict_keys d) -> dict_get d k = None.
Proof.
  induction d as [|[k' v] d IH]; intros Hnin; simpl; [reflexivity|].
  rewrite key_eqb_neq.
  - apply IH. intros Hin. apply Hnin. right. exact Hin.
  - intros ->. apply Hnin. left. reflexivity.
Qed.

Lemma dict_get_some_in (d : dict K V) (k : K) (v : V) :
  dict_get d k = Some v -> In (k, v) d.
Proof.
  induction d as [|[k' v'] d IH]; simpl; [discriminate|].
  destruct (key_eqb k' k) eqn:E.
  - apply key_eqb_eq in E. intros [= ->]. left. congruence.
  - intros Hg. right. apply IH. exact Hg.
Qed.

Lemma dict_get_in (d : dict K V) (k : K) (v : V) :
  dict_wf d -> In (k, v) d -> dict_get d k = Some v.
Proof.
  unfold dict_wf. induction d as [|[k' v'] d IH]; intros Hwf Hin;
    [contradiction|].
  simpl in Hwf. inversion Hwf as [|? ? Hnin Hwf']; subst.
  simpl. destruct Hin as [[= -> ->]|Hin].
  - rewrite key_eqb_refl. reflexivity.
  - rewrite key_eqb_neq; [apply IH; assumption|].
    intros ->. apply Hnin. apply (in_map fst) in Hin. exact Hin.
Qed.

Lemma dict_get_present (d : dict K V) (k : K) :
  In k (dict_keys d) -> exists v, dict_get d k = Some v.
Proof.
  induction d as [|[k' v'] d IH]; simpl; [contradiction|].
  intros Hin. destruct (key_eqb k' k) eqn:E; [eauto|].
  apply IH. destruct Hin as [->|Hin]; [|exact Hin].
  rewrite key_eqb_refl in E. discriminate.
Qed.
End DictFacts.

(** ** Cosine similarity in exact arithmetic *)

Lemma fold_left_Rplus_map (A : Type) (f : A -> R) (xs : list A) (acc : R) :
  fold_left (fun acc x => acc + f x) xs acc = acc + Rsum (map f xs).
Proof.
  revert acc. induction xs as [|x xs IH]; intros acc; simpl.
  - lra.
  - rewrite IH. lra.
Qed.

Lemma norm_nonneg (v : vector R) : 0 <= norm v.
Proof. apply sqrt_pos. Qed.

Lemma norm_zero (v : vector R) : norm v = 0 <-> sumsq v = 0.
Proof.
  unfold norm. pose proof (sumsq_nonneg v). split.
  - intros Hs. apply sqrt_eq_0; assumption.
  - intros ->. apply sqrt_0.
Qed.

(** What [cosine] computes over the reals. *)
Lemma cosine_exact (a b : vector R) : cosine a b = Ok (similarity a b).
Proof.
  unfold cosine, similarity.
  destruct (dict_is_empty a || dict_is_empty b); [reflexivity|].
  unfold math_sqrt. rewrite !py_sum_exact.
  unfold dict_values. rewrite !map_map.
  cbn [fltb fzero fsqrt fmul fadd feqb Exact].
  fold (sumsq a). fold (sumsq b).
  assert (Ha : Rltb (sumsq a) 0 = false)
    by (apply Rltb_false, sumsq_nonneg).
  assert (Hb : Rltb (sumsq b) 0 = false)
    by (apply Rltb_false, sumsq_nonneg).
  rewrite Ha, Hb. cbn [bind]. fold (norm a). fold (norm b).
  destruct (Reqb (norm a) 0 || Reqb (norm b) 0) eqn:Hz; [reflexivity|].
  apply orb_false_iff in Hz as [Hna Hnb].
  apply Reqb_false in Hna. apply Reqb_false in Hnb.
  unfold truediv. cbn [feqb fzero fdiv Exact].
  assert (Hp : Reqb (norm a * norm b) 0 = false).
  { apply Reqb_false. apply Rmult_integral_contrapositive. split; assumption. }
  rewrite Hp. f_equal. f_equal.
  rewrite (fold_left_Rplus_map _ (fun kv => snd kv * dict_get_default b (fst kv) 0)).
  unfold dot, weight. lra.
Qed.

Lemma weight_present (v : vector R) (k : string) (w : R) :
  dict_wf v -> In (k, w) v -> weight v k = w.
Proof.
  intros Hwf Hin. unfold weight, dict_get_default.
  rewrite (dict_get_in v k w Hwf Hin). reflexivity.
Qed.

Lemma weight_absent (v : vector R) (k : string) :
  ~ In k (dict_keys v) -> weight v k = 0.
Proof.
  intros Hnin. unfold weight, dict_get_default.
  rewrite (dict_get_absent v k Hnin). reflexivity.
Qed.

Lemma dot_self (v : vector R) : dict_wf v -> dot v v = sumsq v.
Proof.
  intros Hwf. unfold dot, sumsq. apply Rsum_ext.
  intros [k w] Hin. simpl. rewrite (weight_present v k w Hwf Hin).
  reflexivity.
Qed.

Lemma dot_disjoint (a b : vector R) : disjoint a b -> dot a b = 0.
Proof.
  intros Hd. unfold dot.
  assert (Hz : forall kv, In kv a -> snd kv * weight b (fst kv) = 0).
  { intros [k w] Hin. simpl. rewrite weight_absent; [lra|].
    apply Hd. apply (in_map fst) in Hin. exact Hin. }
  clear Hd. induction a as [|kv a IH]; simpl; [reflexivity|].
  rewrite (Hz kv (or_introl eq_refl)), IH; [lra|].
  intros kv' Hin. apply Hz. right. exact Hin.
Qed.

Lemma weight_cons (k0 : string) (w0 : R) (b : vector R) (k : string) :
  weight ((k0, w0) :: b) k = if String.eqb k0 k then w0 else weight b k.
Proof.
  unfold weight, dict_get_default. simpl.
  destruct (String.eqb k0 k); reflexivity.
Qed.

(** Distinct tokens select distinct entries of [b]: their squared weights
    sum to at most the squared norm of [b]. *)
Lemma selected_weights_le (b : vector R) :
  forall ks : list string,
    NoDup ks ->
    Rsum (map (fun k => weight b k * weight b k) ks) <= sumsq b.
Proof.
  induction b as [|[k0 w0] b IH]; intros ks Hnd.
  - unfold sumsq. simpl.
    assert (Hz : Rsum (map (fun k => weight [] k * weight [] k) ks) = 0).
    { induction ks as [|k ks IHks]; simpl; [reflexivity|].
      rewrite IHks; [|inversion Hnd; assumption].
      unfold weight, dict_get_default. simpl. lra. }
    rewrite Hz. lra.
  - unfold sumsq. simpl. fold (sumsq b).
    assert (Hrest : forall l, ~ In k0 l ->
              Rsum (map (fun k => weight ((k0, w0) :: b) k
                                  * weight ((k0, w0) :: b) k) l)
              = Rsum (map (fun k => weight b k * weight b k) l)).
    { intros l Hnin. apply Rsum_ext. intros k Hk. rewrite weight_cons.
      destruct (String.eqb_spec k0 k) as [->|_]; [contradiction|reflexivity]. }
    destruct (in_dec string_dec k0 ks) as [Hin|Hnin].
    + apply in_split in Hin as [l1 [l2 ->]].
      pose proof (NoDup_remove_1 _ _ _ Hnd) as Hnd'.
      pose proof (NoDup_remove_2 _ _ _ Hnd) as Hnin.
      rewrite map_app, Rsum_app. simpl.
      rewrite weight_cons, String.eqb_refl.
      rewrite !Hrest
        by (intros Hin; apply Hnin; apply in_or_app; auto).
      specialize (IH (l1 ++ l2) Hnd').
      rewrite map_app, Rsum_app in IH. lra.
    + rewrite (Hrest ks Hnin). specialize (IH ks Hnd). nra.
Qed.

(** The Cauchy-Schwarz inequality for term vectors. *)
Lemma dot_sq_le (a b : vector R) :
  dict_wf a -> dot a b * dot a b <= sumsq a * sumsq b.
Proof.
  intros Hwf.
  pose proof (cauchy_schwarz (map (fun kv => (snd kv, weight b (fst kv))) a))
    as Hcs.
  rewrite !map_map in Hcs. cbn [fst snd] in Hcs.
  fold (dot a b) in Hcs. fold (sumsq a) in Hcs.
  pose proof (selected_weights_le b (dict_keys a) Hwf) as Hsel.
  unfold dict_keys in Hsel. rewrite map_map in Hsel.
  pose proof (sumsq_nonneg a).
  eapply Rle_trans; [exact Hcs|].
  apply Rmult_le_compat_l; assumption.
Qed.

Lemma dot_le_norms (a b : vector R) :
  dict_wf a -> dot a b <= norm a * norm b.
Proof.
  intros Hwf. unfold norm.
  pose proof (sumsq_nonneg a) as Ha. pose proof (sumsq_nonneg b) as Hb.
  rewrite <- sqrt_mult by assumption.
  destruct (Rle_dec 0 (dot a b)) as [Hd|Hd].
  - rewrite <- (sqrt_square (dot a b)) by exact Hd.
    apply sqrt_le_1_alt. apply dot_sq_le. exact Hwf.
  - pose proof (sqrt_pos (sumsq a * sumsq b)). lra.
Qed.

Lemma dot_nonneg (a b : vector R) :
  nonneg a -> nonneg b -> 0 <= dot a b.
Proof.
  intros Ha Hb. unfold dot. apply Rsum_nonneg. apply Forall_forall.
  intros x Hx. apply in_map_iff in Hx as [[k w] [<- Hin]]. simpl.
  assert (Hw : 0 <= w).
  { unfold nonneg in Ha. rewrite Forall_forall in Ha.
    apply Rleb_true. apply (Ha (k, w) Hin). }
  assert (Hk : 0 <= weight b k).
  { unfold weight, dict_get_default.
    destruct (dict_get b k) as [w'|] eqn:Hg; [|lra].
    apply dict_get_some_in in Hg.
    unfold nonneg in Hb. rewrite Forall_forall in Hb.
    apply Rleb_true. apply (Hb (k, w') Hg). }
  nra.
Qed.







(** ** Sorting *)

Section SortFacts.
Variable A : Type.
Variable ltb : A -> A -> bool.

Lemma insert_perm (x : A) (l : list A) : Permutation (insert ltb x l) (x :: l).
Proof.
  induction l as [|y l IH]; simpl; [apply Permutation_refl|].
  destruct (ltb y x); [|apply Permutation_refl].
  eapply Permutation_trans; [apply perm_skip, IH|]. apply perm_swap.
Qed.

Lemma py_sort_perm (l : list A) : Permutation (py_sort ltb l) l.
Proof.
  induction l as [|x l IH]; simpl; [constructor|].
  eapply Permutation_trans; [apply insert_perm|]. apply perm_skip, IH.
Qed.

Lemma py_sort_reverse_perm (l : list A) : Permutation (py_sort_reverse ltb l) l.
Proof.
  unfold py_sort_reverse.
  eapply Permutation_trans; [apply Permutation_sym, Permutation_rev|].
  eapply Permutation_trans; [apply py_sort_perm|].
  apply Permutation_sym, Permutation_rev.
Qed.

(** [<] is a strict weak order. *)
Hypothesis ltb_irrefl : forall x, ltb x x = false.
Hypothesis ltb_trans :
  forall x y z, ltb x y = true -> ltb y z = true -> ltb x z = true.
Hypothesis ltb_negtrans :
  forall x y z, ltb x y = false -> ltb y z = false -> ltb x z = false.

Lemma ltb_asym (x y : A) : ltb x y = true -> ltb y x = false.
Proof.
  intros Hxy. destruct (ltb y x) eqn:Hyx; [|reflexivity].
  rewrite <- (ltb_irrefl x). symmetry. apply (ltb_trans x y x); assumption.
Qed.

Lemma insert_sorted (x : A) (l : list A) :
  StronglySorted (fun a b => ltb b a = false) l ->
  StronglySorted (fun a b => ltb b a = false) (insert ltb x l).
Proof.
  induction 1 as [|y l Hs IH Hall]; simpl.
  - constructor; constructor.
  - destruct (ltb y x) eqn:Hyx.
    + constructor; [exact IH|].
      apply Forall_forall. intros z Hz.
      apply (Permutation_in _ (insert_perm x l)) in Hz.
      destruct Hz as [<-|Hz].
      * apply ltb_asym. exact Hyx.
      * rewrite Forall_forall in Hall. apply Hall. exact Hz.
    + constructor; [constructor; assumption|].
      constructor; [exact Hyx|].
      apply Forall_forall. intros z Hz.
      rewrite Forall_forall in Hall.
      apply (ltb_negtrans z y x); [apply Hall; exact Hz | exact Hyx].
Qed.

Lemma py_sort_sorted (l : list A) :
  StronglySorted (fun a b => ltb b a = false) (py_sort ltb l).
Proof.
  induction l as [|x l IH]; simpl; [constructor|].
  apply insert_sorted. exact IH.
Qed.

Lemma StronglySorted_snoc (R : A -> A -> Prop) (l : list A) (x : A) :
  StronglySorted R l -> Forall (fun y => R y x) l ->
  StronglySorted R (l ++ [x]).
Proof.
  induction 1 as [|y l Hs IH Hall]; intros Hx; simpl.
  - constructor; constructor.
  - inversion Hx; subst. constructor; [apply IH; assumption|].
    apply Forall_app. split; [exact Hall|]. constructor; [assumption|constructor].
Qed.

Lemma StronglySorted_rev (R : A -> A -> Prop) (l : list A) :
  StronglySorted R l -> StronglySorted (fun a b => R b a) (rev l).
Proof.
  induction 1 as [|y l Hs IH Hall]; simpl; [constructor|].
  apply StronglySorted_snoc; [exact IH|].
  apply Forall_forall. intros z Hz. apply in_rev in Hz.
  rewrite Forall_forall in Hall. apply Hall. exact Hz.
Qed.

(** After [l.sort(reverse=True)] no element is followed by a greater one. *)
Lemma py_sort_reverse_sorted (l : list A) :
  StronglySorted (fun a b => ltb a b = false) (py_sort_reverse ltb l).
Proof.
  unfold py_sort_reverse.
  apply (StronglySorted_rev (fun a b => ltb b a = false)).
  apply py_sort_sorted.
Qed.

Lemma insert_stable (z x : A) (l : list A) :
  filter (tied ltb z) (insert ltb x l) = filter (tied ltb z) (x :: l).
Proof.
  induction l as [|y l IH]; [reflexivity|].
  cbn [insert]. destruct (ltb y x) eqn:Hyx; [|reflexivity].
  cbn [filter] in *. rewrite IH.
  destruct (tied ltb z y) eqn:Hzy; [|reflexivity].
  destruct (tied ltb z x) eqn:Hzx; [|reflexivity].
  exfalso. unfold tied in Hzy, Hzx.
  apply andb_true_iff in Hzy as [_ Hyz]. apply andb_true_iff in Hzx as [Hzx _].
  apply negb_true_iff in Hyz. apply negb_true_iff in Hzx.
  rewrite (ltb_negtrans y z x Hyz Hzx) in Hyx. discriminate.
Qed.

(** The sort is stable: elements that [<] does not order keep their
    original order. *)
Lemma py_sort_stable (z : A) (l : list A) :
  filter (tied ltb z) (py_sort ltb l) = filter (tied ltb z) l.
Proof.
  induction l as [|x l IH]; [reflexivity|].
  cbn [py_sort fold_right]. fold (py_sort ltb l).
  rewrite insert_stable. cbn [filter]. rewrite IH. reflexivity.
Qed.

Lemma py_sort_reverse_stable (z : A) (l : list A) :
  filter (tied ltb z) (py_sort_reverse ltb l) = filter (tied ltb z) l.
Proof.
  unfold py_sort_reverse.
  rewrite filter_rev, py_sort_stable, <- filter_rev, rev_involutive.
  reflexivity.
Qed.
End SortFacts.

(** ** The order on strings and on tuples *)

Lemma ascii_compare_refl (c : ascii) : Ascii.compare c c = Eq.
Proof. unfold Ascii.compare. apply N.compare_refl. Qed.

Lemma ascii_compare_lt_trans (a b c : ascii) :
  Ascii.compare a b = Lt -> Ascii.compare b c = Lt -> Ascii.compare a c = Lt.
Proof.
  unfold Ascii.compare. rewrite !N.compare_lt_iff. apply N.lt_trans.
Qed.

Lemma string_compare_refl (s : string) : String.compare s s = Eq.
Proof.
  induction s as [|c s IH]; simpl; [reflexivity|].
  rewrite ascii_compare_refl. exact IH.
Qed.

Lemma string_compare_lt_trans (a b c : string) :
  String.compare a b = Lt -> String.compare b c = Lt -> String.compare a c = Lt.
Proof.
  revert b c. induction a as [|x a IH]; intros [|y b] [|z c]; simpl;
    try discriminate; try reflexivity.
  destruct (Ascii.compare x y) eqn:Hxy; try discriminate;
    destruct (Ascii.compare y z) eqn:Hyz; try discriminate; intros Hab Hbc.
  - apply Ascii.compare_eq_iff in Hxy, Hyz. subst.
    rewrite ascii_compare_refl. apply (IH b c); assumption.
  - apply Ascii.compare_eq_iff in Hxy. subst. rewrite Hyz. reflexivity.
  - apply Ascii.compare_eq_iff in Hyz. subst. rewrite Hxy. reflexivity.
  - rewrite (ascii_compare_lt_trans x y z Hxy Hyz). reflexivity.
Qed.

Lemma string_ltb_irrefl (s : string) : String.ltb s s = false.
Proof. unfold String.ltb. rewrite string_compare_refl. reflexivity. Qed.

Lemma string_ltb_trans (a b c : string) :
  String.ltb a b = true -> String.ltb b c = true -> String.ltb a c = true.
Proof.
  unfold String.ltb. intros Hab Hbc.
  destruct (String.compare a b) eqn:Eab; try discriminate.
  destruct (String.compare b c) eqn:Ebc; try discriminate.
  rewrite (string_compare_lt_trans a b c Eab Ebc). reflexivity.
Qed.

Lemma string_ltb_total (a b : string) :
  a <> b -> String.ltb a b = true \/ String.ltb b a = true.
Proof.
  intros Hne. unfold String.ltb. rewrite (String.compare_antisym b a).
  destruct (String.compare a b) eqn:E; simpl; auto.
  apply String.compare_eq_iff in E. contradiction.
Qed.

Lemma strict_total_string : strict_total String.eqb String.ltb.
Proof.
  constructor.
  - apply String.eqb_eq.
  - apply string_ltb_irrefl.
  - apply string_ltb_trans.
  - apply string_ltb_total.
Qed.

Lemma strict_total_Z : strict_total Z.eqb Z.ltb.
Proof.
  constructor.
  - apply Z.eqb_eq.
  - apply Z.ltb_irrefl.
  - intros x y z. rewrite !Z.ltb_lt. apply Z.lt_trans.
  - intros x y Hne. rewrite !Z.ltb_lt. lia.
Qed.

Lemma strict_total_R : strict_total Reqb Rltb.
Proof.
  constructor.
  - apply Reqb_true.
  - intros x. apply Rltb_false. lra.
  - intros x y z. rewrite !Rltb_true. lra.
  - intros x y Hne. rewrite !Rltb_true. lra.
Qed.

Section StrictTotal.
Context {A : Type} (eqb ltb : A -> A -> bool).
Hypothesis ord : strict_total eqb ltb.

Lemma st_eqb_refl (x : A) : eqb x x = true.
Proof. apply (st_eqb ord). reflexivity. Qed.

Lemma st_asym (x y : A) : ltb x y = true -> ltb y x = false.
Proof.
  intros Hxy. destruct (ltb y x) eqn:Hyx; [|reflexivity].
  rewrite <- (st_irrefl ord x). symmetry. apply (st_trans ord x y x); assumption.
Qed.

Lemma st_eq_dec (x y : A) : {x = y} + {x <> y}.
Proof.
  destruct (eqb x y) eqn:E.
  - left. apply (st_eqb ord). exact E.
  - right. intros Heq. apply (st_eqb ord) in Heq. congruence.
Qed.

(** [not (x < y)] means [y < x] or [y = x]. *)
Lemma st_not_lt (x y : A) : ltb x y = false <-> (ltb y x = true \/ x = y).
Proof.
  split.
  - intros Hxy. destruct (st_eq_dec x y) as [->|Hne]; [now right|].
    destruct (st_total ord x y Hne) as [H|H]; [congruence|now left].
  - intros [Hyx| ->]; [apply st_asym; exact Hyx | apply (st_irrefl ord)].
Qed.

Lemma st_negtrans (x y z : A) :
  ltb x y = false -> ltb y z = false -> ltb x z = false.
Proof.
  rewrite !st_not_lt. intros [Hyx| ->] [Hzy| ->]; auto.
  left. apply (st_trans ord z y x); assumption.
Qed.

(** [<] on tuples: the first components decide, then the strings. *)
Lemma tuple_ltb_true (x y : A * string) :
  tuple_ltb eqb ltb x y = true <->
  (ltb (fst x) (fst y) = true
   \/ (fst x = fst y /\ String.ltb (snd x) (snd y) = true)).
Proof.
  unfold tuple_ltb. destruct (eqb (fst x) (fst y)) eqn:E.
  - apply (st_eqb ord) in E. rewrite E.
    destruct (String.eqb_spec (snd x) (snd y)) as [Hs|Hs].
    + rewrite Hs, string_ltb_irrefl, (st_irrefl ord). split; [discriminate|].
      intros [H|[_ H]]; discriminate.
    + split; [intros H; right; split; [reflexivity|exact H]|].
      intros [H|[_ H]]; [|exact H].
      rewrite (st_irrefl ord) in H. discriminate.
  - split; [intros H; left; exact H|].
    intros [H|[H _]]; [exact H|].
    apply (st_eqb ord) in H. congruence.
Qed.

Lemma strict_total_tuple :
  strict_total
    (fun x y : A * string => eqb (fst x) (fst y) && String.eqb (snd x) (snd y))
    (tuple_ltb eqb ltb).
Proof.
  constructor.
  - intros [a s] [b t]; simpl. rewrite andb_true_iff, (st_eqb ord), String.eqb_eq.
    split; [intros [-> ->]; reflexivity | intros [= -> ->]; auto].
  - intros x. destruct (tuple_ltb eqb ltb x x) eqn:E; [|reflexivity].
    apply tuple_ltb_true in E as [E|[_ E]].
    + rewrite (st_irrefl ord) in E. discriminate.
    + rewrite string_ltb_irrefl in E. discriminate.
  - intros x y z. rewrite !tuple_ltb_true.
    intros [Hxy|[Hxy Sxy]] [Hyz|[Hyz Syz]].
    + left. apply (st_trans ord _ (fst y)); assumption.
    + left. rewrite <- Hyz. exact Hxy.
    + left. rewrite Hxy. exact Hyz.
    + right. split; [congruence|]. apply (string_ltb_trans _ (snd y)); assumption.
  - intros [a s] [b t] Hne. rewrite !tuple_ltb_true. simpl.
    destruct (st_eq_dec a b) as [->|Hab].
    + assert (Hst : s <> t) by congruence.
      destruct (string_ltb_total s t Hst); auto.
    + destruct (st_total ord a b Hab); auto.
Qed.
End StrictTotal.

(** Sorting by a key: the comparison of the keys is a strict weak order on
    the elements. *)
Section KeyOrder.
Context {A B : Type} (eqb ltb : B -> B -> bool) (key : A -> B).
Hypothesis ord : strict_total eqb ltb.

Lemma key_irrefl (x : A) : ltb (key x) (key x) = false.
Proof. apply (st_irrefl ord). Qed.

Lemma key_trans (x y z : A) :
  ltb (key x) (key y) = true -> ltb (key y) (key z) = true ->
  ltb (key x) (key z) = true.
Proof. apply (st_trans ord). Qed.

Lemma key_negtrans (x y z : A) :
  ltb (key x) (key y) = false -> ltb (key y) (key z) = false ->
  ltb (key x) (key z) = false.
Proof. apply (st_negtrans eqb ltb ord). Qed.

Lemma key_tied (x y : A) :
  tied (fun a b => ltb (key a) (key b)) x y = eqb (key x) (key y).
Proof.
  unfold tied. destruct (eqb (key x) (key y)) eqn:E.
  - apply (st_eqb ord) in E. rewrite E, (st_irrefl ord). reflexivity.
  - destruct (ltb (key x) (key y)) eqn:Hxy; [reflexivity|].
    destruct (ltb (key y) (key x)) eqn:Hyx; [reflexivity|]. exfalso.
    apply (st_not_lt eqb ltb ord) in Hxy as [Hxy|Hxy]; [congruence|].
    apply (st_eqb ord) in Hxy. congruence.
Qed.
End KeyOrder.

(** ** Explanations *)

Lemma NoDup_map_filter (X Y : Type) (keep : X -> bool) (g : X -> Y)
      (xs : list X) :
  NoDup (map g xs) -> NoDup (map g (filter keep xs)).
Proof.
  induction xs as [|x xs IH]; simpl; intros Hnd; [constructor|].
  inversion Hnd as [|? ? Hnin Hnd']; subst.
  destruct (keep x); simpl; [|apply IH; exact Hnd'].
  constructor; [|apply IH; exact Hnd'].
  intros Hin. apply Hnin. apply in_map_iff in Hin as [y [Hy Hin]].
  apply filter_In in Hin as [Hin _]. apply in_map_iff. eauto.
Qed.

Lemma StronglySorted_strict (A : Type) (R R' : A -> A -> Prop) (l : list A) :
  (forall a b, R a b -> a <> b -> R' a b) ->
  NoDup l -> StronglySorted R l -> StronglySorted R' l.
Proof.
  intros Himp Hnd Hs. induction Hs as [|a l Hs IH Hall]; [constructor|].
  inversion Hnd as [|? ? Hnin Hnd']; subst.
  constructor; [apply IH; exact Hnd'|].
  apply Forall_forall. intros b Hb. rewrite Forall_forall in Hall.
  apply Himp; [apply Hall; exact Hb|]. intros ->. contradiction.
Qed.

Lemma contributions_keys (F : Type) (N : Num F) (interest_vec doc_vec : vector F) :
  dict_wf doc_vec -> NoDup (map snd (contributions interest_vec doc_vec)).
Proof.
  intros Hwf. unfold contributions. apply NoDup_map_filter.
  rewrite map_map. cbn [snd]. exact Hwf.
Qed.

Lemma contributions_exact (interest_vec doc_vec : vector R) (c : R) (t : string) :
  dict_wf doc_vec ->
  In (c, t) (contributions interest_vec doc_vec) <->
  (In t (dict_keys doc_vec)
   /\ c = weight doc_vec t * weight interest_vec t /\ 0 < c).
Proof.
  intros Hwf. unfold contributions. rewrite filter_In, in_map_iff.
  cbn [fst fltb fzero fmul Exact]. rewrite Rltb_true. split.
  - intros [[[t' w] [Heq Hin]] Hpos]. cbn [fst snd] in Heq.
    injection Heq as <- ->. repeat split; try assumption.
    + apply (in_map fst) in Hin. exact Hin.
    + rewrite (weight_present doc_vec t w Hwf Hin). reflexivity.
  - intros [Hin [-> Hpos]]. split; [|exact Hpos].
    apply in_map_iff in Hin as [[t' w] [Ht Hin]]. cbn [fst] in Ht. subst t'.
    exists (t, w). split; [|exact Hin]. cbn [fst snd].
    rewrite (weight_present doc_vec t w Hwf Hin). reflexivity.
Qed.

(** The sorted list of [explain_doc]: it holds the tokens with a positive
    product, each once, by descending product and, among equal products, by
    descending token text. *)
Lemma ranked_contributions_exact (interest_vec doc_vec : vector R) :
  dict_wf doc_vec ->
  (forall c t,
      In (c, t) (py_sort_reverse (tuple_ltb Reqb Rltb)
                                 (contributions interest_vec doc_vec)) <->
      (In t (dict_keys doc_vec)
       /\ c = weight doc_vec t * weight interest_vec t /\ 0 < c))
  /\ NoDup (map snd (py_sort_reverse (tuple_ltb Reqb Rltb)
                                     (contributions interest_vec doc_vec)))
  /\ StronglySorted
       (fun x y => fst y < fst x
                   \/ (fst y = fst x /\ String.ltb (snd y) (snd x) = true))
       (py_sort_reverse (tuple_ltb Reqb Rltb)
                        (contributions interest_vec doc_vec)).
Proof.
  intros Hwf.
  set (ranked := py_sort_reverse (tuple_ltb Reqb Rltb)
                                 (contributions interest_vec doc_vec)).
  pose proof (py_sort_reverse_perm _ (tuple_ltb Reqb Rltb)
                (contributions interest_vec doc_vec)) as Hperm.
  fold ranked in Hperm.
  pose proof (strict_total_tuple Reqb Rltb strict_total_R) as Hord.
  assert (Hkeys : NoDup (map snd ranked)).
  { apply (Permutation_NoDup (l := map snd (contributions interest_vec doc_vec))).
    - apply Permutation_map, Permutation_sym, Hperm.
    - apply contributions_keys. exact Hwf. }
  split; [|split].
  - intros c t.
    rewrite <- (contributions_exact interest_vec doc_vec c t Hwf).
    split; apply Permutation_in; [exact Hperm | apply Permutation_sym, Hperm].
  - exact Hkeys.
  - apply (StronglySorted_strict _ (fun a b => tuple_ltb Reqb Rltb a b = false)).
    + intros a b Hab Hne.
      apply (st_not_lt _ _ Hord) in Hab as [Hba|Hab]; [|contradiction].
      apply (tuple_ltb_true Reqb Rltb strict_total_R) in Hba.
      destruct Hba as [Hlt|[Hfst Hsnd]].
      * left. apply Rltb_true. exact Hlt.
      * right. split; assumption.
    + apply (NoDup_map_inv snd). exact Hkeys.
    + apply py_sort_reverse_sorted.
      * apply (st_irrefl Hord).
      * apply (st_trans Hord).
      * apply (st_negtrans _ _ Hord).
Qed.

Lemma explain_doc_unfold (F : Type) (N : Num F) (interest_vec doc_vec : vector F)
      (topn : Z) :
  explain_doc interest_vec doc_vec topn
  = map snd (firstn (Z.to_nat topn)
                    (py_sort_reverse (tuple_ltb feqb fltb)
                                     (contributions interest_vec doc_vec))).
Proof.
  unfold explain_doc. destruct (Z.leb_spec topn 0) as [Hle|Hgt].
  - replace (Z.to_nat topn) with 0%nat by lia. reflexivity.
  - unfold py_slice_to. destruct (Z.leb_spec 0 topn); [reflexivity|lia].
Qed.




(** ** Assignment to dictionaries *)

Section DictSetFacts.
Context {K V : Type} `{Key K}.

Lemma dict_get_set (d : dict K V) (k k' : K) (v : V) :
  dict_get (dict_set d k v) k' = if key_eqb k k' then Some v else dict_get d k'.
Proof.
  induction d as [|[k0 v0] d IH]; simpl.
  - reflexivity.
  - destruct (key_eqb k0 k) eqn:E0; simpl.
    + apply key_eqb_eq in E0. subst k0.
      destruct (key_eqb k k'); reflexivity.
    + rewrite IH. destruct (key_eqb k0 k') eqn:E1; [|reflexivity].
      apply key_eqb_eq in E1. destruct (key_eqb k k') eqn:E2; [|reflexivity].
      apply key_eqb_eq in E2. subst. rewrite key_eqb_refl in E0. discriminate.
Qed.

Lemma dict_set_new (d : dict K V) (k : K) (v : V) :
  ~ In k (dict_keys d) -> dict_set d k v = d ++ [(k, v)].
Proof.
  induction d as [|[k0 v0] d IH]; simpl; intros Hnin; [reflexivity|].
  rewrite key_eqb_neq by (intros ->; apply Hnin; now left).
  rewrite IH; [reflexivity|]. intros Hin. apply Hnin. now right.
Qed.

Lemma dict_set_keys_present (d : dict K V) (k : K) (v : V) :
  In k (dict_keys d) -> dict_keys (dict_set d k v) = dict_keys d.
Proof.
  induction d as [|[k0 v0] d IH]; simpl; intros Hin; [contradiction|].
  destruct (key_eqb k0 k) eqn:E; simpl; [reflexivity|].
  f_equal. apply IH. destruct Hin as [->|Hin]; [|exact Hin].
  rewrite key_eqb_refl in E. discriminate.
Qed.

Lemma dict_set_keys (d : dict K V) (k : K) (v : V) :
  dict_keys (dict_set d k v)
  = if in_dec key_eq_dec k (dict_keys d) then dict_keys d
    else dict_keys d ++ [k].
Proof.
  destruct (in_dec key_eq_dec k (dict_keys d)) as [Hin|Hnin].
  - apply dict_set_keys_present. exact Hin.
  - rewrite (dict_set_new d k v Hnin). unfold dict_keys.
    rewrite map_app. reflexivity.
Qed.

Lemma dict_set_in_keys (d : dict K V) (k k' : K) (v : V) :
  In k' (dict_keys (dict_set d k v)) <-> k' = k \/ In k' (dict_keys d).
Proof.
  rewrite dict_set_keys.
  destruct (in_dec key_eq_dec k (dict_keys d)) as [Hin|Hnin].
  - split; [auto|]. intros [->|H']; assumption.
  - rewrite in_app_iff. simpl. intuition.
Qed.

Lemma dict_set_wf (d : dict K V) (k : K) (v : V) :
  dict_wf d -> dict_wf (dict_set d k v).
Proof.
  unfold dict_wf. rewrite dict_set_keys.
  destruct (in_dec key_eq_dec k (dict_keys d)) as [Hin|Hnin]; [auto|].
  intros Hnd. apply NoDup_app; [exact Hnd | repeat constructor; simpl; tauto |].
  intros x Hx [<-|[]]. contradiction.
Qed.
End DictSetFacts.

(** ** Counting *)

Lemma count_into_get (ts : list string) (counts : dict string Z) (t : string) :
  dict_get_default (count_into counts ts) t 0%Z
  = (dict_get_default counts t 0 + Z.of_nat (count_occ string_dec ts t))%Z.
Proof.
  revert counts. induction ts as [|x ts IH]; intros counts.
  - simpl. lia.
  - cbn [count_into fold_left]. fold (count_into (dict_set counts x (dict_get_default counts x 0 + 1)%Z) ts).
    rewrite IH. unfold dict_get_default at 1. rewrite dict_get_set.
    cbn [key_eqb Key_string]. cbn [count_occ].
    destruct (String.eqb_spec x t) as [->|Hne].
    + destruct (string_dec t t); [|contradiction]. lia.
    + destruct (string_dec x t); [contradiction|].
      unfold dict_get_default. lia.
Qed.

Lemma count_into_keys (ts : list string) (counts : dict string Z) (t : string) :
  In t (dict_keys (count_into counts ts)) <-> In t (dict_keys counts) \/ In t ts.
Proof.
  revert counts. induction ts as [|x ts IH]; intros counts.
  - simpl. tauto.
  - cbn [count_into fold_left]. fold (count_into (dict_set counts x (dict_get_default counts x 0 + 1)%Z) ts).
    rewrite IH, dict_set_in_keys. simpl. intuition.
Qed.

Lemma count_into_wf (ts : list string) (counts : dict string Z) :
  dict_wf counts -> dict_wf (count_into counts ts).
Proof.
  revert counts. induction ts as [|x ts IH]; intros counts Hwf; [exact Hwf|].
  cbn [count_into fold_left]. apply IH. apply dict_set_wf. exact Hwf.
Qed.

Lemma mem_In (x : string) (xs : list string) : mem x xs = true <-> In x xs.
Proof.
  unfold mem. rewrite existsb_exists. split.
  - intros [y [Hin Heq]]. apply String.eqb_eq in Heq. subst. exact Hin.
  - intros Hin. exists x. split; [exact Hin | apply String.eqb_refl].
Qed.

Lemma count_occ_py_set (xs : list string) (t : string) :
  count_occ string_dec (py_set xs) t = if mem t xs then 1%nat else 0%nat.
Proof.
  unfold py_set. destruct (mem t xs) eqn:Hm.
  - apply mem_In in Hm. apply NoDup_count_occ'; [apply NoDup_nodup|].
    apply nodup_In. exact Hm.
  - apply count_occ_not_In. rewrite nodup_In. intros Hin.
    apply mem_In in Hin. congruence.
Qed.

(** The table built by the first loop of [tfidf_vectors] holds, for every
    token, the number of documents that contain it. *)
Lemma document_frequency_get (docs : list doc) (t : string) :
  dict_get_default (document_frequency docs) t 0%Z = Z.of_nat (df t docs).
Proof.
  unfold document_frequency.
  assert (Hgen : forall table,
             dict_get_default
               (fold_left (fun table d => count_into table (py_set (doc_tokens d)))
                          docs table) t 0%Z
             = (dict_get_default table t 0 + Z.of_nat (df t docs))%Z).
  { induction docs as [|d docs IH]; intros table.
    - simpl. lia.
    - cbn [fold_left]. rewrite IH, count_into_get, count_occ_py_set.
      unfold df. cbn [filter]. destruct (mem t (doc_tokens d)); simpl List.length; lia. }
  rewrite Hgen. reflexivity.
Qed.

Lemma df_le_length (t : string) (docs : list doc) :
  (df t docs <= List.length docs)%nat.
Proof. unfold df. apply filter_length_le. Qed.

(** ** TF-IDF vectors in exact arithmetic *)

(** The weight that the second loop of [tfidf_vectors] stores for a token
    with term frequency [c], given the table of document frequencies. *)
Lemma tfidf_step_exact (table : dict string Z) (n : Z) (vec : vector R)
      (tc : string * Z) :
  (0 <= n)%Z -> (0 <= dict_get_default table (fst tc) 0%Z)%Z ->
  (q <- int_truediv (n + 1) (1 + dict_get_default table (fst tc) 0%Z) ;;
   l <- math_log q ;;
   Ok (dict_set vec (fst tc) (fmul (of_int (snd tc)) (fadd l fone))))
  = Ok (dict_set vec (fst tc)
          (IZR (snd tc)
           * (ln (IZR (n + 1) / IZR (1 + dict_get_default table (fst tc) 0%Z)) + 1))).
Proof.
  intros Hn Hdf. unfold int_truediv.
  destruct (Z.eqb_spec (1 + dict_get_default table (fst tc) 0%Z) 0) as [E|_]; [lia|].
  cbn [bind]. unfold math_log. cbn [fleb fzero fdiv of_int Exact].
  assert (Hq : 0 < IZR (n + 1) / IZR (1 + dict_get_default table (fst tc) 0%Z)).
  { apply Rdiv_lt_0_compat; apply IZR_lt; lia. }
  assert (Hle : Rleb (IZR (n + 1) / IZR (1 + dict_get_default table (fst tc) 0%Z)) 0
                = false) by (apply Rleb_false; exact Hq).
  rewrite Hle. reflexivity.
Qed.

Lemma foldM_dict_set (g : string * Z -> R)
      (step : vector R -> string * Z -> result (vector R)) :
  forall (entries : list (string * Z)) (acc : vector R),
    (forall vec tc, In tc entries -> step vec tc = Ok (dict_set vec (fst tc) (g tc))) ->
    NoDup (map fst entries) ->
    (forall k, In k (map fst entries) -> ~ In k (dict_keys acc)) ->
    foldM step entries acc = Ok (acc ++ map (fun tc => (fst tc, g tc)) entries).
Proof.
  induction entries as [|tc entries IH]; intros acc Hstep Hnd Hfresh.
  - simpl. rewrite app_nil_r. reflexivity.
  - cbn [foldM]. rewrite (Hstep acc tc (or_introl eq_refl)). cbn [bind].
    inversion Hnd as [|? ? Hnin Hnd']; subst.
    rewrite dict_set_new by (apply Hfresh; now left).
    rewrite IH.
    + rewrite <- app_assoc. reflexivity.
    + intros vec tc' Hin. apply Hstep. now right.
    + exact Hnd'.
    + intros k Hk. unfold dict_keys. rewrite map_app, in_app_iff. simpl.
      intros [Hin|[Heq|[]]].
      * apply (Hfresh k); [now right | exact Hin].
      * subst k. contradiction.
Qed.

Lemma tfidf_vector_exact (table : dict string Z) (n : Z) (d : doc) :
  (0 <= n)%Z -> (forall t, 0 <= dict_get_default table t 0)%Z ->
  tfidf_vector table n d
  = Ok (map (fun tc =>
               (fst tc,
                IZR (snd tc)
                * (ln (IZR (n + 1) / IZR (1 + dict_get_default table (fst tc) 0%Z)) + 1)))
            (count_into [] (doc_tokens d))).
Proof.
  intros Hn Hdf. unfold tfidf_vector.
  rewrite (foldM_dict_set
             (fun tc => IZR (snd tc)
                        * (ln (IZR (n + 1) / IZR (1 + dict_get_default table (fst tc) 0%Z)) + 1))).
  - reflexivity.
  - intros vec tc _. apply tfidf_step_exact; [exact Hn | apply Hdf].
  - apply (count_into_wf (doc_tokens d) []). constructor.
  - intros k _ [].
Qed.

(** The entries of the term-frequency table of a document. *)
Lemma count_into_entries (ts : list string) (t : string) (c : Z) :
  In (t, c) (count_into [] ts) ->
  In t ts /\ c = Z.of_nat (count_occ string_dec ts t).
Proof.
  intros Hin. split.
  - apply (in_map fst) in Hin. apply count_into_keys in Hin as [[]|Hin]. exact Hin.
  - pose proof (count_into_get ts [] t) as Hget.
    unfold dict_get_default at 1 in Hget.
    rewrite (dict_get_in _ _ _ (count_into_wf ts [] (NoDup_nil _)) Hin) in Hget.
    rewrite Hget. unfold dict_get_default. simpl. lia.
Qed.

Lemma mapM_Forall2 (A B : Type) (f : A -> result B) (P : A -> B -> Prop)
      (xs : list A) :
  (forall x, In x xs -> exists y, f x = Ok y /\ P x y) ->
  exists ys, mapM f xs = Ok ys /\ Forall2 P xs ys.
Proof.
  induction xs as [|x xs IH]; intros Hf.
  - exists []. split; [reflexivity|constructor].
  - destruct (Hf x (or_introl eq_refl)) as [y [Hy HP]].
    destruct IH as [ys [Hys HPs]]; [intros x' Hin; apply Hf; now right|].
    exists (y :: ys). cbn [mapM]. rewrite Hy, Hys. split; [reflexivity|].
    constructor; assumption.
Qed.

(** What [tfidf_vectors] stores for one document. *)
Lemma tfidf_vector_of_doc (docs : list doc) (d : doc) :
  exists v,
    tfidf_vector (document_frequency docs) (Z.of_nat (List.length docs)) d = Ok v
    /\ dict_wf v
    /\ (forall t, In t (dict_keys v) <-> In t (doc_tokens d))
    /\ (forall t w, In (t, w) v -> w = INR (tf t d) * idf t docs).
Proof.
  eexists. split; [apply tfidf_vector_exact|].
  - lia.
  - intros t. rewrite document_frequency_get. lia.
  - pose proof (count_into_wf (doc_tokens d) [] (NoDup_nil _)) as Hwf.
    split; [|split].
    + unfold dict_wf, dict_keys. rewrite map_map. exact Hwf.
    + intros t. unfold dict_keys. rewrite map_map. cbn [fst].
      change (map (fun x : string * Z => fst x) (count_into [] (doc_tokens d)))
        with (dict_keys (count_into [] (doc_tokens d))).
      rewrite count_into_keys. simpl. tauto.
    + intros t w Hin. apply in_map_iff in Hin as [[t' c] [Heq Hin]].
      unfold fst, snd in Heq. injection Heq as -> <-.
      apply count_into_entries in Hin as [_ ->].
      rewrite document_frequency_get. unfold idf, tf.
      rewrite !INR_IZR_INZ, !Nat2Z.inj_add. reflexivity.
Qed.


Lemma idf_ge_1 (t : string) (docs : list doc) : 1 <= idf t docs.
Proof.
  unfold idf. pose proof (df_le_length t docs) as Hdf.
  assert (Hden : 0 < INR (1 + df t docs)) by (apply lt_0_INR; lia).
  assert (Hnum : INR (1 + df t docs) <= INR (List.length docs + 1))
    by (apply le_INR; lia).
  assert (Hq : 1 <= INR (List.length docs + 1) / INR (1 + df t docs)).
  { apply Rmult_le_reg_r with (r := INR (1 + df t docs)); [exact Hden|].
    unfold Rdiv. rewrite Rmult_assoc, Rinv_l by lra. lra. }
  destruct Hq as [Hq|Hq].
  - pose proof (ln_increasing 1 _ Rlt_0_1 Hq) as Hln. rewrite ln_1 in Hln. lra.
  - rewrite <- Hq, ln_1. lra.
Qed.


(** ** Ranking *)

Lemma StronglySorted_impl (A : Type) (R R' : A -> A -> Prop) (l : list A) :
  (forall a b, R a b -> R' a b) -> StronglySorted R l -> StronglySorted R' l.
Proof.
  intros Himp Hs. induction Hs as [|a l Hs IH Hall]; constructor.
  - exact IH.
  - eapply Forall_impl; [|exact Hall]. intros b. apply Himp.
Qed.

Lemma Rleb_negb (x : R) : negb (Rleb x 0) = Rltb 0 x.
Proof.
  destruct (Rleb x 0) eqn:E; simpl; symmetry.
  - apply Rleb_true in E. apply Rltb_false. exact E.
  - apply Rleb_false in E. apply Rltb_true. exact E.
Qed.

Lemma score_candidates_from (interest : vector R) (vectors : list (vector R))
      (idx : dict Z nat) (vec : doc -> vector R) :
  forall (older : list doc) (acc : list (R * doc)),
    (forall d, In d older -> vector_of vectors idx d = Ok (vec d)) ->
    foldM (fun scored d =>
             v <- vector_of vectors idx d ;;
             score <- cosine interest v ;;
             Ok (if fleb score fzero then scored else scored ++ [(score, d)]))
          older acc
    = Ok (acc ++ filter (fun sd => Rltb 0 (fst sd))
                        (map (fun d => (similarity interest (vec d), d)) older)).
Proof.
  induction older as [|d older IH]; intros acc Hvec.
  - simpl. rewrite app_nil_r. reflexivity.
  - cbn [foldM]. rewrite (Hvec d (or_introl eq_refl)). cbn [bind].
    rewrite cosine_exact. cbn [bind fleb fzero Exact].
    rewrite IH by (intros d' Hin; apply Hvec; now right).
    cbn [map filter fst]. rewrite <- Rleb_negb.
    destruct (Rleb (similarity interest (vec d)) 0); cbn [negb].
    + reflexivity.
    + rewrite <- app_assoc. reflexivity.
Qed.

Lemma score_candidates_exact (interest : vector R) (vectors : list (vector R))
      (idx : dict Z nat) (vec : doc -> vector R) (older : list doc) :
  (forall d, In d older -> vector_of vectors idx d = Ok (vec d)) ->
  score_candidates interest vectors idx older
  = Ok (filter (fun sd => Rltb 0 (fst sd))
               (map (fun d => (similarity interest (vec d), d)) older)).
Proof.
  intros Hvec. unfold score_candidates.
  rewrite (score_candidates_from interest vectors idx vec older [] Hvec).
  reflexivity.
Qed.

Lemma filter_map_swap (A B : Type) (f : A -> B) (p : B -> bool) (l : list A) :
  filter p (map f l) = map f (filter (fun x => p (f x)) l).
Proof.
  induction l as [|x l IH]; simpl; [reflexivity|].
  destruct (p (f x)); simpl; rewrite IH; reflexivity.
Qed.


(** ** The stages of [main] *)

Lemma index_docs_keys (l : list doc) :
  forall (s : nat) (acc : dict Z nat) (k : Z),
    In k (dict_keys
            (fold_left (fun idx id => dict_set idx (doc_id (snd id)) (fst id))
                       (combine (seq s (List.length l)) l) acc))
    <-> In k (dict_keys acc) \/ In k (map doc_id l).
Proof.
  induction l as [|d l IH]; intros s acc k.
  - simpl. tauto.
  - cbn [List.length seq combine fold_left fst snd map].
    rewrite IH, dict_set_in_keys. simpl. intuition.
Qed.

Lemma index_docs_bound (l : list doc) :
  forall (s : nat) (acc : dict Z nat) (B : nat),
    (s + List.length l <= B)%nat ->
    (forall k i, dict_get acc k = Some i -> (i < B)%nat) ->
    forall k i,
      dict_get (fold_left (fun idx id => dict_set idx (doc_id (snd id)) (fst id))
                          (combine (seq s (List.length l)) l) acc) k = Some i ->
      (i < B)%nat.
Proof.
  induction l as [|d l IH]; intros s acc B HB Hacc k i.
  - simpl. apply Hacc.
  - cbn [List.length seq combine fold_left fst snd].
    apply (IH (S s)).
    + simpl in HB. lia.
    + intros k' i'. rewrite dict_get_set.
      destruct (key_eqb (doc_id d) k').
      * intros [= <-]. simpl in HB. lia.
      * apply Hacc.
Qed.

(** Every document has an entry in the index, and the entry is a position
    of the list of documents. *)
Lemma index_docs_lookup (docs : list doc) (d : doc) :
  In d docs ->
  exists i, dict_get (index_docs docs) (doc_id d) = Some i
            /\ (i < List.length docs)%nat.
Proof.
  intros Hin. unfold index_docs.
  assert (Hk : In (doc_id d)
                  (dict_keys
                     (fold_left (fun idx id => dict_set idx (doc_id (snd id)) (fst id))
                                (combine (seq 0 (List.length docs)) docs) []))).
  { apply index_docs_keys. right. apply in_map. exact Hin. }
  destruct (dict_get_present _ _ Hk) as [i Hi].
  exists i. split; [exact Hi|].
  apply (index_docs_bound docs 0 [] (List.length docs)) with (k := doc_id d).
  - lia.
  - intros k' i'. discriminate.
  - exact Hi.
Qed.

Lemma vector_of_ok (F : Type) (vectors : list (vector F)) (docs : list doc)
      (d : doc) :
  List.length vectors = List.length docs -> In d docs ->
  exists v, vector_of vectors (index_docs docs) d = Ok v.
Proof.
  intros Hlen Hin. destruct (index_docs_lookup docs d Hin) as [i [Hi Hlt]].
  unfold vector_of, dict_lookup. rewrite Hi. cbn [bind]. unfold list_index.
  destruct (nth_error vectors i) as [v|] eqn:Hn; [eauto|].
  apply nth_error_None in Hn. lia.
Qed.

Lemma mapM_ok (A B : Type) (f : A -> result B) (xs : list A) :
  (forall x, In x xs -> exists y, f x = Ok y) ->
  exists ys, mapM f xs = Ok ys.
Proof.
  intros Hf.
  destruct (mapM_Forall2 _ _ f (fun _ _ => True) xs) as [ys [Hys _]].
  - intros x Hx. destruct (Hf x Hx) as [y Hy]. eauto.
  - eauto.
Qed.

Lemma aggregate_vector_ok (F : Type) (N : Num F) (vectors : list (vector F)) :
  exists agg, aggregate_vector vectors None = Ok agg.
Proof.
  unfold aggregate_vector.
  generalize (combine (seq 0 (List.length vectors)) vectors).
  generalize (@nil (string * F)).
  intros acc l. revert acc.
  induction l as [|iv l IH]; intros acc; cbn [foldM]; [eauto|].
  cbn [weight_at bind]. apply IH.
Qed.

Lemma run_io_bind (A B : Type) (w : world) (m : io A) (f : A -> io B) :
  run w (io_bind m f) = run w (f (run w m)).
Proof.
  induction m as [a|k IH|k IH]; cbn [io_bind run]; [reflexivity| |]; apply IH.
Qed.


Section CollectResults.
Context {F : Type} `{Num F}.
Variable ext : Externals.
Variable format_score : F -> string.
Variable a : args.
Variable interest : vector F.
Variable vectors : list (vector F).
Variable doc_index : dict Z nat.

(** The loop that builds [results] never raises when every candidate has a
    vector; it only appends rows built from candidates, and it appends at
    least one when there is a candidate and no host has been seen. *)
Lemma collect_results_spec :
  forall (scored : list (F * doc)) (results : list out_row)
         (seen : list string),
    (forall sd, In sd scored ->
                exists v, vector_of vectors doc_index (snd sd) = Ok v) ->
    exists extra,
      collect_results ext format_score a interest vectors doc_index
                      scored results seen
      = Ok (results ++ extra)
      /\ Forall (row_of_candidate ext format_score a interest vectors
                                  doc_index scored) extra
      /\ (seen = [] -> scored <> [] -> extra <> []).
Proof.
  induction scored as [|[score d] rest IH]; intros results seen Hvec.
  - exists []. cbn [collect_results]. rewrite app_nil_r.
    split; [reflexivity|]. split; [constructor|]. intros _ Hne. contradiction.
  - assert (Hweak : forall extra,
               Forall (row_of_candidate ext format_score a interest vectors
                                        doc_index rest) extra ->
               Forall (row_of_candidate ext format_score a interest vectors
                                        doc_index ((score, d) :: rest)) extra).
    { intros extra. apply Forall_impl. intros r [s [d' [v [Hin Hr]]]].
      exists s, d', v. split; [now right | exact Hr]. }
    cbn [collect_results].
    destruct (dedupe_host a && mem (doc_host d) seen) eqn:Hdup.
    + destruct (IH results seen) as [extra [Hrun [Hrows _]]].
      { intros sd Hin. apply Hvec. now right. }
      exists extra. split; [exact Hrun|]. split; [apply Hweak, Hrows|].
      intros -> _. simpl in Hdup. rewrite andb_false_r in Hdup. discriminate.
    + destruct (Hvec (score, d) (or_introl eq_refl)) as [v Hv].
      cbn [snd] in Hv. rewrite Hv. cbn [bind].
      set (r := format_row ext format_score score d
                           (explain_doc interest v (explain_top a))).
      assert (Hr : row_of_candidate ext format_score a interest vectors
                                    doc_index ((score, d) :: rest) r).
      { exists score, d, v. split; [now left|]. split; [exact Hv|reflexivity]. }
      destruct (limit a <=? Z.of_nat (List.length (results ++ [r])))%Z.
      * exists [r]. split; [reflexivity|]. split; [constructor; [exact Hr|constructor]|].
        intros _ _. discriminate.
      * destruct (IH (results ++ [r]) (doc_host d :: seen))
          as [extra [Hrun [Hrows _]]].
        { intros sd Hin. apply Hvec. now right. }
        exists (r :: extra). rewrite Hrun, <- app_assoc.
        split; [reflexivity|]. split; [constructor; [exact Hr|apply Hweak, Hrows]|].
        intros _ _. discriminate.
Qed.
End CollectResults.

(** ** Cluster summaries *)

Lemma count_into_app (xs ys : list string) (counts : dict string Z) :
  count_into (count_into counts xs) ys = count_into counts (xs ++ ys).
Proof. unfold count_into. rewrite fold_left_app. reflexivity. Qed.

(** The table [clusters] after the first loop of [build_cluster_summary]:
    every label of a row has an entry, which counts the members and their
    explanation tokens. *)
Lemma add_to_cluster_fold :
  forall (rows : list out_row) (clusters : dict string cluster_info),
    Forall (fun r => r_cluster r <> None) rows ->
    exists clusters',
      foldM add_to_cluster rows clusters = Ok clusters'
      /\ (dict_wf clusters -> dict_wf clusters')
      /\ (forall name,
             In name (dict_keys clusters') <->
             (In name (dict_keys clusters)
              \/ exists r, In r rows /\ r_cluster r = Some name))
      /\ (forall name,
             dict_get_default clusters' name
                              {| info_count := 0; info_tokens := [] |}
             = {| info_count :=
                    (info_count (dict_get_default clusters name
                                   {| info_count := 0; info_tokens := [] |})
                     + Z.of_nat (List.length (members name rows)))%Z;
                  info_tokens :=
                    count_into
                      (info_tokens (dict_get_default clusters name
                                      {| info_count := 0; info_tokens := [] |}))
                      (member_tokens name rows) |}).
Proof.
  induction rows as [|r rows IH]; intros clusters Hall.
  - exists clusters. split; [reflexivity|]. split; [auto|]. split.
    + intros name. split; [auto|]. intros [Hin|[r [[] _]]]. exact Hin.
    + intros name. cbn.
      destruct (dict_get_default clusters name
                                 {| info_count := 0; info_tokens := [] |}).
      cbn. f_equal. lia.
  - inversion Hall as [|? ? Hr Hall']; subst.
    cbn [foldM]. unfold add_to_cluster at 1.
    destruct (r_cluster r) as [n|] eqn:Hn; [|contradiction].
    cbn [bind].
    set (info := dict_get_default clusters n
                                  {| info_count := 0; info_tokens := [] |}).
    set (clusters1 :=
           dict_set clusters n
                    {| info_count := (info_count info + 1)%Z;
                       info_tokens := count_into (info_tokens info)
                                                 (r_why_tokens r) |}).
    destruct (IH clusters1 Hall') as [clusters' [Hrun [Hwf [Hkeys Hinfo]]]].
    exists clusters'. split; [exact Hrun|]. split; [|split].
    + intros Hc. apply Hwf. apply dict_set_wf. exact Hc.
    + intros name. rewrite Hkeys. unfold clusters1.
      rewrite dict_set_in_keys. split.
      * intros [[->|Hin]|[r' [Hin Hr']]].
        -- right. exists r. split; [now left | exact Hn].
        -- now left.
        -- right. exists r'. split; [now right | exact Hr'].
      * intros [Hin|[r' [[<-|Hin] Hr']]].
        -- left. now right.
        -- left. left. congruence.
        -- right. exists r'. split; assumption.
    + intros name.
      assert (Hmem : members name (r :: rows)
                     = if String.eqb n name then r :: members name rows
                       else members name rows).
      { unfold members. cbn [filter]. unfold in_cluster at 1. rewrite Hn.
        reflexivity. }
      assert (Htok : member_tokens name (r :: rows)
                     = if String.eqb n name
                       then r_why_tokens r ++ member_tokens name rows
                       else member_tokens name rows).
      { unfold member_tokens. rewrite Hmem.
        destruct (String.eqb n name); reflexivity. }
      assert (Hdflt :
                dict_get_default clusters1 name
                                 {| info_count := 0; info_tokens := [] |}
                = if String.eqb n name
                  then {| info_count := (info_count info + 1)%Z;
                          info_tokens := count_into (info_tokens info)
                                                    (r_why_tokens r) |}
                  else dict_get_default clusters name
                                        {| info_count := 0; info_tokens := [] |}).
      { unfold clusters1, dict_get_default. rewrite dict_get_set.
        cbn [key_eqb Key_string]. destruct (String.eqb n name); reflexivity. }
      rewrite Hinfo, Hmem, Htok, Hdflt.
      destruct (String.eqb_spec n name) as [->|Hne]; [|reflexivity].
      cbn [info_count info_tokens List.length].
      rewrite count_into_app. fold info. f_equal. lia.
Qed.

Lemma fold_left_dict_set_map (A B : Type) (g : A -> B) :
  forall (entries : dict string A) (acc : dict string B),
    NoDup (dict_keys entries) ->
    (forall k, In k (dict_keys entries) -> ~ In k (dict_keys acc)) ->
    fold_left (fun s ni => dict_set s (fst ni) (g (snd ni))) entries acc
    = acc ++ map (fun ni => (fst ni, g (snd ni))) entries.
Proof.
  induction entries as [|[k x] entries IH]; intros acc Hnd Hfresh.
  - simpl. rewrite app_nil_r. reflexivity.
  - cbn [fold_left map fst snd].
    inversion Hnd as [|? ? Hnin Hnd']; subst.
    rewrite dict_set_new by (apply Hfresh; now left).
    rewrite IH.
    + rewrite <- app_assoc. reflexivity.
    + exact Hnd'.
    + intros k' Hk'. unfold dict_keys. rewrite map_app, in_app_iff. simpl.
      intros [Hin|[Heq|[]]].
      * apply (Hfresh k'); [now right | exact Hin].
      * subst k'. contradiction.
Qed.

Lemma token_count_key_inj (x y : string * Z) :
  token_count_key x = token_count_key y -> x = y.
Proof.
  destruct x as [t c], y as [t' c']. unfold token_count_key. cbn [fst snd].
  intros [= Hc ->]. f_equal. lia.
Qed.

(** The sorted token table of a cluster: by descending count, and among
    equal counts by ascending token text. *)
Lemma token_counts_sorted (table : dict string Z) :
  dict_wf table ->
  Permutation (py_sort token_count_ltb table) table
  /\ NoDup (map fst (py_sort token_count_ltb table))
  /\ StronglySorted
       (fun x y => (snd y < snd x)%Z
                   \/ (snd y = snd x /\ String.ltb (fst x) (fst y) = true))
       (py_sort token_count_ltb table).
Proof.
  intros Hwf.
  pose proof (py_sort_perm _ token_count_ltb table) as Hperm.
  pose proof (strict_total_tuple Z.eqb Z.ltb strict_total_Z) as Hord.
  assert (Hnd : NoDup (map fst (py_sort token_count_ltb table))).
  { apply (Permutation_NoDup (l := map fst table)); [|exact Hwf].
    apply Permutation_map, Permutation_sym, Hperm. }
  split; [exact Hperm|]. split; [exact Hnd|].
  apply (StronglySorted_strict _ (fun x y => token_count_ltb y x = false)).
  - intros x y Hyx Hne. unfold token_count_ltb in Hyx.
    apply (st_not_lt _ _ Hord) in Hyx as [Hxy|Heq].
    + apply (tuple_ltb_true Z.eqb Z.ltb strict_total_Z) in Hxy.
      unfold token_count_key in Hxy. cbn [fst snd] in Hxy.
      destruct Hxy as [Hlt|[Heq Hlt]].
      * left. apply Z.ltb_lt in Hlt. lia.
      * right. split; [lia | exact Hlt].
    + exfalso. apply Hne. symmetry. apply token_count_key_inj. exact Heq.
  - apply (NoDup_map_inv fst). exact Hnd.
  - apply py_sort_sorted.
    + intros x. apply (st_irrefl Hord).
    + intros x y z. apply (st_trans Hord).
    + intros x y z. apply (st_negtrans _ _ Hord).
Qed.

(** The entries of a table of counts are the tokens counted, each with its
    number of occurrences. *)
Lemma count_into_table (ts : list string) (t : string) (c : Z) :
  In (t, c) (count_into [] ts) <->
  (c = Z.of_nat (count_occ string_dec ts t) /\ 0 < c)%Z.
Proof.
  split.
  - intros Hin. apply count_into_entries in Hin as [Hin ->].
    split; [reflexivity|]. apply (count_occ_In string_dec) in Hin. lia.
  - intros [-> Hpos].
    assert (Hin : In t ts).
    { apply (count_occ_In string_dec). lia. }
    assert (Hk : In t (dict_keys (count_into [] ts))).
    { apply count_into_keys. now right. }
    destruct (dict_get_present _ _ Hk) as [c Hc].
    apply dict_get_some_in in Hc.
    pose proof (count_into_entries ts t c Hc) as [_ ->]. exact Hc.
Qed.

Lemma assign_cluster_label (ce : bool) (r : out_row) :
  r_cluster (assign_cluster ce r)
  = Some (label_rule ce (r_why_tokens r) (r_host r))
  /\ r_why_tokens (assign_cluster ce r) = r_why_tokens r
  /\ r_host (assign_cluster ce r) = r_host r.
Proof.
  unfold assign_cluster, label_rule, str_or. cbn.
  destruct ce, (r_why_tokens r); auto.
Qed.

(** What [build_cluster_summary] returns: one summary per label, with the
    number of members and the head of the sorted token table. *)
Lemma build_cluster_summary_spec (rows : list out_row) (topn : Z) :
  Forall (fun r => r_cluster r <> None) rows ->
  exists sums,
    build_cluster_summary rows topn = Ok sums
    /\ dict_wf sums
    /\ (forall name,
           In name (dict_keys sums) <->
           exists r, In r rows /\ r_cluster r = Some name)
    /\ (forall name s,
           In (name, s) sums ->
           count s = Z.of_nat (List.length (members name rows))
           /\ top_tokens s
              = map fst
                    (py_slice_to topn
                       (py_sort token_count_ltb
                                (count_into [] (member_tokens name rows))))).
Proof.
  intros Hall.
  destruct (add_to_cluster_fold rows [] Hall) as [clusters [Hrun [Hwf [Hkeys Hinfo]]]].
  specialize (Hwf (NoDup_nil _)).
  unfold build_cluster_summary. rewrite Hrun. cbn [bind].
  rewrite (fold_left_dict_set_map _ _ (summarize topn) clusters [] Hwf)
    by (intros k _ []).
  cbn [app]. eexists. split; [reflexivity|]. split; [|split].
  - unfold dict_wf, dict_keys. rewrite map_map. exact Hwf.
  - intros name. unfold dict_keys at 1. rewrite map_map. cbn [fst].
    change (map (fun x : string * cluster_info => fst x) clusters)
      with (dict_keys clusters).
    rewrite Hkeys. simpl. tauto.
  - intros name s Hin. apply in_map_iff in Hin as [[name' info] [Heq Hin]].
    unfold fst, snd in Heq. injection Heq as -> <-.
    pose proof (Hinfo name) as Hi.
    unfold dict_get_default at 1 in Hi.
    rewrite (dict_get_in _ _ _ Hwf Hin) in Hi.
    unfold dict_get_default in Hi. cbn [dict_get info_count info_tokens] in Hi.
    rewrite Hi. unfold summarize. cbn [count top_tokens info_count info_tokens].
    split; [lia|reflexivity].
Qed.

(** The first token that [explain_doc] returns has the largest product of
    candidate weight and interest weight. *)
Lemma explain_doc_head (interest_vec doc_vec : vector R) (topn : Z)
      (t : string) (rest : list string) :
  dict_wf doc_vec ->
  explain_doc interest_vec doc_vec topn = t :: rest ->
  In t (dict_keys doc_vec)
  /\ forall t', weight doc_vec t' * weight interest_vec t'
                <= weight doc_vec t * weight interest_vec t.
Proof.
  intros Hwf Hex. rewrite explain_doc_unfold in Hex.
  cbn [feqb fltb Exact] in Hex.
  destruct (ranked_contributions_exact interest_vec doc_vec Hwf)
    as [Hin [_ Hsorted]].
  destruct (py_sort_reverse (tuple_ltb Reqb Rltb)
                            (contributions interest_vec doc_vec))
    as [|[c t0] ranked] eqn:Hr.
  { rewrite firstn_nil in Hex. discriminate. }
  destruct (Z.to_nat topn) as [|n]; [discriminate|].
  cbn [firstn map snd] in Hex. injection Hex as -> _.
  destruct (proj1 (Hin c t) (or_introl eq_refl)) as [Hkey [Hc Hpos]].
  split; [exact Hkey|]. intros t'. rewrite <- Hc.
  destruct (Rle_dec (weight doc_vec t' * weight interest_vec t') 0) as [Hle|Hgt];
    [lra|].
  assert (Hk' : In t' (dict_keys doc_vec)).
  { destruct (in_dec string_dec t' (dict_keys doc_vec)) as [Hk|Hk]; [exact Hk|].
    rewrite (weight_absent doc_vec t' Hk) in Hgt. lra. }
  assert (Hin' : In (weight doc_vec t' * weight interest_vec t', t')
                    ((c, t) :: ranked)).
  { apply Hin. split; [exact Hk'|]. split; [reflexivity|lra]. }
  destruct Hin' as [[= <- _]|Hin']; [lra|].
  inversion Hsorted as [|? ? _ Hall]; subst.
  rewrite Forall_forall in Hall. specialize (Hall _ Hin').
  cbn [fst snd] in Hall. lra.
Qed.

Lemma vector_of_in (F : Type) (vectors : list (vector F)) (idx : dict Z nat)
      (d : doc) (v : vector F) :
  vector_of vectors idx d = Ok v -> In v vectors.
Proof.
  unfold vector_of, dict_lookup, list_index.
  destruct (dict_get idx (doc_id d)) as [i|]; cbn [bind]; [|discriminate].
  destruct (nth_error vectors i) as [v'|] eqn:Hn; [|discriminate].
  intros [= <-]. apply (nth_error_In _ _ Hn).
Qed.

Lemma tfidf_vectors_wf (docs : list doc) :
  exists vectors : list (vector R),
    tfidf_vectors docs = Ok vectors
    /\ List.length vectors = List.length docs
    /\ Forall (fun v => dict_wf v) vectors.
Proof.
  unfold tfidf_vectors.
  destruct (mapM_Forall2 _ _
              (tfidf_vector (document_frequency docs)
                            (Z.of_nat (List.length docs)))
              (fun (_ : doc) (v : vector R) => dict_wf v) docs)
    as [vectors [Hmap Hall]].
  - intros d _. destruct (tfidf_vector_of_doc docs d) as [v [Hv [Hwf _]]].
    exists v. split; assumption.
  - exists vectors. split; [exact Hmap|]. split.
    + symmetry. apply (Forall2_length Hall).
    + clear Hmap. induction Hall; constructor; assumption.
Qed.

Lemma filter_incl_in (A : Type) (p : A -> bool) (l : list A) (x : A) :
  In x (filter p l) -> In x l.
Proof. intros Hin. apply filter_In in Hin. apply Hin. Qed.

(** [main] after the recency check, over the reals: no stage raises; the
    run ends with the message about recommendations when the result list
    is empty, and otherwise prints the labelled rows and, when clustering is
    enabled, the summaries of [build_cluster_summary] with [topn=5]. *)
Lemma pipeline_exact (ext : Externals) (fs : R -> string) (a : args)
      (docs : list doc) (now cutoff : time) :
  datetime_of (now - recent_days a * microseconds_per_day)%Z = Ok cutoff ->
  filter (visited_since cutoff) docs <> [] ->
  exists (vectors : list (vector R)) (interest : vector R)
         (scored : list (R * doc)) (results : list out_row)
         (sums : dict string summary),
    tfidf_vectors docs = Ok vectors
    /\ Forall (fun v => dict_wf v) vectors
    /\ score_candidates interest vectors (index_docs docs)
                        (filter (visited_before cutoff) docs) = Ok scored
    /\ collect_results ext fs a interest vectors (index_docs docs)
                       (sort_scored scored) [] [] = Ok results
    /\ Forall (row_of_candidate ext fs a interest vectors (index_docs docs)
                                (sort_scored scored)) results
    /\ (results = [] <-> scored = [])
    /\ (if negb (no_cluster a)
        then build_cluster_summary
               (map (assign_cluster (negb (no_cluster a))) results) 5 = Ok sums
        else sums = [])
    /\ pipeline ext fs a docs now
       = if is_nil results then
           Returned 1 (Message "No recommendations found.")
         else
           Returned 0 (Results (format a)
                               (map (assign_cluster (negb (no_cluster a))) results)
                               (negb (no_cluster a)) sums).
Proof.
  intros Hcut Hrecent.
  assert (Hnil : is_nil (filter (visited_since cutoff) docs) = false).
  { destruct (filter (visited_since cutoff) docs); [contradiction|reflexivity]. }
  destruct (tfidf_vectors_wf docs) as [vectors [Htfidf [Hlen Hwf]]].
  set (idx := index_docs docs).
  set (recent_docs := filter (visited_since cutoff) docs) in *.
  set (older_docs := filter (visited_before cutoff) docs).
  assert (Hvec : forall d, In d docs -> exists v, vector_of vectors idx d = Ok v).
  { intros d Hin. apply (vector_of_ok _ vectors docs d Hlen Hin). }
  destruct (mapM_ok _ _ (vector_of vectors idx) recent_docs)
    as [recent_vectors Hrv].
  { intros d Hin. apply Hvec. apply (filter_incl_in _ _ _ _ Hin). }
  destruct (aggregate_vector_ok R Exact recent_vectors) as [interest Hagg].
  set (vec := fun d => match vector_of vectors idx d with
                       | Ok v => v
                       | Raise _ => []
                       end).
  assert (Hscore : score_candidates interest vectors idx older_docs
                   = Ok (filter (fun sd => Rltb 0 (fst sd))
                                (map (fun d => (similarity interest (vec d), d))
                                     older_docs))).
  { apply score_candidates_exact. intros d Hin.
    destruct (Hvec d (filter_incl_in _ _ _ _ Hin)) as [v Hv].
    unfold vec. rewrite Hv. reflexivity. }
  set (scored := filter (fun sd : R * doc => Rltb 0 (fst sd))
                        (map (fun d => (similarity interest (vec d), d))
                             older_docs)) in *.
  assert (Hdocs : forall sd, In sd scored -> In (snd sd) docs).
  { intros [s d] Hin. unfold scored in Hin.
    apply filter_In in Hin as [Hin _].
    apply in_map_iff in Hin as [d' [[= _ ->] Hin]].
    apply (filter_incl_in _ _ _ _ Hin). }
  clearbody scored.
  pose proof (py_sort_reverse_perm _ (fun x y : R * doc => Rltb (fst x) (fst y))
                                   scored) as Hperm.
  change (Permutation (sort_scored scored) scored) in Hperm.
  destruct (collect_results_spec ext fs a interest vectors idx
                                 (sort_scored scored) [] [])
    as [results [Hcollect [Hrows Hne]]].
  { intros sd Hin. apply Hvec. apply Hdocs.
    apply (Permutation_in _ Hperm). exact Hin. }
  cbn [app] in Hcollect.
  assert (Hempty : results = [] <-> scored = []).
  { split.
    - intros ->. destruct (sort_scored scored) as [|sd rest] eqn:Hss.
      + apply Permutation_nil. exact Hperm.
      + exfalso. apply (Hne eq_refl); [discriminate | reflexivity].
    - intros Hsc. rewrite Hsc in Hcollect. cbn in Hcollect. congruence. }
  assert (Hsum : exists sums,
             (if negb (no_cluster a)
              then build_cluster_summary
                     (map (assign_cluster (negb (no_cluster a))) results) 5
                   = Ok sums
              else sums = [])).
  { destruct (negb (no_cluster a)); [|eauto].
    destruct (build_cluster_summary_spec
                (map (assign_cluster true) results) 5) as [sums [Hs _]]; [|eauto].
    apply Forall_forall. intros r Hin.
    apply in_map_iff in Hin as [r0 [<- _]].
    destruct (assign_cluster_label true r0) as [Hl _]. rewrite Hl. discriminate. }
  destruct Hsum as [sums Hsum].
  exists vectors, interest, scored, results, sums.
  split; [exact Htfidf|]. split; [exact Hwf|]. split; [exact Hscore|].
  split; [exact Hcollect|]. split; [exact Hrows|]. split; [exact Hempty|].
  split; [exact Hsum|].
  unfold pipeline. rewrite Hcut. cbn [lift flow_bind]. cbv zeta.
  fold recent_docs. fold older_docs. fold idx.
  rewrite Hnil, Htfidf. cbn [lift flow_bind].
  rewrite Hrv. cbn [lift flow_bind]. rewrite Hagg. cbn [lift flow_bind].
  rewrite Hscore. cbn [lift flow_bind]. rewrite Hcollect. cbn [lift flow_bind].
  destruct results as [|r0 results']; [reflexivity|].
  cbn [is_nil]. cbn [is_nil] in Hsum.
  destruct (negb (no_cluster a)).
  - rewrite Hsum. reflexivity.
  - rewrite Hsum. reflexivity.
Qed.

(** ** Runs of [main] *)

Example sample_stage_docs :
  stage_docs sample_ext sample_args sample_rows = Go sample_docs.
Proof. vm_compute. reflexivity. Qed.

Example sample_stage_filter :
  stage_filter sample_ext sample_args sample_docs = Go sample_docs.
Proof. vm_compute. reflexivity. Qed.

(** [main] as a composition of its stages. *)
Lemma run_main (F : Type) (N : Num F) (L : Log F) (ext : Externals)
      (fs : F -> string) (a : args) (rows : list row) (w : world) :
  run w (main ext fs a rows)
  = match stage_docs ext a rows with
    | Halt o => o
    | Go docs0 =>
        match run w (stage_since ext a docs0) with
        | Halt o => o
        | Go docs1 =>
            match stage_filter ext a docs1 with
            | Halt o => o
            | Go docs => pipeline ext fs a docs (clock w)
            end
        end
    end.
Proof.
  unfold main. destruct (stage_docs ext a rows) as [docs0|o]; [|reflexivity].
  rewrite run_io_bind.
  destruct (run w (stage_since ext a docs0)) as [docs1|o]; [|reflexivity].
  destruct (stage_filter ext a docs1) as [docs|o]; reflexivity.
Qed.

Example sample_pipeline_later :
  pipeline (F := R) sample_ext (fun _ => "") sample_args sample_docs
           (clock later_world)
  = Returned 1 (Message "Not enough recent history to build an interest profile.").
Proof. vm_compute. reflexivity. Qed.




(** A run that returns does so with exit code 1 and a message, or with exit
    code 0 and a non-empty list of results. *)
Lemma main_returns (ext : Externals) (fs : R -> string) (a : args)
      (rows : list row) (w : world) (code : Z) (out : printed) :
  run w (main ext fs a rows) = Returned code out ->
  (code = 1%Z /\ exists s, out = Message s)
  \/ (code = 0%Z
      /\ exists rs sums,
          rs <> [] /\ out = Results (format a) rs (negb (no_cluster a)) sums).
Proof.
  rewrite run_main. unfold stage_docs.
  destruct (is_nil rows); [intros [= <- <-]; left; split; [reflexivity|eexists; reflexivity]|].
  destruct (build_docs ext rows) as [docs|e]; cbn [lift flow_bind];
    [|discriminate].
  set (docs0 := filter (fun d => (min_visits a <=? doc_visit_count d)%Z) docs).
  assert (Hsince : (exists docs1, run w (stage_since ext a docs0) = Go docs1)
                   \/ (exists s, run w (stage_since ext a docs0)
                                 = Halt (Returned 1 (Message s)))
                   \/ (exists e, run w (stage_since ext a docs0)
                                 = Halt (Uncaught e))).
  { unfold stage_since. destruct (since a) as [s|]; [|left; eexists; reflexivity].
    destruct (str_is_empty s); [left; eexists; reflexivity|].
    destruct (strptime_ymd ext s) as [t|]; [|right; left; eexists; reflexivity].
    cbn [run]. destruct (datetime_of (t - local_offset w)) as [u|e];
      cbn [lift flow_bind]; [left; eexists; reflexivity | right; right; eexists; reflexivity]. }
  destruct Hsince as [[docs1 ->]|[[s ->]|[e ->]]];
    [|intros [= <- <-]; left; split; [reflexivity|eexists; reflexivity]|discriminate].
  unfold stage_filter.
  assert (Hpat : (exists pat, exclusion_patterns ext a = Go pat)
                 \/ (exists s, exclusion_patterns ext a
                               = Halt (Returned 1 (Message s)))
                 \/ (exists e, exclusion_patterns ext a = Halt (Uncaught e))).
  { unfold exclusion_patterns.
    destruct (exclude_url_pattern a) as [p|]; [|left; eexists; reflexivity].
    destruct (str_is_empty p); [left; eexists; reflexivity|].
    destruct (re_compile ext p true) as [user|e]; [|right; left; eexists; reflexivity].
    destruct (String.eqb _ "$^"); [left; eexists; reflexivity|].
    destruct (re_compile ext _ true) as [merged|e]; cbn [lift];
      [left; eexists; reflexivity | right; right; eexists; reflexivity]. }
  destruct Hpat as [[pat ->]|[[s ->]|[e ->]]]; cbn [flow_bind];
    [|intros [= <- <-]; left; split; [reflexivity|eexists; reflexivity]|discriminate].
  cbv zeta.
  destruct (is_nil (filter _ docs1)); [intros [= <- <-]; left; split; [reflexivity|eexists; reflexivity]|].
  set (docs2 := filter _ docs1).
  destruct (datetime_of (clock w - recent_days a * microseconds_per_day)%Z)
    as [cutoff|e] eqn:Hcut.
  - destruct (filter (visited_since cutoff) docs2) as [|d0 recent] eqn:Hrecent.
    + unfold pipeline. rewrite Hcut. cbn [lift flow_bind]. cbv zeta.
      rewrite Hrecent. cbn [is_nil finish]. intros [= <- <-]. left. split; [reflexivity|eexists; reflexivity].
    + destruct (pipeline_exact ext fs a docs2 (clock w) cutoff Hcut)
        as [vectors [interest [scored [results [sums [_ [_ [_ [_ [_ [_ [_ Hp]]]]]]]]]]]].
      { rewrite Hrecent. discriminate. }
      rewrite Hp. destruct results as [|r results]; cbn [is_nil].
      * intros [= <- <-]. left. split; [reflexivity|eexists; reflexivity].
      * intros [= <- <-]. right. split; [reflexivity|].
        eexists. eexists. split; [|reflexivity]. discriminate.
  - unfold pipeline. rewrite Hcut. cbn [lift flow_bind finish]. discriminate.
Qed.





(* ===================================================================== *)
(** * Further properties *)
(* ===================================================================== *)

(** ** The tokenizer and separators *)

Lemma str_map_append (f : ascii -> ascii) (s t : string) :
  str_map f (String.append s t) = String.append (str_map f s) (str_map f t).
Proof. induction s as [|c s IH]; simpl; [reflexivity|]. rewrite IH. reflexivity. Qed.

(** Cutting a text at a character outside the class cuts its pieces. *)
Lemma pieces_append (p : ascii -> bool) (s t : string) (c : ascii) :
  p c = false ->
  pieces p (String.append s (String c t)) = pieces p s ++ pieces p t.
Proof.
  intros Hc. induction s as [|x s IH]; simpl.
  - rewrite Hc. reflexivity.
  - rewrite IH. destruct (p x); [|reflexivity].
    pose proof (pieces_count p s) as Hn.
    destruct (pieces p s) as [|r rs]; [discriminate|reflexivity].
Qed.

Lemma tokenize_spec_nonempty (s : string) :
  tokenize (Some s)
  = filter (fun t => negb (mem t STOPWORDS)) (long_runs (lower s)).
Proof.
  unfold tokenize. destruct s as [|c s]; [reflexivity|].
  cbn [str_is_empty]. rewrite findall_long_runs. reflexivity.
Qed.

(** X1.  Tokenizing two texts joined by a character that is not a letter or
    digit gives the tokens of the first followed by the tokens of the
    second: no token spans the separator and none is lost. *)
Theorem tokenize_append (s t : string) (c : ascii) :
  is_token_char (lower_char c) = false ->
  tokenize (Some (String.append s (String c t)))
  = tokenize (Some s) ++ tokenize (Some t).
Proof.
  intros Hc. rewrite !tokenize_spec_nonempty. unfold long_runs, lower.
  rewrite str_map_append. cbn [str_map].
  rewrite (pieces_append is_token_char _ _ _ Hc), !filter_app. reflexivity.
Qed.

Lemma tokenize_append_witness :
  tokenize (Some (String.append "Rust memory" (String " " "safety guide")))
  = tokenize (Some "Rust memory") ++ tokenize (Some "safety guide").
Proof. apply tokenize_append. reflexivity. Defined.

Lemma lower_char_idempotent (c : ascii) : lower_char (lower_char c) = lower_char c.
Proof.
  destruct c as [b0 b1 b2 b3 b4 b5 b6 b7].
  destruct b0, b1, b2, b3, b4, b5, b6, b7; reflexivity.
Qed.

Lemma lower_idempotent (s : string) : lower (lower s) = lower s.
Proof.
  unfold lower. induction s as [|c s IH]; simpl; [reflexivity|].
  rewrite lower_char_idempotent, IH. reflexivity.
Qed.

Lemma lower_replace_slash (s : string) :
  lower (replace_char "/" " " s) = replace_char "/" " " (lower s).
Proof.
  unfold lower, replace_char. induction s as [|c s IH]; simpl; [reflexivity|].
  rewrite IH. f_equal.
  destruct c as [b0 b1 b2 b3 b4 b5 b6 b7].
  destruct b0, b1, b2, b3, b4, b5, b6, b7; reflexivity.
Qed.

(** Replacing characters outside the class by others outside the class
    leaves the pieces as they are. *)
Lemma pieces_str_map (p : ascii -> bool) (f : ascii -> ascii) (s : string) :
  (forall c, p c = true -> f c = c) ->
  (forall c, p c = false -> p (f c) = false) ->
  pieces p (str_map f s) = pieces p s.
Proof.
  intros Hin Hout. induction s as [|c s IH]; simpl; [reflexivity|].
  rewrite IH. destruct (p c) eqn:Hc.
  - rewrite (Hin c Hc), Hc. reflexivity.
  - rewrite (Hout c Hc). reflexivity.
Qed.

(** X2.  [tokenize] does not depend on the case of its input, and the
    replacement of ["/"] by a space that [build_docs] applies to the path
    does not change the tokens. *)
Theorem tokenize_case_and_slashes (s : string) :
  tokenize (Some (lower s)) = tokenize (Some s)
  /\ tokenize (Some (replace_char "/" " " s)) = tokenize (Some s).
Proof.
  rewrite !tokenize_spec_nonempty. split.
  - rewrite lower_idempotent. reflexivity.
  - rewrite lower_replace_slash. unfold long_runs, replace_char.
    rewrite pieces_str_map; [reflexivity| |].
    + intros c Hc. destruct (Ascii.eqb_spec c "/") as [->|_]; [discriminate|reflexivity].
    + intros c Hc. destruct (Ascii.eqb_spec c "/") as [->|_]; [reflexivity|exact Hc].
Qed.

(** ** The interest aggregate *)

Section AddScaled.
Context {F : Type} `{Num F}.

Lemma add_scaled_cons (agg : vector F) (kv : string * F) (vec : vector F) (w : F) :
  add_scaled agg (kv :: vec) w
  = add_scaled (dict_set agg (fst kv)
                         (fadd (dict_get_default agg (fst kv) fzero)
                               (fmul (snd kv) w)))
               vec w.
Proof. reflexivity. Qed.

Lemma add_scaled_keys (vec : vector F) :
  forall (agg : vector F) (w : F) (k : string),
    In k (dict_keys (add_scaled agg vec w))
    <-> In k (dict_keys agg) \/ In k (dict_keys vec).
Proof.
  induction vec as [|[k0 v0] vec IH]; intros agg w k.
  - simpl. tauto.
  - rewrite add_scaled_cons, IH, dict_set_in_keys. simpl. intuition.
Qed.

Lemma add_scaled_wf (vec : vector F) :
  forall (agg : vector F) (w : F),
    dict_wf agg -> dict_wf (add_scaled agg vec w).
Proof.
  induction vec as [|[k0 v0] vec IH]; intros agg w Hwf; [exact Hwf|].
  rewrite add_scaled_cons. apply IH. apply dict_set_wf. exact Hwf.
Qed.

(** With no weights every vector is added with weight 1. *)
Lemma aggregate_vector_unweighted (vectors : list (vector F)) :
  aggregate_vector vectors None
  = Ok (fold_left (fun agg v => add_scaled agg v fone) vectors []).
Proof.
  unfold aggregate_vector.
  assert (Hgen : forall (s : nat) (acc : vector F),
             foldM (fun agg iv =>
                      w <- weight_at None (fst iv) ;;
                      Ok (add_scaled agg (snd iv) w))
                   (combine (seq s (List.length vectors)) vectors) acc
             = Ok (fold_left (fun agg v => add_scaled agg v fone) vectors acc)).
  { induction vectors as [|v vectors IH]; intros s acc; [reflexivity|].
    cbn [List.length seq combine foldM weight_at bind fst snd fold_left].
    apply IH. }
  apply Hgen.
Qed.

Lemma aggregate_vector_raises (ws : list F) :
  ws <> [] ->
  forall (vectors : list (vector F)) (s : nat) (acc : vector F),
    (s <= List.length ws < s + List.length vectors)%nat ->
    foldM (fun agg iv =>
             w <- weight_at (Some ws) (fst iv) ;;
             Ok (add_scaled agg (snd iv) w))
          (combine (seq s (List.length vectors)) vectors) acc
    = Raise IndexError.
Proof.
  intros Hne. induction vectors as [|v vectors IH]; intros s acc Hs.
  - simpl in Hs. lia.
  - cbn [List.length seq combine foldM fst snd].
    unfold weight_at at 1. destruct ws as [|w0 ws'] eqn:Hws; [contradiction|].
    rewrite <- Hws in *. unfold list_index.
    destruct (nth_error ws s) as [w|] eqn:Hn.
    + cbn [bind]. apply IH.
      assert (s < List.length ws)%nat
        by (apply nth_error_Some; congruence).
      simpl in Hs. lia.
    + reflexivity.
Qed.
End AddScaled.

Lemma weight_set (v : vector R) (k k' : string) (x : R) :
  weight (dict_set v k x) k' = if String.eqb k k' then x else weight v k'.
Proof.
  unfold weight, dict_get_default. rewrite dict_get_set.
  cbn [key_eqb Key_string]. destruct (String.eqb k k'); reflexivity.
Qed.

Lemma add_scaled_weight (vec : vector R) :
  forall (agg : vector R) (w : R) (k : string),
    dict_wf vec ->
    weight (add_scaled agg vec w) k = weight agg k + weight vec k * w.
Proof.
  induction vec as [|[k0 v0] vec IH]; intros agg w k Hwf.
  - simpl. unfold weight at 3, dict_get_default. simpl. lra.
  - inversion Hwf as [|? ? Hnin Hwf']; subst.
    rewrite add_scaled_cons, (IH _ _ _ Hwf'). cbn [fst snd fadd fmul fzero Exact].
    rewrite weight_set, weight_cons. fold (weight agg k0).
    destruct (String.eqb_spec k0 k) as [->|Hne]; [|reflexivity].
    rewrite (weight_absent vec k Hnin). lra.
Qed.

(** X3.  Called without weights, [aggregate_vector] returns the sum of the
    vectors: its tokens are the tokens of the vectors, each once, and the
    weight of a token is the sum of its weights in the vectors. *)
Theorem aggregate_vector_sum (vectors : list (vector R)) :
  Forall (fun v => dict_wf v) vectors ->
  exists agg,
    aggregate_vector vectors None = Ok agg
    /\ dict_wf agg
    /\ (forall k, weight agg k = Rsum (map (fun v => weight v k) vectors))
    /\ (forall k, In k (dict_keys agg)
                  <-> exists v, In v vectors /\ In k (dict_keys v)).
Proof.
  intros Hwf. rewrite aggregate_vector_unweighted. eexists. split; [reflexivity|].
  assert (Hgen : forall acc : vector R,
             dict_wf acc ->
             dict_wf (fold_left (fun agg v => add_scaled agg v fone) vectors acc)
             /\ (forall k,
                    weight (fold_left (fun agg v => add_scaled agg v fone)
                                      vectors acc) k
                    = weight acc k + Rsum (map (fun v => weight v k) vectors))
             /\ (forall k,
                    In k (dict_keys (fold_left (fun agg v => add_scaled agg v fone)
                                               vectors acc))
                    <-> In k (dict_keys acc)
                        \/ exists v, In v vectors /\ In k (dict_keys v))).
  { induction Hwf as [|v vectors Hv Hvs IH]; intros acc Hacc.
    - cbn [fold_left map Rsum fold_right]. split; [exact Hacc|]. split.
      + intros k. lra.
      + intros k. split; [auto|]. intros [Hin|[v [[] _]]]. exact Hin.
    - cbn [fold_left].
      destruct (IH (add_scaled acc v fone) (add_scaled_wf v acc fone Hacc))
        as [Hw [Hsum Hkeys]].
      split; [exact Hw|]. split.
      + intros k. rewrite Hsum, (add_scaled_weight v acc fone k Hv).
        cbn [map Rsum fold_right fone Exact]. fold (Rsum (map (fun v => weight v k) vectors)).
        lra.
      + intros k. rewrite Hkeys, add_scaled_keys. split.
        * intros [[Hin|Hin]|[v' [Hin Hk]]].
          -- now left.
          -- right. exists v. split; [now left|exact Hin].
          -- right. exists v'. split; [now right|exact Hk].
        * intros [Hin|[v' [[<-|Hin] Hk]]].
          -- left. now left.
          -- left. now right.
          -- right. exists v'. split; assumption. }
  destruct (Hgen [] (NoDup_nil _)) as [Hw [Hsum Hkeys]].
  split; [exact Hw|]. split.
  - intros k. rewrite Hsum. unfold weight at 1, dict_get_default. simpl. lra.
  - intros k. rewrite Hkeys. simpl. tauto.
Qed.

Lemma aggregate_vector_sum_witness :
  exists agg,
    aggregate_vector [[("rust", 2)]; [("rust", 1); ("memory", 3)]] None = Ok agg
    /\ dict_wf agg
    /\ (forall k, weight agg k
                  = Rsum (map (fun v => weight v k)
                              [[("rust", 2)]; [("rust", 1); ("memory", 3)]]))
    /\ (forall k, In k (dict_keys agg)
                  <-> exists v, In v [[("rust", 2)]; [("rust", 1); ("memory", 3)]]
                                /\ In k (dict_keys v)).
Proof.
  apply aggregate_vector_sum.
  repeat constructor; simpl; intuition discriminate.
Defined.

(** X4.  A weights list that is not empty and shorter than the list of
    vectors makes [aggregate_vector] raise [IndexError], whatever the
    vectors hold; an empty weights list counts as no weights at all. *)
Theorem aggregate_vector_weights (F : Type) (N : Num F)
        (vectors : list (vector F)) (ws : list F) :
  ws <> [] -> (List.length ws < List.length vectors)%nat ->
  aggregate_vector vectors (Some ws) = Raise IndexError
  /\ aggregate_vector vectors (Some []) = aggregate_vector vectors None.
Proof.
  intros Hne Hlen. split; [|reflexivity].
  unfold aggregate_vector. apply aggregate_vector_raises; [exact Hne|lia].
Qed.

Lemma aggregate_vector_weights_witness :
  aggregate_vector (H := Exact) [[("rust", 2)]; []] (Some [1]) = Raise IndexError
  /\ aggregate_vector (H := Exact) [[("rust", 2)]; []] (Some [])
     = aggregate_vector [[("rust", 2)]; []] None.
Proof.
  apply aggregate_vector_weights; [discriminate | simpl; lia].
Defined.

(** ** The index of documents *)

Lemma index_fold_other (l : list doc) :
  forall (s : nat) (acc : dict Z nat) (k : Z),
    ~ In k (map doc_id l) ->
    dict_get (fold_left (fun idx id => dict_set idx (doc_id (snd id)) (fst id))
                        (combine (seq s (List.length l)) l) acc) k
    = dict_get acc k.
Proof.
  induction l as [|d l IH]; intros s acc k Hnin; [reflexivity|].
  cbn [List.length seq combine fold_left fst snd].
  rewrite IH by (intros Hin; apply Hnin; now right).
  rewrite dict_get_set. rewrite key_eqb_neq; [reflexivity|].
  intros Heq. apply Hnin. left. exact Heq.
Qed.

(** The entry of an id is the position of the last document with that id. *)
Lemma index_docs_last (l1 l2 : list doc) (d : doc) :
  ~ In (doc_id d) (map doc_id l2) ->
  dict_get (index_docs (l1 ++ d :: l2)) (doc_id d) = Some (List.length l1).
Proof.
  intros Hnin. unfold index_docs.
  assert (Hgen : forall (s : nat) (acc : dict Z nat),
             dict_get
               (fold_left (fun idx id => dict_set idx (doc_id (snd id)) (fst id))
                          (combine (seq s (List.length (l1 ++ d :: l2)))
                                   (l1 ++ d :: l2)) acc) (doc_id d)
             = Some (s + List.length l1)%nat).
  { induction l1 as [|x l1 IH]; intros s acc.
    - cbn [app List.length seq combine fold_left fst snd].
      rewrite (index_fold_other l2 (S s) _ (doc_id d) Hnin), dict_get_set.
      rewrite key_eqb_refl. f_equal. lia.
    - cbn [app List.length seq combine fold_left fst snd].
      rewrite IH. f_equal. lia. }
  rewrite Hgen. reflexivity.
Qed.

(** X5.  [vectors[doc_index[d["id"]]]] is the vector at the position of the
    last document that has the id of [d]: when an id occurs twice, the
    earlier document is scored and explained with the vector of the later
    one. *)
Theorem vector_of_last_id (F : Type) (vectors : list (vector F))
        (l1 l2 : list doc) (d d' : doc) :
  doc_id d' = doc_id d ->
  ~ In (doc_id d) (map doc_id l2) ->
  vector_of vectors (index_docs (l1 ++ d :: l2)) d'
  = list_index vectors (List.length l1).
Proof.
  intros Hid Hnin. unfold vector_of, dict_lookup.
  rewrite Hid, (index_docs_last l1 l2 d Hnin). reflexivity.
Qed.

Lemma vector_of_last_id_witness :
  vector_of [[("rust", 1%R)]; [("ownership", 1%R)]]
            (index_docs ([sample_recent] ++ sample_recent :: [])) sample_recent
  = list_index [[("rust", 1%R)]; [("ownership", 1%R)]] (List.length [sample_recent]).
Proof.
  apply vector_of_last_id; [reflexivity | simpl; tauto].
Defined.

(** X6.  When the ids of the documents are pairwise distinct, every
    document is looked up at its own position, so it gets the vector that
    [tfidf_vectors] computed for it. *)
Theorem vector_of_own_position (F : Type) (vectors : list (vector F))
        (docs : list doc) (i : nat) (d : doc) :
  NoDup (map doc_id docs) ->
  nth_error docs i = Some d ->
  vector_of vectors (index_docs docs) d = list_index vectors i.
Proof.
  intros Hnd Hnth.
  destruct (nth_error_split docs i Hnth) as [l1 [l2 [-> Hlen]]].
  unfold vector_of, dict_lookup.
  rewrite (index_docs_last l1 l2 d), Hlen; [reflexivity|].
  rewrite map_app in Hnd. apply NoDup_remove_2 in Hnd.
  intros Hin. apply Hnd. apply in_or_app. now right.
Qed.

Lemma vector_of_own_position_witness :
  vector_of [[("rust", 1%R)]; [("ownership", 1%R)]]
            (index_docs sample_docs) sample_older
  = list_index [[("rust", 1%R)]; [("ownership", 1%R)]] 1.
Proof.
  apply vector_of_own_position.
  - simpl. repeat constructor; simpl; intuition discriminate.
  - reflexivity.
Defined.

(** ** The result loop *)

Section ResultLoop.
Context {F : Type} `{Num F}.
Variable ext : Externals.
Variable format_score : F -> string.
Variable a : args.
Variable interest : vector F.
Variable vectors : list (vector F).
Variable doc_index : dict Z nat.

Lemma collect_results_trace :
  forall (scored : list (F * doc)) (results : list out_row)
         (seen : list string),
    (forall sd, In sd scored ->
                exists v, vector_of vectors doc_index (snd sd) = Ok v) ->
    exists extra,
      collect_results ext format_score a interest vectors doc_index
                      scored results seen
      = Ok (results ++ extra)
      /\ (Z.of_nat (List.length extra)
          <= Z.max 1 (limit a - Z.of_nat (List.length results)))%Z
      /\ (dedupe_host a = true ->
          NoDup (map r_host extra)
          /\ forall h, In h (map r_host extra) -> ~ In h seen)
      /\ (dedupe_host a = false ->
          map r_url extra
          = map (fun sd => doc_url (snd sd))
                (firstn (Z.to_nat (Z.max 1 (limit a - Z.of_nat (List.length results))))
                        scored)).
Proof.
  induction scored as [|[score d] rest IH]; intros results seen Hvec.
  - exists []. cbn [collect_results]. rewrite app_nil_r.
    split; [reflexivity|]. split; [simpl; lia|]. split.
    + intros _. split; [constructor|]. intros h [].
    + intros _. rewrite firstn_nil. reflexivity.
  - cbn [collect_results].
    destruct (dedupe_host a && mem (doc_host d) seen) eqn:Hdup.
    + apply andb_true_iff in Hdup as [Hdd Hmem].
      destruct (IH results seen) as [extra [Hrun [Hlen [Hded _]]]].
      { intros sd Hin. apply Hvec. now right. }
      exists extra. split; [exact Hrun|]. split; [exact Hlen|].
      split; [exact Hded|]. intros Hno. congruence.
    + destruct (Hvec (score, d) (or_introl eq_refl)) as [v Hv].
      cbn [snd] in Hv. rewrite Hv. cbn [bind].
      set (r := format_row ext format_score score d
                           (explain_doc interest v (explain_top a))).
      assert (Hlen1 : List.length (results ++ [r]) = S (List.length results)).
      { rewrite length_app. simpl. lia. }
      assert (Hfresh : dedupe_host a = true -> ~ In (doc_host d) seen).
      { intros Hdd Hin. rewrite Hdd in Hdup. cbn [andb] in Hdup.
        apply mem_In in Hin. congruence. }
      destruct (Z.leb_spec (limit a) (Z.of_nat (List.length (results ++ [r]))))
        as [Hstop|Hgo].
      * exists [r]. rewrite Hlen1 in Hstop.
        split; [reflexivity|]. split; [simpl; lia|]. split.
        -- intros Hdd. split; [repeat constructor; simpl; tauto|].
           intros h [<-|[]]. apply Hfresh. exact Hdd.
        -- intros _.
           replace (Z.to_nat (Z.max 1 (limit a - Z.of_nat (List.length results))))
             with 1%nat by lia.
           reflexivity.
      * destruct (IH (results ++ [r]) (doc_host d :: seen))
          as [extra [Hrun [Hlen [Hded Hurl]]]].
        { intros sd Hin. apply Hvec. now right. }
        rewrite Hlen1 in Hgo, Hlen, Hurl.
        exists (r :: extra). rewrite Hrun, <- app_assoc.
        split; [reflexivity|]. split; [simpl List.length; lia|]. split.
        -- intros Hdd. destruct (Hded Hdd) as [Hnd Hout]. split.
           ++ cbn [map]. constructor; [|exact Hnd].
              intros Hin. apply (Hout _ Hin). now left.
           ++ intros h [<-|Hin].
              ** apply Hfresh. exact Hdd.
              ** intros Hs. apply (Hout h Hin). now right.
        -- intros Hno. cbn [map]. rewrite (Hurl Hno).
           replace (Z.to_nat (Z.max 1 (limit a - Z.of_nat (List.length results))))
             with (S (Z.to_nat (Z.max 1 (limit a - Z.of_nat (S (List.length results))))))
             by lia.
           reflexivity.
Qed.
End ResultLoop.



(** ** What a recommendation shares with the recent history *)

Lemma similarity_pos_shared (a b : vector R) :
  0 < similarity a b ->
  exists k, In k (dict_keys a) /\ In k (dict_keys b).
Proof.
  intros Hpos.
  destruct (existsb (fun k => mem k (dict_keys b)) (dict_keys a)) eqn:Hex.
  - apply existsb_exists in Hex as [k [Hka Hkb]]. apply mem_In in Hkb. eauto.
  - exfalso.
    assert (Hd : disjoint a b).
    { intros k Hka Hkb.
      assert (existsb (fun k => mem k (dict_keys b)) (dict_keys a) = true).
      { apply existsb_exists. exists k. split; [exact Hka|apply mem_In, Hkb]. }
      congruence. }
    unfold similarity in Hpos. rewrite (dot_disjoint a b Hd) in Hpos.
    destruct (dict_is_empty a || dict_is_empty b); [lra|].
    destruct (Reqb (norm a) 0 || Reqb (norm b) 0); [lra|].
    unfold Rdiv in Hpos. rewrite Rmult_0_l in Hpos. lra.
Qed.

Lemma In_firstn (A : Type) (n : nat) (l : list A) (x : A) :
  In x (firstn n l) -> In x l.
Proof.
  revert l. induction n as [|n IH]; intros [|y l]; simpl; try tauto.
  intros [->|Hin]; [now left | right; apply IH, Hin].
Qed.

Lemma NoDup_firstn (A : Type) (n : nat) (l : list A) :
  NoDup l -> NoDup (firstn n l).
Proof.
  revert l. induction n as [|n IH]; intros l Hnd; [constructor|].
  destruct l as [|x l]; [constructor|]. cbn [firstn].
  inversion Hnd as [|? ? Hnin Hnd']; subst. constructor; [|apply IH, Hnd'].
  intros Hin. apply Hnin. apply (In_firstn _ _ _ _ Hin).
Qed.

(** The tokens of an explanation, taken apart. *)
Lemma explain_doc_tokens (interest_vec doc_vec : vector R) (topn : Z) :
  dict_wf doc_vec ->
  NoDup (explain_doc interest_vec doc_vec topn)
  /\ forall t, In t (explain_doc interest_vec doc_vec topn) ->
               In t (dict_keys doc_vec)
               /\ In t (dict_keys interest_vec)
               /\ 0 < weight doc_vec t * weight interest_vec t.
Proof.
  intros Hwf. rewrite explain_doc_unfold. cbn [feqb fltb Exact].
  destruct (ranked_contributions_exact interest_vec doc_vec Hwf)
    as [Hin [Hnd _]].
  split.
  - rewrite <- firstn_map. apply NoDup_firstn. exact Hnd.
  - intros t Ht. apply in_map_iff in Ht as [[c t'] [Heq Ht]].
    cbn [snd] in Heq. subst t'. apply In_firstn in Ht.
    apply Hin in Ht as [Hk [-> Hpos]]. split; [exact Hk|]. split; [|exact Hpos].
    destruct (in_dec string_dec t (dict_keys interest_vec)) as [Hi|Hi]; [exact Hi|].
    rewrite (weight_absent interest_vec t Hi) in Hpos. lra.
Qed.

(** X8.  The tokens that [explain_doc] returns are pairwise distinct, and
    each of them is a token of the candidate vector and of the interest
    vector, with a positive product of the two weights. *)
Theorem explain_doc_shared_tokens (interest_vec doc_vec : vector R) (topn : Z)
        (t : string) :
  dict_wf doc_vec ->
  In t (explain_doc interest_vec doc_vec topn) ->
  NoDup (explain_doc interest_vec doc_vec topn)
  /\ In t (dict_keys doc_vec)
  /\ In t (dict_keys interest_vec)
  /\ 0 < weight doc_vec t * weight interest_vec t
  /\ (0 < topn)%Z.
Proof.
  intros Hwf Hin.
  destruct (explain_doc_tokens interest_vec doc_vec topn Hwf) as [Hnd Hall].
  destruct (Hall t Hin) as [Hd [Hi Hpos]].
  repeat split; try assumption.
  unfold explain_doc in Hin. destruct (Z.leb_spec topn 0); [contradiction|lia].
Qed.

Lemma explain_doc_shared_tokens_witness :
  NoDup (explain_doc [("rust", 2)] [("rust", 1); ("guide", 1)] 3)
  /\ In "rust" (dict_keys [("rust", 1); ("guide", 1)])
  /\ In "rust" (dict_keys [("rust", 2)])
  /\ 0 < weight [("rust", 1); ("guide", 1)] "rust" * weight [("rust", 2)] "rust"
  /\ (0 < 3)%Z.
Proof.
  apply explain_doc_shared_tokens.
  - unfold dict_wf. simpl. repeat constructor; simpl; intuition discriminate.
  - rewrite explain_doc_unfold. cbn [feqb fltb Exact Z.to_nat Pos.to_nat].
    apply in_map_iff. exists (1 * 2, "rust"). split; [reflexivity|].
    assert (Hin : In (1 * 2, "rust")
                     (py_sort_reverse (tuple_ltb Reqb Rltb)
                        (contributions [("rust", 2)] [("rust", 1); ("guide", 1)]))).
    { apply (Permutation_in _ (Permutation_sym (py_sort_reverse_perm _ _ _))).
      unfold contributions. apply filter_In. split.
      - left. unfold dict_get_default. simpl. reflexivity.
      - cbn [fst fltb fzero Exact]. apply Rltb_true. lra. }
    assert (Hlen : Nat.le
                     (List.length
                        (py_sort_reverse (tuple_ltb Reqb Rltb)
                           (contributions [("rust", 2)] [("rust", 1); ("guide", 1)])))
                     2%nat).
    { rewrite (Permutation_length (py_sort_reverse_perm _ _ _)).
      unfold contributions.
      eapply Nat.le_trans; [apply filter_length_le|]. simpl. lia. }
    rewrite firstn_all2; [exact Hin|]. simpl. lia.
Defined.

Lemma aggregate_keys (F : Type) (N : Num F) (vectors : list (vector F))
      (agg : vector F) (k : string) :
  aggregate_vector vectors None = Ok agg ->
  In k (dict_keys agg) <-> exists v, In v vectors /\ In k (dict_keys v).
Proof.
  rewrite aggregate_vector_unweighted. intros [= <-].
  assert (Hgen : forall acc : vector F,
             In k (dict_keys (fold_left (fun agg v => add_scaled agg v fone)
                                        vectors acc))
             <-> In k (dict_keys acc)
                 \/ exists v, In v vectors /\ In k (dict_keys v)).
  { induction vectors as [|v vectors IH]; intros acc; cbn [fold_left].
    - split; [auto|]. intros [Hin|[v [[] _]]]. exact Hin.
    - rewrite IH, add_scaled_keys. split.
      + intros [[Hin|Hin]|[v' [Hin Hk]]].
        * now left.
        * right. exists v. split; [now left|exact Hin].
        * right. exists v'. split; [now right|exact Hk].
      + intros [Hin|[v' [[<-|Hin] Hk]]].
        * left. now left.
        * left. now right.
        * right. exists v'. split; assumption. }
  rewrite Hgen. simpl. tauto.
Qed.

Lemma Forall2_at (A B : Type) (P : A -> B -> Prop) (xs : list A) (ys : list B) :
  Forall2 P xs ys ->
  forall i x, nth_error xs i = Some x ->
              exists y, nth_error ys i = Some y /\ P x y.
Proof.
  induction 1 as [|x0 y0 xs ys Hxy Hrest IH]; intros i x Hi.
  - destruct i; discriminate.
  - destruct i as [|i]; cbn in *.
    + injection Hi as <-. eauto.
    + apply IH. exact Hi.
Qed.

Lemma Forall2_right (A B : Type) (P : A -> B -> Prop) (xs : list A) (ys : list B) :
  Forall2 P xs ys -> forall y, In y ys -> exists x, In x xs /\ P x y.
Proof.
  induction 1 as [|x0 y0 xs ys Hxy Hrest IH]; intros y Hy; [contradiction|].
  destruct Hy as [<-|Hy].
  - exists x0. split; [now left|exact Hxy].
  - destruct (IH y Hy) as [x [Hx HP]]. exists x. split; [now right|exact HP].
Qed.

Lemma Forall2_left (A B : Type) (P : A -> B -> Prop) (xs : list A) (ys : list B) :
  Forall2 P xs ys -> forall x, In x xs -> exists y, In y ys /\ P x y.
Proof.
  induction 1 as [|x0 y0 xs ys Hxy Hrest IH]; intros x Hx; [contradiction|].
  destruct Hx as [<-|Hx].
  - exists y0. split; [now left|exact Hxy].
  - destruct (IH x Hx) as [y [Hy HP]]. exists y. split; [now right|exact HP].
Qed.

Lemma weight_pos (v : vector R) (k : string) :
  dict_wf v -> positive v -> In k (dict_keys v) -> 0 < weight v k.
Proof.
  intros Hwf Hpos Hk. destruct (dict_get_present v k Hk) as [x Hget].
  apply dict_get_some_in in Hget. rewrite (weight_present v k x Hwf Hget).
  unfold positive in Hpos. rewrite Forall_forall in Hpos.
  apply (Hpos (k, x) Hget).
Qed.

Lemma weight_nonneg (v : vector R) (k : string) : positive v -> 0 <= weight v k.
Proof.
  intros Hpos. unfold weight, dict_get_default.
  destruct (dict_get v k) as [x|] eqn:Hget; [|lra].
  apply dict_get_some_in in Hget.
  unfold positive in Hpos. rewrite Forall_forall in Hpos.
  apply Rlt_le, (Hpos (k, x) Hget).
Qed.

Lemma positive_entries (v : vector R) :
  dict_wf v -> (forall k, In k (dict_keys v) -> 0 < weight v k) -> positive v.
Proof.
  intros Hwf Hall. apply Forall_forall. intros [k x] Hin. cbn [snd].
  rewrite <- (weight_present v k x Hwf Hin). apply Hall.
  apply (in_map fst) in Hin. exact Hin.
Qed.

Lemma aggregate_positive (vectors : list (vector R)) (agg : vector R) :
  Forall (fun v => dict_wf v /\ positive v) vectors ->
  aggregate_vector vectors None = Ok agg ->
  dict_wf agg /\ positive agg.
Proof.
  intros Hall. rewrite aggregate_vector_unweighted. intros [= <-].
  assert (Hgen : forall acc : vector R,
             dict_wf acc ->
             (forall k, 0 <= weight acc k) ->
             (forall k, In k (dict_keys acc) -> 0 < weight acc k) ->
             let out := fold_left (fun agg v => add_scaled agg v fone)
                                  vectors acc in
             dict_wf out /\ (forall k, In k (dict_keys out) -> 0 < weight out k)).
  { induction Hall as [|v vectors [Hwf Hpos] Hrest IH]; intros acc Hacc Hge Hgt.
    - cbn. auto.
    - cbn [fold_left]. apply IH.
      + apply add_scaled_wf, Hacc.
      + intros k. rewrite (add_scaled_weight v acc fone k Hwf).
        cbn [fone Exact]. pose proof (Hge k). pose proof (weight_nonneg v k Hpos).
        lra.
      + intros k Hk. rewrite (add_scaled_weight v acc fone k Hwf).
        cbn [fone Exact]. pose proof (Hge k). pose proof (weight_nonneg v k Hpos).
        apply add_scaled_keys in Hk as [Hk|Hk].
        * pose proof (Hgt k Hk). lra.
        * pose proof (weight_pos v k Hwf Hpos Hk). lra. }
  destruct (Hgen [] (NoDup_nil _)) as [Hwf Hgt].
  - intros k. unfold weight, dict_get_default. cbn. lra.
  - intros k [].
  - split; [exact Hwf|]. apply positive_entries; assumption.
Qed.

Lemma Rsum_pos (xs : list R) :
  Forall (fun x => 0 <= x) xs -> Exists (fun x => 0 < x) xs -> 0 < Rsum xs.
Proof.
  intros Hall Hex. induction Hex as [x xs Hx|x xs Hex IH];
    inversion Hall as [|? ? Hx0 Hxs]; subst; cbn [Rsum fold_right].
  - pose proof (Rsum_nonneg xs Hxs). unfold Rsum in *. lra.
  - specialize (IH Hxs). unfold Rsum in IH. lra.
Qed.

Lemma norm_pos (v : vector R) : positive v -> v <> [] -> 0 < norm v.
Proof.
  intros Hpos Hne. unfold norm. apply sqrt_lt_R0. unfold sumsq.
  destruct v as [|[k x] v]; [contradiction|].
  inversion Hpos as [|? ? Hx Hv]; subst. cbn [snd] in Hx.
  cbn [map Rsum fold_right snd].
  assert (Hrest : 0 <= Rsum (map (fun kv : string * R => snd kv * snd kv) v)).
  { apply Rsum_nonneg. apply Forall_forall. intros y Hy.
    apply in_map_iff in Hy as [kv [<- _]]. nra. }
  unfold Rsum in Hrest. nra.
Qed.

(** Two vectors of positive weights that share a token have a positive
    cosine. *)
Lemma similarity_shared_pos (a b : vector R) (k : string) :
  positive a -> dict_wf b -> positive b ->
  In k (dict_keys a) -> In k (dict_keys b) ->
  0 < similarity a b.
Proof.
  intros Ha Hwfb Hb Hka Hkb. unfold similarity.
  assert (Hna : a <> []) by (intros ->; contradiction).
  assert (Hnb : b <> []) by (intros ->; contradiction).
  pose proof (norm_pos a Ha Hna) as Hpa. pose proof (norm_pos b Hb Hnb) as Hpb.
  destruct a as [|ka a']; [contradiction|].
  destruct b as [|kb b']; [contradiction|].
  cbn [dict_is_empty orb].
  destruct (Reqb (norm (ka :: a')) 0) eqn:Ea;
    [apply Reqb_true in Ea; lra|].
  destruct (Reqb (norm (kb :: b')) 0) eqn:Eb;
    [apply Reqb_true in Eb; lra|].
  cbn [orb]. apply Rdiv_lt_0_compat; [|apply Rmult_lt_0_compat; assumption].
  unfold dot. apply Rsum_pos.
  - apply Forall_forall. intros y Hy.
    apply in_map_iff in Hy as [[k' x] [<- Hin]]. cbn [fst snd].
    unfold positive in Ha. rewrite Forall_forall in Ha.
    pose proof (Ha (k', x) Hin) as Hx. cbn [snd] in Hx.
    pose proof (weight_nonneg (kb :: b') k' Hb). nra.
  - apply Exists_exists.
    apply in_map_iff in Hka as [[k' x] [Hk Hin]]. cbn [fst] in Hk. subst k'.
    exists (x * weight (kb :: b') k). split.
    + apply in_map_iff. exists (k, x). split; [reflexivity|exact Hin].
    + unfold positive in Ha. rewrite Forall_forall in Ha.
      pose proof (Ha (k, x) Hin) as Hx. cbn [snd] in Hx.
      pose proof (weight_pos (kb :: b') k Hwfb Hb Hkb). nra.
Qed.

Lemma tfidf_vectors_tokens (docs : list doc) :
  exists vectors : list (vector R),
    tfidf_vectors docs = Ok vectors
    /\ Forall2 (fun d v =>
                  dict_wf v
                  /\ (forall t, In t (dict_keys v) <-> In t (doc_tokens d))
                  /\ positive v)
               docs vectors.
Proof.
  unfold tfidf_vectors. apply mapM_Forall2.
  intros d _. destruct (tfidf_vector_of_doc docs d) as [v [Hv [Hwf [Hkeys Hw]]]].
  exists v. split; [exact Hv|]. split; [exact Hwf|]. split; [exact Hkeys|].
  apply Forall_forall. intros [t x] Hin. cbn [snd].
  rewrite (Hw t x Hin).
  assert (Ht : In t (doc_tokens d)).
  { apply Hkeys. apply (in_map fst) in Hin. exact Hin. }
  assert (Htf : 1 <= INR (tf t d)).
  { apply (le_INR 1). unfold tf. apply (count_occ_In string_dec) in Ht. lia. }
  pose proof (idf_ge_1 t docs). nra.
Qed.

Lemma vector_of_Forall2 (F : Type) (P : doc -> vector F -> Prop)
      (docs : list doc) (vectors : list (vector F)) (d : doc) :
  Forall2 P docs vectors ->
  NoDup (map doc_id docs) ->
  In d docs ->
  exists v, vector_of vectors (index_docs docs) d = Ok v /\ P d v.
Proof.
  intros Hall Hnd Hin.
  destruct (In_nth_error docs d Hin) as [i Hi].
  destruct (Forall2_at _ _ _ _ _ Hall i d Hi) as [v [Hv HP]].
  exists v. split; [|exact HP].
  destruct (nth_error_split docs i Hi) as [l1 [l2 [Hdocs Hlen]]].
  unfold vector_of, dict_lookup. rewrite Hdocs at 1.
  rewrite (index_docs_last l1 l2 d).
  - cbn [bind]. unfold list_index. rewrite Hlen, Hv. reflexivity.
  - rewrite Hdocs, map_app in Hnd. apply NoDup_remove_2 in Hnd.
    intros Hin2. apply Hnd. apply in_or_app. now right.
Qed.

(** [main] after the recency check, when the ids of the documents are
    pairwise distinct: the vectors hold the tokens of their documents with
    positive weights, the interest vector holds the tokens of the recent
    documents, and the scored candidates are the older documents with a
    positive cosine. *)
Lemma pipeline_trace (ext : Externals) (fs : R -> string) (a : args)
      (docs : list doc) (now cutoff : time) :
  datetime_of (now - recent_days a * microseconds_per_day)%Z = Ok cutoff ->
  filter (visited_since cutoff) docs <> [] ->
  NoDup (map doc_id docs) ->
  exists (vectors : list (vector R)) (interest : vector R)
         (scored : list (R * doc)) (results : list out_row)
         (sums : dict string summary),
    Forall2 (fun d v =>
               dict_wf v
               /\ (forall t, In t (dict_keys v) <-> In t (doc_tokens d))
               /\ positive v)
            docs vectors
    /\ (dict_wf interest /\ positive interest)
    /\ (forall k,
           In k (dict_keys interest) <->
           exists d, In d docs /\ visited_since cutoff d = true
                     /\ In k (doc_tokens d))
    /\ (forall s d,
           In (s, d) scored <->
           In d docs /\ visited_before cutoff d = true
           /\ exists v, vector_of vectors (index_docs docs) d = Ok v
                        /\ s = similarity interest v /\ 0 < s)
    /\ (List.length scored
        <= List.length (filter (visited_before cutoff) docs))%nat
    /\ collect_results ext fs a interest vectors (index_docs docs)
                       (sort_scored scored) [] [] = Ok results
    /\ pipeline ext fs a docs now
       = if is_nil results then
           Returned 1 (Message "No recommendations found.")
         else
           Returned 0 (Results (format a)
                               (map (assign_cluster (negb (no_cluster a))) results)
                               (negb (no_cluster a)) sums).
Proof.
  intros Hcut Hrecent Hnd.
  assert (Hnil : is_nil (filter (visited_since cutoff) docs) = false).
  { destruct (filter (visited_since cutoff) docs); [contradiction|reflexivity]. }
  destruct (tfidf_vectors_tokens docs) as [vectors [Htfidf Hall]].
  set (idx := index_docs docs).
  set (P := fun (d : doc) (v : vector R) =>
              dict_wf v
              /\ (forall t, In t (dict_keys v) <-> In t (doc_tokens d))
              /\ positive v).
  assert (Hvec : forall d, In d docs ->
                           exists v, vector_of vectors idx d = Ok v /\ P d v).
  { intros d Hin. apply (vector_of_Forall2 _ P docs vectors d Hall Hnd Hin). }
  destruct (mapM_Forall2 _ _ (vector_of vectors idx)
              (fun d v => vector_of vectors idx d = Ok v /\ P d v)
              (filter (visited_since cutoff) docs))
    as [recent_vectors [Hrv Hrecent2]].
  { intros d Hin. destruct (Hvec d (filter_incl_in _ _ _ _ Hin)) as [v [Hv HP]].
    exists v. auto. }
  destruct (aggregate_vector_ok R Exact recent_vectors) as [interest Hagg].
  assert (Hipos : dict_wf interest /\ positive interest).
  { apply (aggregate_positive recent_vectors interest); [|exact Hagg].
    apply Forall_forall. intros v Hv.
    destruct (Forall2_right _ _ _ _ _ Hrecent2 v Hv)
      as [d [_ [_ [Hwf [_ Hpos]]]]].
    split; assumption. }
  set (vec := fun d => match vector_of vectors idx d with
                       | Ok v => v
                       | Raise _ => []
                       end).
  assert (Hscore : score_candidates interest vectors idx
                                    (filter (visited_before cutoff) docs)
                   = Ok (filter (fun sd => Rltb 0 (fst sd))
                                (map (fun d => (similarity interest (vec d), d))
                                     (filter (visited_before cutoff) docs)))).
  { apply score_candidates_exact. intros d Hin.
    destruct (Hvec d (filter_incl_in _ _ _ _ Hin)) as [v [Hv _]].
    unfold vec. rewrite Hv. reflexivity. }
  set (scored := filter (fun sd : R * doc => Rltb 0 (fst sd))
                        (map (fun d => (similarity interest (vec d), d))
                             (filter (visited_before cutoff) docs))) in *.
  assert (Hsc : forall s d,
             In (s, d) scored <->
             In d docs /\ visited_before cutoff d = true
             /\ exists v, vector_of vectors idx d = Ok v
                          /\ s = similarity interest v /\ 0 < s).
  { intros s d. unfold scored. rewrite filter_In, in_map_iff. cbn [fst]. split.
    - intros [[d' [[= <- ->] Hin]] Hpos].
      apply Rltb_true in Hpos.
      apply filter_In in Hin as [Hin Hold].
      split; [exact Hin|]. split; [exact Hold|].
      destruct (Hvec d Hin) as [v [Hv _]]. exists v. split; [exact Hv|].
      unfold vec in *. rewrite Hv in *. split; [reflexivity|exact Hpos].
    - intros [Hin [Hold [v [Hv [-> Hpos]]]]]. split.
      + exists d. split; [|apply filter_In; auto].
        unfold vec. rewrite Hv. reflexivity.
      + apply Rltb_true. exact Hpos. }
  assert (Hlen : (List.length scored
                  <= List.length (filter (visited_before cutoff) docs))%nat).
  { unfold scored.
    rewrite <- (length_map (fun d => (similarity interest (vec d), d))
                           (filter (visited_before cutoff) docs)).
    apply filter_length_le. }
  clearbody scored.
  pose proof (py_sort_reverse_perm _ (fun x y : R * doc => Rltb (fst x) (fst y))
                                   scored) as Hperm.
  change (Permutation (sort_scored scored) scored) in Hperm.
  destruct (collect_results_spec ext fs a interest vectors idx
                                 (sort_scored scored) [] [])
    as [results [Hcollect _]].
  { intros [s d] Hin. cbn [snd]. apply (Permutation_in _ Hperm) in Hin.
    apply Hsc in Hin as [_ [_ [v [Hv _]]]]. eauto. }
  cbn [app] in Hcollect.
  assert (Hsum : exists sums,
             (if negb (no_cluster a)
              then build_cluster_summary
                     (map (assign_cluster (negb (no_cluster a))) results) 5
                   = Ok sums
              else sums = [])).
  { destruct (negb (no_cluster a)); [|eauto].
    destruct (build_cluster_summary_spec
                (map (assign_cluster true) results) 5) as [sums [Hs _]]; [|eauto].
    apply Forall_forall. intros r Hin.
    apply in_map_iff in Hin as [r0 [<- _]].
    destruct (assign_cluster_label true r0) as [Hl _]. rewrite Hl. discriminate. }
  destruct Hsum as [sums Hsum].
  exists vectors, interest, scored, results, sums.
  split; [exact Hall|]. split; [exact Hipos|].
  split; [|split; [exact Hsc|split; [exact Hlen|split; [exact Hcollect|]]]].
  - intros k. rewrite (aggregate_keys R Exact recent_vectors interest k Hagg).
    split.
    + intros [v [Hv Hk]].
      destruct (Forall2_right _ _ _ _ _ Hrecent2 v Hv)
        as [d [Hd [_ [_ [Hkeys _]]]]].
      apply filter_In in Hd as [Hd Hrec].
      exists d. split; [exact Hd|]. split; [exact Hrec|]. apply Hkeys. exact Hk.
    + intros [d [Hd [Hrec Hk]]].
      assert (Hin : In d (filter (visited_since cutoff) docs))
        by (apply filter_In; auto).
      destruct (Forall2_left _ _ _ _ _ Hrecent2 d Hin)
        as [v [Hv [_ [_ [Hkeys _]]]]].
      exists v. split; [exact Hv|]. apply Hkeys. exact Hk.
  - unfold pipeline. rewrite Hcut. cbn [lift flow_bind]. cbv zeta.
    fold idx. rewrite Hnil, Htfidf. cbn [lift flow_bind].
    rewrite Hrv. cbn [lift flow_bind]. rewrite Hagg. cbn [lift flow_bind].
    rewrite Hscore. cbn [lift flow_bind]. rewrite Hcollect. cbn [lift flow_bind].
    destruct results as [|r0 results']; [reflexivity|].
    cbn [is_nil]. cbn [is_nil] in Hsum.
    destruct (negb (no_cluster a)); rewrite Hsum; reflexivity.
Qed.

Lemma visited_before_not_since (t : time) (d : doc) :
  visited_before t d = negb (visited_since t d).
Proof.
  unfold visited_before, visited_since.
  destruct (doc_last_visit d) as [v|]; [|reflexivity].
  rewrite Z.leb_antisym, negb_involutive. reflexivity.
Qed.



(** ** The filters before the ranking *)

Lemma mapM_inv (A B : Type) (f : A -> result B) (xs : list A) (ys : list B) :
  mapM f xs = Ok ys -> Forall2 (fun x y => f x = Ok y) xs ys.
Proof.
  revert ys. induction xs as [|x xs IH]; intros ys; cbn [mapM].
  - intros [= <-]. constructor.
  - destruct (f x) as [y|e] eqn:Hy; cbn [bind]; [|discriminate].
    destruct (mapM f xs) as [ys'|e]; cbn [bind]; [|discriminate].
    intros [= <-]. constructor; [exact Hy|]. apply IH. reflexivity.
Qed.

Lemma score_candidates_sub (F : Type) (N : Num F) (interest : vector F)
      (vectors : list (vector F)) (idx : dict Z nat) :
  forall (older : list doc) (acc scored : list (F * doc)),
    foldM (fun scored d =>
             v <- vector_of vectors idx d ;;
             score <- cosine interest v ;;
             Ok (if fleb score fzero then scored else scored ++ [(score, d)]))
          older acc = Ok scored ->
    forall sd, In sd scored -> In sd acc \/ In (snd sd) older.
Proof.
  induction older as [|d older IH]; intros acc scored; cbn [foldM].
  - intros [= <-] sd Hin. now left.
  - destruct (vector_of vectors idx d) as [v|e]; cbn [bind]; [|discriminate].
    destruct (cosine interest v) as [score|e]; cbn [bind]; [|discriminate].
    intros Hrun sd Hin. destruct (IH _ _ Hrun sd Hin) as [Hacc|Hold].
    + destruct (fleb score fzero); [now left|].
      apply in_app_or in Hacc as [Hacc|[<-|[]]]; [now left|].
      right. now left.
    + right. now right.
Qed.

Lemma stage_docs_go (ext : Externals) (a : args) (rows : list row)
      (docs0 : list doc) :
  stage_docs ext a rows = Go docs0 ->
  forall d, In d docs0 ->
            (min_visits a <= doc_visit_count d)%Z
            /\ exists rw, In rw rows /\ build_doc ext rw = Ok d.
Proof.
  unfold stage_docs. destruct (is_nil rows); [discriminate|].
  destruct (build_docs ext rows) as [ds|e] eqn:Hb; cbn [lift flow_bind];
    [|discriminate].
  intros [= <-] d Hin. apply filter_In in Hin as [Hin Hmin].
  split; [apply Z.leb_le, Hmin|].
  apply mapM_inv in Hb.
  destruct (Forall2_right _ _ _ _ _ Hb d Hin) as [rw [Hrw Hd]]. eauto.
Qed.

Lemma stage_since_go (ext : Externals) (a : args) (w : world)
      (docs0 docs1 : list doc) :
  run w (stage_since ext a docs0) = Go docs1 ->
  forall d, In d docs1 ->
            In d docs0
            /\ forall s t,
                since a = Some s -> str_is_empty s = false ->
                strptime_ymd ext s = Some t ->
                visited_since (t - local_offset w)%Z d = true.
Proof.
  unfold stage_since. destruct (since a) as [s|].
  - destruct (str_is_empty s) eqn:Hs.
    + intros [= <-] d Hin. split; [exact Hin|].
      intros s' t [= <-] Hs'. congruence.
    + destruct (strptime_ymd ext s) as [t|] eqn:Ht; cbn [run]; [|discriminate].
      unfold datetime_of.
      destruct ((datetime_min <=? t - local_offset w)
                && (t - local_offset w <=? datetime_max))%Z;
        cbn [lift flow_bind]; [|discriminate].
      intros [= <-] d Hin. apply filter_In in Hin as [Hin Hv].
      split; [exact Hin|]. intros s' t' [= <-] _ Ht'.
      rewrite Ht in Ht'. injection Ht' as <-. exact Hv.
  - intros [= <-] d Hin. split; [exact Hin|]. discriminate.
Qed.

Lemma stage_filter_go (ext : Externals) (a : args) (docs1 docs : list doc) :
  stage_filter ext a docs1 = Go docs ->
  docs <> []
  /\ exists pat,
      exclusion_patterns ext a = Go pat
      /\ forall d, In d docs ->
                   In d docs1
                   /\ ~ In (lower (doc_host d)) (exclusion_hosts a)
                   /\ re_search ext pat (doc_url d) = false
                   /\ re_search ext pat (doc_title d) = false.
Proof.
  unfold stage_filter.
  destruct (exclusion_patterns ext a) as [pat|o]; cbn [flow_bind]; [|discriminate].
  destruct (filter _ docs1) as [|d0 rest] eqn:Hf; cbn [is_nil]; [discriminate|].
  intros [= <-]. split; [discriminate|]. exists pat. split; [reflexivity|].
  intros d Hin. rewrite <- Hf in Hin. apply filter_In in Hin as [Hin Hc].
  split; [exact Hin|]. unfold is_reading_candidate in Hc.
  assert (Hurl : str_or (Some (doc_url d)) "" = doc_url d)
    by (unfold str_or; destruct (doc_url d); reflexivity).
  assert (Htitle : str_or (Some (doc_title d)) "" = doc_title d)
    by (unfold str_or; destruct (doc_title d); reflexivity).
  assert (Hhost : str_or (Some (doc_host d)) "" = doc_host d)
    by (unfold str_or; destruct (doc_host d); reflexivity).
  rewrite Hurl, Htitle, Hhost in Hc.
  destruct (mem (lower (doc_host d)) (exclusion_hosts a)) eqn:Hm; [discriminate|].
  destruct (re_search ext pat (doc_url d)); [discriminate|].
  destruct (re_search ext pat (doc_title d)); [discriminate|].
  split; [|split; reflexivity].
  intros Hin'. apply mem_In in Hin'. congruence.
Qed.



(** ** Documents *)

Lemma tokenize_tokens (text : option string) (t : string) :
  In t (tokenize text) ->
  (3 <= String.length t)%nat
  /\ str_forall is_token_char t = true
  /\ ~ In t STOPWORDS.
Proof.
  destruct text as [s|]; [|contradiction].
  rewrite tokenize_spec_nonempty. intros Hin.
  apply filter_In in Hin as [Hin Hstop]. unfold long_runs in Hin.
  apply filter_In in Hin as [Hin Hlen].
  split; [apply Nat.leb_le; exact Hlen|]. split.
  - pose proof (pieces_forall is_token_char (lower s)) as Hall.
    rewrite Forall_forall in Hall. apply Hall. exact Hin.
  - intros Hmem. apply mem_In in Hmem. rewrite Hmem in Hstop. discriminate.
Qed.

Lemma tokenize_space (s t : string) :
  tokenize (Some (String.append s (String " " t)))
  = tokenize (Some s) ++ tokenize (Some t).
Proof.
  rewrite !tokenize_spec_nonempty. unfold long_runs, lower.
  rewrite str_map_append. cbn [str_map].
  rewrite (pieces_append is_token_char _ _ (lower_char " ") eq_refl), !filter_app.
  reflexivity.
Qed.

Lemma tokenize_path (s : string) :
  tokenize (Some (replace_char "/" " " s)) = tokenize (Some s).
Proof.
  rewrite !tokenize_spec_nonempty.
  rewrite lower_replace_slash. unfold long_runs, replace_char.
  rewrite pieces_str_map; [reflexivity| |].
  - intros c Hc. destruct (Ascii.eqb_spec c "/") as [->|_]; [discriminate|reflexivity].
  - intros c Hc. destruct (Ascii.eqb_spec c "/") as [->|_]; [reflexivity|exact Hc].
Qed.

Lemma datetime_of_in_range (t : Z) :
  (datetime_min <= t <= datetime_max)%Z -> datetime_of t = Ok t.
Proof.
  intros [Hlo Hhi]. unfold datetime_of.
  apply Z.leb_le in Hlo, Hhi. rewrite Hlo, Hhi. reflexivity.
Qed.

Lemma datetime_of_out_of_range (t : Z) :
  (t < datetime_min \/ datetime_max < t)%Z -> datetime_of t = Raise OverflowError.
Proof.
  intros Hout. unfold datetime_of.
  destruct (Z.leb_spec datetime_min t); destruct (Z.leb_spec t datetime_max);
    cbn [andb]; try reflexivity; lia.
Qed.

(** X11. [build_docs] on rows whose timestamps are null or inside the range
    of [datetime] and whose URLs the parser accepts: there is one document
    per row, in the order of the rows, with the row's id, URL and
    timestamp; its tokens are the tokens of the one text "title host path"
    (the path as the parser returned it), and each of them is at least
    three characters of [[a-z0-9]] and no stop word. *)
Theorem build_docs_documents (ext : Externals) (rows : list row) :
  (forall r, In r rows ->
             (exists p, urlparse ext (row_url r) = Ok p)
             /\ forall v, row_last_visit_time r = Some v ->
                          (datetime_min <= v <= datetime_max)%Z) ->
  exists docs,
    build_docs ext rows = Ok docs
    /\ Forall2
         (fun r d =>
            doc_id d = row_id r
            /\ doc_url d = row_url r
            /\ doc_last_visit d = row_last_visit_time r
            /\ (exists host path,
                   urlparse ext (row_url r) = Ok (host, path)
                   /\ doc_tokens d
                      = tokenize
                          (Some (String.append (doc_title d)
                                   (String " "
                                      (String.append (doc_host d)
                                         (String " " path))))))
            /\ Forall (fun t => (3 <= String.length t)%nat
                                /\ str_forall is_token_char t = true
                                /\ ~ In t STOPWORDS)
                      (doc_tokens d))
         rows docs.
Proof.
  intros Hrows. unfold build_docs. apply mapM_Forall2.
  intros r Hin. destruct (Hrows r Hin) as [[[host path] Hp] Htime].
  unfold build_doc.
  assert (Ht : chrome_time_to_dt (row_last_visit_time r)
               = Ok (row_last_visit_time r)).
  { unfold chrome_time_to_dt. destruct (row_last_visit_time r) as [v|];
      [|reflexivity].
    rewrite (datetime_of_in_range v (Htime v eq_refl)). reflexivity. }
  rewrite Ht, Hp. cbn [bind fst snd]. eexists. split; [reflexivity|].
  cbn [doc_id doc_url doc_last_visit doc_tokens doc_title doc_host].
  split; [reflexivity|]. split; [reflexivity|]. split; [reflexivity|]. split.
  - exists host, path. split; [reflexivity|].
    rewrite !tokenize_space, tokenize_path. reflexivity.
  - apply Forall_forall. intros t Hin'.
    apply in_app_or in Hin' as [Hin'|Hin'];
      [|apply in_app_or in Hin' as [Hin'|Hin']];
      apply (tokenize_tokens _ _ Hin').
Qed.

Lemma build_docs_documents_witness :
  exists docs,
    build_docs sample_ext sample_rows = Ok docs
    /\ Forall2
         (fun r d =>
            doc_id d = row_id r
            /\ doc_url d = row_url r
            /\ doc_last_visit d = row_last_visit_time r
            /\ (exists host path,
                   urlparse sample_ext (row_url r) = Ok (host, path)
                   /\ doc_tokens d
                      = tokenize
                          (Some (String.append (doc_title d)
                                   (String " "
                                      (String.append (doc_host d)
                                         (String " " path))))))
            /\ Forall (fun t => (3 <= String.length t)%nat
                                /\ str_forall is_token_char t = true
                                /\ ~ In t STOPWORDS)
                      (doc_tokens d))
         sample_rows docs.
Proof.
  apply build_docs_documents.
  intros r [<-|[<-|[]]]; (split; [eexists; reflexivity|]);
    intros v [= <-]; vm_compute; split; discriminate.
Defined.

(** X12. One timestamp outside the range of [datetime] stops the whole run:
    when the parser accepts every URL and some row carries such a
    timestamp, [build_docs] raises [OverflowError] whatever the other rows
    are, and [main] ends with that exception without printing anything. *)
Theorem build_docs_bad_timestamp (F : Type) (N : Num F) (L : Log F)
        (ext : Externals) (fs : F -> string) (a : args) (w : world)
        (rows : list row) (r : row) (v : Z) :
  (forall r', In r' rows -> exists p, urlparse ext (row_url r') = Ok p) ->
  In r rows ->
  row_last_visit_time r = Some v ->
  (v < datetime_min \/ datetime_max < v)%Z ->
  build_docs ext rows = Raise OverflowError
  /\ run w (main ext fs a rows) = Uncaught OverflowError.
Proof.
  intros Hurl Hin Hv Hout.
  assert (Hb : build_docs ext rows = Raise OverflowError).
  { unfold build_docs. induction rows as [|x rows IH]; [contradiction|].
    cbn [mapM].
    assert (Hx : (exists d, build_doc ext x = Ok d)
                 \/ build_doc ext x = Raise OverflowError).
    { unfold build_doc, chrome_time_to_dt, datetime_of.
      destruct (Hurl x (or_introl eq_refl)) as [p Hp]. rewrite Hp.
      destruct (row_last_visit_time x) as [t|]; cbn [bind].
      - destruct ((datetime_min <=? t) && (t <=? datetime_max))%Z; cbn [bind].
        + left. eexists. reflexivity.
        + right. reflexivity.
      - left. eexists. reflexivity. }
    destruct Hx as [[d Hd]|Hx]; [|rewrite Hx; reflexivity].
    rewrite Hd. cbn [bind]. destruct Hin as [->|Hin].
    - exfalso. unfold build_doc, chrome_time_to_dt in Hd. rewrite Hv in Hd.
      rewrite (datetime_of_out_of_range v Hout) in Hd. discriminate.
    - rewrite IH; [reflexivity| |exact Hin].
      intros r' Hr'. apply Hurl. now right. }
  split; [exact Hb|].
  rewrite run_main. unfold stage_docs.
  destruct rows as [|x rows]; [contradiction|]. cbn [is_nil].
  rewrite Hb. reflexivity.
Qed.

Lemma build_docs_bad_timestamp_witness :
  build_docs sample_ext (sample_rows ++ [sample_corrupt_row])
  = Raise OverflowError
  /\ run sample_world
         (main (F := R) sample_ext (fun _ => "") sample_args
               (sample_rows ++ [sample_corrupt_row]))
     = Uncaught OverflowError.
Proof.
  apply (build_docs_bad_timestamp R Exact Exact_log sample_ext (fun _ => "")
           sample_args sample_world (sample_rows ++ [sample_corrupt_row])
           sample_corrupt_row 9000000000000000000%Z).
  - intros r' _. unfold sample_ext, urlparse.
    destruct (String.eqb (row_url r') _); eexists; reflexivity.
  - apply in_or_app. right. left. reflexivity.
  - reflexivity.
  - right. reflexivity.
Defined.

(** ** Comma-separated options *)

Lemma str_append_assoc (a b c : string) :
  String.append (String.append a b) c = String.append a (String.append b c).
Proof. induction a as [|x a IH]; simpl; [reflexivity|]. rewrite IH. reflexivity. Qed.

Lemma str_append_nil_r (a : string) : String.append a EmptyString = a.
Proof. induction a as [|x a IH]; simpl; [reflexivity|]. rewrite IH. reflexivity. Qed.

Lemma str_rev_onto_append (s acc : string) :
  str_rev_onto s acc = String.append (str_rev_onto s EmptyString) acc.
Proof.
  revert acc. induction s as [|c s IH]; intros acc; simpl; [reflexivity|].
  rewrite (IH (String c acc)), (IH (String c EmptyString)), str_append_assoc.
  reflexivity.
Qed.

Lemma str_rev_cons (c : ascii) (s : string) :
  str_rev (String c s) = String.append (str_rev s) (String c EmptyString).
Proof. unfold str_rev. simpl. apply str_rev_onto_append. Qed.

Lemma str_rev_append (a b : string) :
  str_rev (String.append a b) = String.append (str_rev b) (str_rev a).
Proof.
  induction a as [|c a IH]; simpl.
  - rewrite str_append_nil_r. reflexivity.
  - rewrite !str_rev_cons, IH, str_append_assoc. reflexivity.
Qed.

Lemma str_rev_involutive (s : string) : str_rev (str_rev s) = s.
Proof.
  induction s as [|c s IH]; [reflexivity|].
  rewrite str_rev_cons, str_rev_append, IH. reflexivity.
Qed.

Lemma str_forall_append (p : ascii -> bool) (a b : string) :
  str_forall p (String.append a b) = str_forall p a && str_forall p b.
Proof.
  induction a as [|c a IH]; simpl; [reflexivity|].
  rewrite IH, andb_assoc. reflexivity.
Qed.

Lemma str_forall_rev (p : ascii -> bool) (s : string) :
  str_forall p (str_rev s) = str_forall p s.
Proof.
  induction s as [|c s IH]; [reflexivity|].
  rewrite str_rev_cons, str_forall_append, IH. simpl.
  rewrite andb_true_r, andb_comm. reflexivity.
Qed.

Lemma lstrip_split (s : string) :
  exists sp, s = String.append sp (lstrip s)
             /\ str_forall is_space sp = true
             /\ starts_clean (lstrip s) = true.
Proof.
  induction s as [|c s [sp [Hs [Hsp Hclean]]]]; simpl.
  - exists EmptyString. auto.
  - destruct (is_space c) eqn:Hc.
    + exists (String c sp). simpl. rewrite Hc, Hsp, <- Hs. auto.
    + exists EmptyString. simpl. rewrite Hc. auto.
Qed.

Lemma lstrip_clean (s : string) : starts_clean s = true -> lstrip s = s.
Proof.
  destruct s as [|c s]; simpl; [reflexivity|].
  destruct (is_space c); [discriminate|reflexivity].
Qed.

Lemma lstrip_spaces (sp s : string) :
  str_forall is_space sp = true -> lstrip (String.append sp s) = lstrip s.
Proof.
  induction sp as [|c sp IH]; simpl; [reflexivity|].
  intros H. apply andb_true_iff in H as [Hc Hsp]. rewrite Hc. apply IH, Hsp.
Qed.

Lemma starts_clean_prefix (a b : string) :
  starts_clean (String.append a b) = true ->
  a <> EmptyString -> starts_clean a = true.
Proof. destruct a as [|c a]; simpl; [contradiction|auto]. Qed.

Lemma str_forall_lstrip (p : ascii -> bool) (s : string) :
  str_forall p s = true -> str_forall p (lstrip s) = true.
Proof.
  induction s as [|c s IH]; simpl; [reflexivity|].
  intros H. apply andb_true_iff in H as [Hc Hs].
  destruct (is_space c); [apply IH, Hs|]. simpl. rewrite Hc, Hs. reflexivity.
Qed.

Lemma str_forall_strip (p : ascii -> bool) (s : string) :
  str_forall p s = true -> str_forall p (strip s) = true.
Proof.
  intros H. unfold strip.
  rewrite str_forall_rev. apply str_forall_lstrip.
  rewrite str_forall_rev. apply str_forall_lstrip. exact H.
Qed.

Lemma strip_spaces (sp s : string) :
  str_forall is_space sp = true -> strip (String.append sp s) = strip s.
Proof. intros H. unfold strip. rewrite (lstrip_spaces sp s H). reflexivity. Qed.

Lemma strip_idempotent (s : string) : strip (strip s) = strip s.
Proof.
  unfold strip.
  destruct (lstrip_split s) as [_ [_ [_ Ha]]].
  set (a := lstrip s) in *.
  destruct (lstrip_split (str_rev a)) as [sp [Hrev [_ Hb]]].
  set (b := lstrip (str_rev a)) in *.
  assert (Hclean : starts_clean (str_rev b) = true).
  { destruct b as [|c b'] eqn:Eb; [reflexivity|].
    apply (starts_clean_prefix _ (str_rev sp)).
    - rewrite <- str_rev_append, <- Hrev, str_rev_involutive. exact Ha.
    - rewrite str_rev_cons. destruct (str_rev b'); discriminate. }
  rewrite (lstrip_clean _ Hclean), str_rev_involutive, (lstrip_clean _ Hb).
  reflexivity.
Qed.

Lemma split_char_pieces (sep : ascii) (s : string) :
  split_char sep s = pieces (fun c => negb (Ascii.eqb c sep)) s.
Proof.
  induction s as [|c s IH]; simpl; [reflexivity|].
  rewrite IH. destruct (Ascii.eqb c sep); reflexivity.
Qed.

Lemma pieces_whole (p : ascii -> bool) (x : string) :
  str_forall p x = true -> pieces p x = [x].
Proof.
  induction x as [|c x IH]; simpl; [reflexivity|].
  intros H. apply andb_true_iff in H as [Hc Hx].
  rewrite Hc, (IH Hx). reflexivity.
Qed.

Lemma pieces_prefix (p : ascii -> bool) (x s : string) :
  str_forall p x = true ->
  exists q qs, pieces p s = q :: qs
               /\ pieces p (String.append x s) = String.append x q :: qs.
Proof.
  intros H. induction x as [|c x IH]; simpl.
  - pose proof (pieces_count p s) as Hn.
    destruct (pieces p s) as [|q qs]; [discriminate|]. eauto.
  - simpl in H. apply andb_true_iff in H as [Hc Hx].
    destruct (IH Hx) as [q [qs [Hs Hxs]]]. rewrite Hc, Hxs. eauto.
Qed.

Lemma space_not_comma (sp : string) :
  str_forall is_space sp = true ->
  str_forall (fun c => negb (Ascii.eqb c ",")) sp = true.
Proof.
  induction sp as [|c sp IH]; simpl; [reflexivity|].
  intros H. apply andb_true_iff in H as [Hc Hsp]. rewrite (IH Hsp), andb_true_r.
  destruct (Ascii.eqb_spec c ",") as [->|_]; [discriminate|reflexivity].
Qed.

Lemma csv_items_back (sp : string) (xs : list string) :
  str_forall is_space sp = true ->
  Forall csv_item xs ->
  map strip
      (filter (fun p => negb (str_is_empty (strip p)))
              (split_char "," (join (String "," sp) xs)))
  = match xs with
    | [] => []
    | _ :: _ => xs
    end.
Proof.
  intros Hsp Hall. rewrite split_char_pieces. unfold join.
  induction Hall as [|x xs [Hne [Hstrip Hcomma]] Hall IH]; [reflexivity|].
  assert (Hkeep : negb (str_is_empty (strip x)) = true).
  { rewrite Hstrip. destruct x; [contradiction|reflexivity]. }
  destruct xs as [|y ys].
  - change (String.concat (String "," sp) [x]) with x.
    rewrite (pieces_whole _ x Hcomma).
    cbn [filter map]. rewrite Hkeep. cbn [map]. rewrite Hstrip. reflexivity.
  - set (rest := String.concat (String "," sp) (y :: ys)) in *.
    change (String.concat (String "," sp) (x :: y :: ys))
      with (String.append x (String "," (String.append sp rest))).
    rewrite (pieces_append _ x _ "," eq_refl).
    rewrite (pieces_whole _ x Hcomma). cbn [app filter]. rewrite Hkeep.
    cbn [map]. rewrite Hstrip. f_equal.
    destruct (pieces_prefix (fun c => negb (Ascii.eqb c ",")) sp rest
                            (space_not_comma sp Hsp))
      as [q [qs [Hq Hspq]]].
    rewrite Hspq. rewrite Hq in IH. cbn [filter] in *.
    rewrite (strip_spaces sp q Hsp).
    destruct (negb (str_is_empty (strip q))); cbn [map] in *;
      [rewrite (strip_spaces sp q Hsp)|]; exact IH.
Qed.

Lemma parse_csv_list_back (sp : string) (xs : list string) :
  str_forall is_space sp = true ->
  Forall csv_item xs ->
  parse_csv_list (Some (join (String "," sp) xs)) = xs.
Proof.
  intros Hsp Hall. unfold parse_csv_list.
  rewrite (csv_items_back sp xs Hsp Hall).
  destruct xs as [|x xs]; [reflexivity|].
  inversion Hall as [|x' xs' [Hne _] _]; subst.
  destruct x as [|c x]; [contradiction|].
  unfold join. destruct xs; reflexivity.
Qed.

(** X13. [parse_csv_list] reads back what was joined: items that are not
    empty, have no comma and no white space at their ends, joined by a comma
    that any amount of white space may follow, come back unchanged and in
    order. *)
Theorem parse_csv_list_join (sp : string) (xs : list string) :
  str_forall is_space sp = true ->
  Forall csv_item xs ->
  parse_csv_list (Some (join (String "," sp) xs)) = xs.
Proof.
  exact (parse_csv_list_back sp xs).
Qed.

Lemma parse_csv_list_join_witness :
  parse_csv_list (Some (join ", " ["github.com"; "news.ycombinator.com"]))
  = ["github.com"; "news.ycombinator.com"].
Proof.
  apply (parse_csv_list_join " " ["github.com"; "news.ycombinator.com"]).
  - reflexivity.
  - repeat constructor; discriminate.
Defined.

Lemma parse_csv_list_items (value : option string) :
  Forall csv_item (parse_csv_list value).
Proof.
  unfold parse_csv_list. destruct value as [v|]; [|constructor].
  destruct (str_is_empty v); [constructor|].
  apply Forall_forall. intros x Hin.
  apply in_map_iff in Hin as [p [<- Hin]].
  apply filter_In in Hin as [Hin Hne].
  split; [|split].
  - destruct (strip p); [discriminate|discriminate].
  - apply strip_idempotent.
  - apply str_forall_strip. rewrite split_char_pieces in Hin.
    pose proof (pieces_forall (fun c => negb (Ascii.eqb c ",")) v) as Hall.
    rewrite Forall_forall in Hall. apply Hall, Hin.
Qed.

(** X14. Whatever the option string, the items [parse_csv_list] returns are
    not empty, contain no comma and carry no white space at their ends; and
    joining them with commas and parsing again gives the same items. *)
Theorem parse_csv_list_normal (value : option string) :
  Forall csv_item (parse_csv_list value)
  /\ parse_csv_list (Some (join "," (parse_csv_list value)))
     = parse_csv_list value.
Proof.
  split; [apply parse_csv_list_items|].
  apply (parse_csv_list_back EmptyString); [reflexivity|].
  apply parse_csv_list_items.
Qed.

(** ** Cluster summaries as a partition of the rows *)

Lemma Zsum_indicator (n : string) (keys : list string) :
  NoDup keys ->
  Zsum (map (fun k => if String.eqb n k then 1%Z else 0%Z) keys)
  = if mem n keys then 1%Z else 0%Z.
Proof.
  unfold Zsum, mem. induction 1 as [|k keys Hk Hnd IH]; [reflexivity|].
  cbn [map fold_right existsb]. rewrite IH.
  destruct (String.eqb_spec n k) as [->|Hne]; cbn [orb]; [|reflexivity].
  destruct (existsb (String.eqb k) keys) eqn:Hex; [|reflexivity].
  exfalso. apply Hk. apply existsb_exists in Hex as [x [Hx Heq]].
  apply String.eqb_eq in Heq. subst. exact Hx.
Qed.

Lemma Zsum_add (A : Type) (f g : A -> Z) (xs : list A) :
  Zsum (map (fun x => (f x + g x)%Z) xs) = (Zsum (map f xs) + Zsum (map g xs))%Z.
Proof.
  unfold Zsum. induction xs as [|x xs IH]; [reflexivity|].
  cbn [map fold_right]. rewrite IH. lia.
Qed.

Lemma members_partition (keys : list string) (rows : list out_row) :
  NoDup keys ->
  (forall r, In r rows -> exists name, In name keys /\ r_cluster r = Some name) ->
  Zsum (map (fun name => Z.of_nat (List.length (members name rows))) keys)
  = Z.of_nat (List.length rows).
Proof.
  intros Hnd. induction rows as [|r rows IH]; intros Hlab.
  - unfold members. cbn [filter List.length]. unfold Zsum.
    clear Hnd Hlab. induction keys as [|k keys IHk]; [reflexivity|].
    cbn [map fold_right]. rewrite IHk. reflexivity.
  - destruct (Hlab r (or_introl eq_refl)) as [n [Hn Hr]].
    rewrite (map_ext _ (fun name =>
               ((if String.eqb n name then 1 else 0)
                + Z.of_nat (List.length (members name rows)))%Z)).
    + rewrite Zsum_add, IH by (intros r' Hin; apply Hlab; now right).
      rewrite (Zsum_indicator n keys Hnd).
      apply mem_In in Hn. rewrite Hn. cbn [List.length]. lia.
    + intros name. unfold members, in_cluster. cbn [filter]. rewrite Hr.
      destruct (String.eqb n name); cbn [List.length]; lia.
Qed.

(** X15. [build_cluster_summary] on rows that all carry a cluster label:
    the counts of the summaries add up to the number of rows, so every row
    is counted in exactly one cluster; no summary is empty; and the top
    tokens of a cluster are pairwise distinct explanation tokens of rows of
    that cluster, at most [topn] of them. *)
Theorem cluster_summary_partition (rows : list out_row) (topn : Z) :
  Forall (fun r => r_cluster r <> None) rows ->
  exists sums,
    build_cluster_summary rows topn = Ok sums
    /\ Zsum (map count (dict_values sums)) = Z.of_nat (List.length rows)
    /\ forall name s,
        In (name, s) sums ->
        (1 <= count s)%Z
        /\ NoDup (top_tokens s)
        /\ ((0 <= topn)%Z -> (Z.of_nat (List.length (top_tokens s)) <= topn)%Z)
        /\ forall t, In t (top_tokens s) ->
                     exists r, In r rows /\ r_cluster r = Some name
                               /\ In t (r_why_tokens r).
Proof.
  intros Hall.
  destruct (build_cluster_summary_spec rows topn Hall)
    as [sums [Hrun [Hwf [Hkeys Hinfo]]]].
  exists sums. split; [exact Hrun|]. split.
  - unfold dict_values. rewrite map_map.
    rewrite (map_ext_in _ (fun ns : string * summary =>
               Z.of_nat (List.length (members (fst ns) rows)))).
    + rewrite <- (map_map fst (fun name => Z.of_nat (List.length (members name rows)))).
      apply (members_partition (map fst sums) rows Hwf).
      intros r Hin. rewrite Forall_forall in Hall.
      destruct (r_cluster r) as [name|] eqn:Hr; [|destruct (Hall r Hin Hr)].
      exists name. split; [|reflexivity]. apply Hkeys. eauto.
    + intros [name s] Hin. cbn [fst snd]. apply (Hinfo name s Hin).
  - intros name s Hin. destruct (Hinfo name s Hin) as [Hcount Htop].
    assert (Htab : dict_wf (count_into [] (member_tokens name rows))).
    { apply count_into_wf. constructor. }
    destruct (token_counts_sorted _ Htab) as [Hperm [Hnd _]].
    set (ranked := py_sort token_count_ltb
                           (count_into [] (member_tokens name rows))) in *.
    assert (Hslice : exists n, py_slice_to topn ranked = firstn n ranked
                               /\ ((0 <= topn)%Z -> n = Z.to_nat topn)).
    { unfold py_slice_to. destruct (0 <=? topn)%Z eqn:Hz.
      - eexists. split; [reflexivity|]. reflexivity.
      - eexists. split; [reflexivity|]. intros Hge.
        apply Z.leb_le in Hge. congruence. }
    destruct Hslice as [n [Hslice Hn]].
    rewrite Hslice in Htop. split; [|split; [|split]].
    + assert (Hk : In name (dict_keys sums)).
      { apply in_map_iff. exists (name, s). split; [reflexivity|exact Hin]. }
      apply Hkeys in Hk as [r [Hr Hlab]].
      assert (Hm : In r (members name rows)).
      { apply filter_In. split; [exact Hr|]. unfold in_cluster.
        rewrite Hlab. apply String.eqb_refl. }
      rewrite Hcount. destruct (members name rows); [contradiction|].
      cbn [List.length]. lia.
    + rewrite Htop, <- firstn_map. apply NoDup_firstn. exact Hnd.
    + intros Hge. rewrite Htop, length_map, (Hn Hge).
      pose proof (firstn_le_length (Z.to_nat topn) ranked).
      rewrite length_firstn. lia.
    + intros t Ht. rewrite Htop in Ht.
      apply in_map_iff in Ht as [[t' c] [Heq Ht]]. cbn [fst] in Heq. subst t'.
      apply In_firstn in Ht. apply (Permutation_in _ Hperm) in Ht.
      assert (Hk : In t (dict_keys (count_into [] (member_tokens name rows)))).
      { apply in_map_iff. exists (t, c). split; [reflexivity|exact Ht]. }
      apply count_into_keys in Hk as [[]|Hk].
      unfold member_tokens in Hk. apply in_concat in Hk as [ts [Hts Hk]].
      apply in_map_iff in Hts as [r [<- Hr]].
      apply filter_In in Hr as [Hr Hc]. exists r. split; [exact Hr|].
      split; [|exact Hk]. unfold in_cluster in Hc.
      destruct (r_cluster r) as [n'|]; [|discriminate].
      apply String.eqb_eq in Hc. subst. reflexivity.
Qed.

Lemma cluster_summary_partition_witness :
  exists sums,
    build_cluster_summary sample_clustered_rows 5 = Ok sums
    /\ Zsum (map count (dict_values sums))
       = Z.of_nat (List.length sample_clustered_rows)
    /\ forall name s,
        In (name, s) sums ->
        (1 <= count s)%Z
        /\ NoDup (top_tokens s)
        /\ ((0 <= 5)%Z -> (Z.of_nat (List.length (top_tokens s)) <= 5)%Z)
        /\ forall t, In t (top_tokens s) ->
                     exists r, In r sample_clustered_rows
                               /\ r_cluster r = Some name
                               /\ In t (r_why_tokens r).
Proof.
  apply (cluster_summary_partition sample_clustered_rows 5).
  repeat constructor; discriminate.
Defined.

(** ** Options that [main] rejects *)

(** X16. When the history has rows and [build_docs] succeeds, a [--since]
    value that [strptime] does not read ends the run with exit code 1 and
    the message of line 346, before the exclusion options are looked at
    and whatever the clock says. *)
Theorem main_invalid_since (F : Type) (N : Num F) (L : Log F)
        (ext : Externals) (fs : F -> string) (a : args) (rows : list row)
        (w : world) (docs0 : list doc) (s : string) :
  stage_docs ext a rows = Go docs0 ->
  since a = Some s ->
  str_is_empty s = false ->
  strptime_ymd ext s = None ->
  run w (main ext fs a rows)
  = Returned 1 (Message "Invalid --since format. Use YYYY-MM-DD.").
Proof.
  intros Hdocs Hs Hne Hparse. rewrite run_main, Hdocs.
  unfold stage_since. rewrite Hs, Hne, Hparse. reflexivity.
Qed.

Lemma main_invalid_since_witness :
  run sample_world
      (main (F := R) strict_ext (fun _ => "")
            (with_since "yesterday" sample_args) sample_rows)
  = Returned 1 (Message "Invalid --since format. Use YYYY-MM-DD.").
Proof.
  apply (main_invalid_since R Exact Exact_log strict_ext (fun _ => "")
           (with_since "yesterday" sample_args) sample_rows sample_world
           sample_docs "yesterday").
  - vm_compute. reflexivity.
  - reflexivity.
  - reflexivity.
  - reflexivity.
Defined.



(** X18. The second [re.compile], of the default pattern merged with the
    user's, stands outside the [try]: a user pattern that compiles alone
    but not inside the alternation ends the run with an uncaught
    [re.error] instead of the message.  With [--no-reading-filter] there is
    no merge and the user's pattern is used alone. *)
Theorem main_merged_pattern_raises (F : Type) (N : Num F) (L : Log F)
        (ext : Externals) (fs : F -> string) (a : args) (rows : list row)
        (w : world) (docs0 docs1 : list doc) (p : string) :
  stage_docs ext a rows = Go docs0 ->
  run w (stage_since ext a docs0) = Go docs1 ->
  exclude_url_pattern a = Some p ->
  str_is_empty p = false ->
  re_valid ext p = true ->
  re_valid ext (merged_pattern p) = false ->
  (if no_reading_filter a
   then exclusion_patterns ext a = Go {| pattern := p; ignorecase := true |}
   else run w (main ext fs a rows) = Uncaught ReError).
Proof.
  intros Hdocs Hsince Hp Hne Hok Hbad.
  destruct (no_reading_filter a) eqn:Hnf.
  - unfold exclusion_patterns, re_compile. rewrite Hp, Hne, Hok, Hnf.
    reflexivity.
  - rewrite run_main, Hdocs, Hsince.
    unfold stage_filter, exclusion_patterns, re_compile.
    rewrite Hp, Hne, Hok, Hnf. cbn [pattern String.eqb].
    change (String.append "(?:" _) with (merged_pattern p).
    rewrite Hbad. reflexivity.
Qed.

Lemma main_merged_pattern_raises_witness :
  run sample_world
      (main (F := R) strict_ext (fun _ => "")
            (with_pattern "(?i)wiki" sample_args) sample_rows)
  = Uncaught ReError.
Proof.
  apply (main_merged_pattern_raises R Exact Exact_log strict_ext (fun _ => "")
           (with_pattern "(?i)wiki" sample_args) sample_rows sample_world
           sample_docs sample_docs "(?i)wiki").
  - vm_compute. reflexivity.
  - reflexivity.
  - reflexivity.
  - reflexivity.
  - reflexivity.
  - reflexivity.
Defined.

(** ** Common and rare tokens *)

Lemma df_everywhere (t : string) (docs : list doc) :
  (forall d, In d docs -> In t (doc_tokens d)) -> df t docs = List.length docs.
Proof.
  unfold df. induction docs as [|d docs IH]; intros Hall; [reflexivity|].
  cbn [filter]. assert (Hd : mem t (doc_tokens d) = true).
  { apply mem_In. apply Hall. now left. }
  rewrite Hd. cbn [List.length]. rewrite IH; [reflexivity|].
  intros d' Hin. apply Hall. now right.
Qed.

Lemma idf_everywhere (t : string) (docs : list doc) :
  (forall d, In d docs -> In t (doc_tokens d)) -> idf t docs = 1.
Proof.
  intros Hall. unfold idf. rewrite (df_everywhere t docs Hall).
  replace (1 + List.length docs)%nat with (List.length docs + 1)%nat by lia.
  assert (Hpos : 0 < INR (List.length docs + 1)) by (apply lt_0_INR; lia).
  unfold Rdiv. rewrite Rinv_r by lra. rewrite ln_1. lra.
Qed.

Lemma idf_rarer (t1 t2 : string) (docs : list doc) :
  (df t1 docs < df t2 docs)%nat -> idf t2 docs < idf t1 docs.
Proof.
  intros Hlt. unfold idf.
  assert (H1 : 0 < INR (1 + df t1 docs)) by (apply lt_0_INR; lia).
  assert (H2 : INR (1 + df t1 docs) < INR (1 + df t2 docs))
    by (apply lt_INR; lia).
  assert (Hn : 0 < INR (List.length docs + 1)) by (apply lt_0_INR; lia).
  assert (Hinv : / INR (1 + df t2 docs) < / INR (1 + df t1 docs)).
  { apply Rinv_lt_contravar; [|exact H2]. apply Rmult_lt_0_compat; lra. }
  assert (Hq2 : 0 < INR (List.length docs + 1) / INR (1 + df t2 docs)).
  { apply Rdiv_lt_0_compat; lra. }
  assert (Hq : INR (List.length docs + 1) / INR (1 + df t2 docs)
               < INR (List.length docs + 1) / INR (1 + df t1 docs)).
  { unfold Rdiv. apply Rmult_lt_compat_l; assumption. }
  pose proof (ln_increasing _ _ Hq2 Hq). lra.
Qed.

(** X19. In the vectors of [tfidf_vectors] over the reals: a token found in
    every document weighs exactly its number of occurrences; of two tokens
    that occur equally often in a document, the one found in fewer
    documents weighs more; and a document without tokens has the empty
    vector. *)
Theorem tfidf_common_and_rare_tokens (docs : list doc) :
  exists vectors : list (vector R),
    tfidf_vectors docs = Ok vectors
    /\ Forall2
         (fun d v =>
            (forall t,
                In t (doc_tokens d) ->
                (forall d', In d' docs -> In t (doc_tokens d')) ->
                weight v t = INR (tf t d))
            /\ (forall t1 t2,
                   In t1 (doc_tokens d) -> In t2 (doc_tokens d) ->
                   tf t1 d = tf t2 d ->
                   (df t1 docs < df t2 docs)%nat ->
                   weight v t2 < weight v t1)
            /\ (doc_tokens d = [] -> v = []))
         docs vectors.
Proof.
  unfold tfidf_vectors. apply mapM_Forall2.
  intros d _. destruct (tfidf_vector_of_doc docs d) as [v [Hv [Hwf [Hkeys Hw]]]].
  exists v. split; [exact Hv|].
  assert (Hweight : forall t, In t (doc_tokens d) ->
                              weight v t = INR (tf t d) * idf t docs).
  { intros t Ht. apply Hkeys in Ht.
    destruct (dict_get_present v t Ht) as [x Hget].
    apply dict_get_some_in in Hget.
    rewrite (weight_present v t x Hwf Hget). apply Hw. exact Hget. }
  split; [|split].
  - intros t Ht Hall. rewrite (Hweight t Ht), (idf_everywhere t docs Hall). lra.
  - intros t1 t2 Ht1 Ht2 Htf Hdf.
    rewrite (Hweight t1 Ht1), (Hweight t2 Ht2), Htf.
    apply Rmult_lt_compat_l; [|apply idf_rarer, Hdf].
    apply (lt_INR 0). rewrite <- Htf. unfold tf.
    apply (count_occ_In string_dec) in Ht1. lia.
  - intros Hnone. destruct v as [|[t x] v']; [reflexivity|].
    exfalso. assert (Hin : In t (doc_tokens d)) by (apply Hkeys; now left).
    rewrite Hnone in Hin. exact Hin.
Qed.

(** ** When there is something to recommend *)



(** ** The cosine and the order of its arguments *)

Lemma dot_cons_r (k : string) (x : R) (a b : vector R) :
  dict_wf b -> ~ In k (dict_keys a) ->
  dot b ((k, x) :: a) = x * weight b k + dot b a.
Proof.
  intros Hwf Hk. unfold dot.
  induction b as [|[k' y] b IH].
  - cbn. unfold weight, dict_get_default. cbn. lra.
  - inversion Hwf as [|? ? Hnin Hwf']; subst.
    cbn [map Rsum fold_right fst snd].
    fold (Rsum (map (fun kv : string * R => snd kv * weight ((k, x) :: a) (fst kv)) b)).
    fold (Rsum (map (fun kv : string * R => snd kv * weight a (fst kv)) b)).
    rewrite (IH Hwf'), !weight_cons.
    destruct (String.eqb_spec k k') as [->|Hne].
    + rewrite String.eqb_refl, (weight_absent b k' Hnin), (weight_absent a k' Hk).
      lra.
    + destruct (String.eqb_spec k' k) as [->|_]; [contradiction|]. lra.
Qed.

Lemma dot_comm (a b : vector R) : dict_wf a -> dict_wf b -> dot a b = dot b a.
Proof.
  intros Ha Hb. induction a as [|[k x] a IH].
  - unfold dot. cbn [map Rsum fold_right].
    induction b as [|[k' y] b IHb]; [reflexivity|].
    inversion Hb; subst. cbn [map Rsum fold_right fst snd].
    fold (Rsum (map (fun kv : string * R => snd kv * weight [] (fst kv)) b)).
    rewrite <- IHb by assumption. unfold weight, dict_get_default. cbn. lra.
  - inversion Ha as [|? ? Hnin Ha']; subst.
    rewrite (dot_cons_r k x a b Hb Hnin), <- (IH Ha').
    unfold dot. cbn [map Rsum fold_right fst snd]. reflexivity.
Qed.

(** X21. Over the reals [cosine] does not depend on the order of its two
    arguments, for vectors in which no token occurs twice. *)
Theorem cosine_exact_symmetric (a b : vector R) :
  dict_wf a -> dict_wf b -> cosine a b = cosine b a.
Proof.
  intros Ha Hb. rewrite !cosine_exact. f_equal. unfold similarity.
  rewrite (orb_comm (dict_is_empty a)), (orb_comm (Reqb (norm a) 0)).
  rewrite (dot_comm a b Ha Hb), (Rmult_comm (norm a)). reflexivity.
Qed.

Lemma cosine_exact_symmetric_witness :
  cosine [("rust", 3); ("memory", 4)] [("memory", 1); ("rust", 2)]
  = cosine [("memory", 1); ("rust", 2)] [("rust", 3); ("memory", 4)].
Proof.
  apply cosine_exact_symmetric;
    unfold dict_wf; simpl; repeat constructor; simpl; intuition discriminate.
Defined.

(** X22. In binary64 [cosine] depends on the order of its arguments: the
    dot product is summed in the order of the first vector, and for the
    weights 0.1, 0.2, 0.3 against 1.0, 1.0, 1.0 stored in the opposite order
    the two sums round differently, which gives 0.9258200997725515 one way
    and 0.9258200997725513 the other way. *)
Theorem cosine_binary64_not_symmetric :
  exists a b : vector float,
    dict_wf a /\ dict_wf b
    /\ cosine (H := Binary64) a b = Ok 0x1.da05179501505p-1%float
    /\ cosine (H := Binary64) b a = Ok 0x1.da05179501503p-1%float.
Proof.
  exists [("x", 0x1.999999999999ap-4%float); ("y", 0x1.999999999999ap-3%float);
          ("z", 0x1.3333333333333p-2%float)],
         [("z", 1%float); ("y", 1%float); ("x", 1%float)].
  split; [|split; [|split; reflexivity]];
    unfold dict_wf; simpl; repeat constructor; simpl; intuition discriminate.
Qed.

(** ** The table *)

Lemma str_length_append (a b : string) :
  String.length (String.append a b) = (String.length a + String.length b)%nat.
Proof. induction a as [|c a IH]; simpl; [reflexivity|]. rewrite IH. reflexivity. Qed.

Lemma str_repeat_length (c : ascii) (n : nat) : String.length (str_repeat c n) = n.
Proof. induction n as [|n IH]; simpl; [reflexivity|]. rewrite IH. reflexivity. Qed.

Lemma ljust_length (s : string) (w : nat) :
  (String.length s <= w)%nat -> String.length (ljust s w) = w.
Proof.
  intros Hle. unfold ljust. rewrite str_length_append, str_repeat_length. lia.
Qed.

Lemma fold_max_ge (A : Type) (f : A -> nat) (xs : list A) (w : nat) :
  (w <= fold_left (fun w x => Nat.max w (f x)) xs w)%nat
  /\ forall x, In x xs -> (f x <= fold_left (fun w x => Nat.max w (f x)) xs w)%nat.
Proof.
  revert w. induction xs as [|y xs IH]; intros w; cbn [fold_left].
  - split; [lia|]. intros x [].
  - destruct (IH (Nat.max w (f y))) as [Hw Hxs]. split; [lia|].
    intros x [<-|Hin]; [lia|]. apply Hxs, Hin.
Qed.

Lemma column_width_ge (rows : list out_row) (h : string) :
  (String.length h <= column_width rows h)%nat
  /\ forall r, In r rows -> (String.length (cell r h) <= column_width rows h)%nat.
Proof.
  unfold column_width.
  apply (fold_max_ge _ (fun r => String.length (cell r h)) rows).
Qed.

Lemma widen_eval (W : string -> nat) (r : out_row) :
  widen (map (fun h => (h, W h)) headers) r
  = Ok (map (fun h => (h, Nat.max (W h) (String.length (cell r h)))) headers).
Proof. reflexivity. Qed.

Lemma col_widths_from (rows : list out_row) :
  forall W : string -> nat,
    foldM widen rows (map (fun h => (h, W h)) headers)
    = Ok (map (fun h =>
                 (h, fold_left (fun w r => Nat.max w (String.length (cell r h)))
                               rows (W h)))
              headers).
Proof.
  induction rows as [|r rows IH]; intros W; [reflexivity|].
  cbn [foldM]. rewrite widen_eval. cbn [bind].
  rewrite (IH (fun h => Nat.max (W h) (String.length (cell r h)))).
  reflexivity.
Qed.

Lemma col_widths_eval (rows : list out_row) :
  col_widths rows = Ok (map (fun h => (h, column_width rows h)) headers).
Proof. apply (col_widths_from rows (fun h => String.length h)). Qed.

Lemma fmt_row_eval (W : string -> nat) (get : string -> string) :
  fmt_row (map (fun h => (h, W h)) headers) get
  = Ok (join "  " (map (fun h => ljust (get h) (W h)) headers)).
Proof. reflexivity. Qed.

Lemma print_header_eval (W : string -> nat) :
  print_header (map (fun h => (h, W h)) headers)
  = Ok [join "  " (map (fun h => ljust h (W h)) headers);
        join "  " (map (fun h => str_repeat "-" (W h)) headers)].
Proof. reflexivity. Qed.

Lemma line_length (W : string -> nat) (cells : string -> string) :
  (forall h, In h headers -> String.length (cells h) = W h) ->
  String.length (join "  " (map cells headers))
  = (list_sum (map W headers) + 2 * 5)%nat.
Proof.
  intros Hlen. unfold headers in *. cbn [map join String.concat list_sum].
  rewrite !str_length_append. cbn [String.length].
  rewrite !Hlen by (simpl; tauto). unfold list_sum. cbn [fold_right]. lia.
Qed.

Lemma row_line_length (rows : list out_row) (get : string -> string) :
  (forall h, In h headers ->
             (String.length (get h) <= column_width rows h)%nat) ->
  String.length
    (join "  " (map (fun h => ljust (get h) (column_width rows h)) headers))
  = table_width rows.
Proof.
  intros Hle. unfold table_width.
  apply (line_length (column_width rows)
                     (fun h => ljust (get h) (column_width rows h))).
  intros h Hh. apply ljust_length, Hle, Hh.
Qed.

Lemma row_line_starts (W : string -> nat) (r : out_row) :
  exists rest,
    join "  " (map (fun h => ljust (cell r h) (W h)) headers)
    = String.append (r_score r) rest.
Proof.
  unfold headers. cbn [map join String.concat]. unfold ljust at 1.
  change (cell r "score") with (r_score r).
  rewrite str_append_assoc. eexists. reflexivity.
Qed.

(** X23. [print_table] without clusters never raises; it prints the line of
    column names, the line of dashes and one line per row, in the order of
    the rows.  All these lines have the same length: the widths of the six
    columns, each the longest of its name and its cells, and five
    separators of two spaces.  The line of a row begins with its score. *)
Theorem print_table_aligned (rows : list out_row)
        (cluster_summaries : dict string summary) :
  exists names rule body,
    print_table rows false cluster_summaries = Ok (names :: rule :: body)
    /\ String.length names = table_width rows
    /\ String.length rule = table_width rows
    /\ Forall2 (fun r line =>
                  fmt_row (map (fun h => (h, column_width rows h)) headers)
                          (cell r) = Ok line
                  /\ String.length line = table_width rows
                  /\ exists rest, line = String.append (r_score r) rest)
               rows body.
Proof.
  unfold print_table. rewrite col_widths_eval. cbn [bind negb].
  rewrite print_header_eval. cbn [bind].
  destruct (mapM_Forall2 _ _
              (fun r => fmt_row (map (fun h => (h, column_width rows h)) headers)
                                (cell r))
              (fun r line =>
                 fmt_row (map (fun h => (h, column_width rows h)) headers)
                         (cell r) = Ok line
                 /\ String.length line = table_width rows
                 /\ exists rest, line = String.append (r_score r) rest)
              rows) as [body [Hbody Hall]].
  - intros r Hr. eexists. rewrite fmt_row_eval. split; [reflexivity|].
    split; [reflexivity|]. split.
    + apply row_line_length. intros h _. apply column_width_ge, Hr.
    + apply row_line_starts.
  - rewrite Hbody. cbn [bind app]. eexists. eexists. exists body.
    split; [reflexivity|]. split; [|split; [|exact Hall]].
    + apply row_line_length. intros h _. apply column_width_ge.
    + unfold table_width.
      apply (line_length (column_width rows)
                         (fun h => str_repeat "-" (column_width rows h))).
      intros h _. apply str_repeat_length.
Qed.

Lemma print_clustered_rows (all : list out_row)
      (cluster_summaries : dict string summary) :
  forall (rows : list out_row) (last : option string) (out : list string),
    Forall (fun r => r_cluster r <> None) rows ->
    (forall r, In r rows -> In r all) ->
    exists last' extra,
      foldM (print_clustered_row
               (map (fun h => (h, column_width all h)) headers)
               cluster_summaries)
            rows (last, out)
      = Ok (last', out ++ extra)
      /\ List.length extra = (List.length rows + cluster_changes last rows)%nat
      /\ Forall (fun line =>
                   String.length line = table_width all
                   \/ exists name,
                       In (Some name) (map r_cluster rows)
                       /\ line = heading cluster_summaries name)
                extra
      /\ (forall r, In r rows ->
                    exists line,
                      fmt_row (map (fun h => (h, column_width all h)) headers)
                              (cell r) = Ok line
                      /\ In line extra)
      /\ (forall name, In (Some name) (map r_cluster rows) ->
                       last = Some name
                       \/ In (heading cluster_summaries name) extra).
Proof.
  induction rows as [|r rows IH]; intros last out Hlab Hsub.
  - exists last, []. rewrite app_nil_r. cbn [foldM].
    split; [reflexivity|]. split; [reflexivity|]. split; [constructor|].
    split; [intros r []|intros name []].
  - inversion Hlab as [|? ? Hr Hrest]; subst.
    destruct (r_cluster r) as [n|] eqn:Hn; [clear Hr|contradiction].
    set (line := join "  " (map (fun h => ljust (cell r h) (column_width all h))
                                headers)).
    assert (Hline : String.length line = table_width all).
    { apply row_line_length. intros h _. apply column_width_ge, Hsub. now left. }
    set (changed := match last with
                    | Some l => negb (String.eqb n l)
                    | None => true
                    end).
    assert (Hlast : (if changed then Some n else last) = Some n).
    { unfold changed. destruct last as [l|]; [|reflexivity].
      destruct (String.eqb_spec n l) as [->|_]; reflexivity. }
    assert (Hcount : cluster_changes last (r :: rows)
                     = ((if changed then 1 else 0)
                        + cluster_changes (Some n) rows)%nat).
    { cbn [cluster_changes]. rewrite Hn. unfold changed.
      destruct last as [l|]; [|reflexivity].
      destruct (String.eqb n l); reflexivity. }
    destruct (IH (Some n)
                 ((if changed then out ++ [heading cluster_summaries n] else out)
                  ++ [line])
                 Hrest (fun r' Hin => Hsub r' (or_intror Hin)))
      as [last' [extra [Hrun [Hlen [Hall [Hrows Hheads]]]]]].
    exists last',
           ((if changed then [heading cluster_summaries n] else [])
            ++ line :: extra).
    split; [|split; [|split; [|split]]].
    + cbn [foldM]. unfold print_clustered_row at 1. rewrite Hn.
      rewrite fmt_row_eval. cbn [bind fst snd]. fold changed. fold line.
      rewrite Hlast, Hrun. f_equal. f_equal.
      destruct changed; rewrite <- ?app_assoc; reflexivity.
    + rewrite length_app, Hcount. cbn [List.length]. rewrite Hlen.
      destruct changed; cbn [List.length]; lia.
    + apply Forall_app. split.
      * destruct changed; constructor; [|constructor].
        right. exists n. split; [|reflexivity]. cbn [map]. rewrite Hn. now left.
      * constructor; [now left|].
        eapply Forall_impl; [|exact Hall].
        intros l [Hl|[name [Hin Hl]]]; [now left|].
        right. exists name. split; [|exact Hl]. cbn [map]. now right.
    + intros r' [<-|Hin].
      * exists line. split; [apply fmt_row_eval|].
        apply in_or_app. right. now left.
      * destruct (Hrows r' Hin) as [l [Hl Hinl]]. exists l.
        split; [exact Hl|]. apply in_or_app. right. now right.
    + intros name Hin. cbn [map] in Hin. rewrite Hn in Hin.
      destruct (String.eqb_spec n name) as [->|Hne].
      * unfold changed. destruct last as [l|].
        -- destruct (String.eqb_spec name l) as [->|_]; [now left|].
           right. cbn [negb]. apply in_or_app. left. now left.
        -- right. apply in_or_app. left. now left.
      * destruct Hin as [[= Heq]|Hin]; [contradiction|].
        destruct (Hheads name Hin) as [[= Heq]|Hh]; [contradiction|].
        right. apply in_or_app. right. now right.
Qed.

(** X24. [print_table] with clusters, on rows that all carry a label,
    never raises.  After the two header lines it prints every row, and a
    heading each time the cluster differs from that of the row before: the
    number of lines is the number of rows plus the number of such changes,
    so a cluster whose rows are not adjacent gets its heading again.  Every
    line that is not a heading has the common length of the table, and
    every cluster that occurs has its heading printed. *)
Theorem print_table_clustered (rows : list out_row)
        (cluster_summaries : dict string summary) :
  Forall (fun r => r_cluster r <> None) rows ->
  exists names rule body,
    print_table rows true cluster_summaries = Ok (names :: rule :: body)
    /\ List.length body = (List.length rows + cluster_changes None rows)%nat
    /\ Forall (fun line =>
                 String.length line = table_width rows
                 \/ exists name,
                     In (Some name) (map r_cluster rows)
                     /\ line = heading cluster_summaries name)
              body
    /\ (forall r, In r rows ->
                  exists line,
                    fmt_row (map (fun h => (h, column_width rows h)) headers)
                            (cell r) = Ok line
                    /\ In line body)
    /\ (forall name, In (Some name) (map r_cluster rows) ->
                     In (heading cluster_summaries name) body).
Proof.
  intros Hlab. unfold print_table. rewrite col_widths_eval. cbn [bind negb].
  rewrite print_header_eval. cbn [bind].
  destruct (print_clustered_rows rows cluster_summaries rows None [] Hlab
                                 (fun r Hin => Hin))
    as [last' [extra [Hrun [Hlen [Hall [Hrows Hheads]]]]]].
  rewrite Hrun. cbn [bind snd app]. eexists. eexists. exists extra.
  split; [reflexivity|]. split; [exact Hlen|]. split; [exact Hall|].
  split; [exact Hrows|].
  intros name Hin. destruct (Hheads name Hin) as [Heq|Hh];
    [discriminate|exact Hh].
Qed.

Lemma print_table_clustered_witness :
  exists names rule body,
    print_table sample_clustered_rows true [] = Ok (names :: rule :: body)
    /\ List.length body
       = (List.length sample_clustered_rows
          + cluster_changes None sample_clustered_rows)%nat
    /\ Forall (fun line =>
                 String.length line = table_width sample_clustered_rows
                 \/ exists name,
                     In (Some name) (map r_cluster sample_clustered_rows)
                     /\ line = heading [] name)
              body
    /\ (forall r, In r sample_clustered_rows ->
                  exists line,
                    fmt_row (map (fun h => (h, column_width sample_clustered_rows h))
                                 headers)
                            (cell r) = Ok line
                    /\ In line body)
    /\ (forall name, In (Some name) (map r_cluster sample_clustered_rows) ->
                     In (heading [] name) body).
Proof.
  apply (print_table_clustered sample_clustered_rows []).
  repeat constructor; discriminate.
Defined.

Lemma print_table_lines (rows : list out_row) (cluster_enabled : bool)
      (cluster_summaries : dict string summary) :
  Forall (fun r => r_cluster r <> None) rows ->
  exists lines,
    print_table rows cluster_enabled cluster_summaries = Ok lines
    /\ List.length lines
       = (2 + List.length rows
          + if cluster_enabled then cluster_changes None rows else 0)%nat.
Proof.
  intros Hlab. unfold print_table. rewrite col_widths_eval. cbn [bind].
  destruct cluster_enabled; cbn [negb]; rewrite print_header_eval; cbn [bind].
  - destruct (print_clustered_rows rows cluster_summaries rows None [] Hlab
                                   (fun r Hin => Hin))
      as [last' [extra [Hrun [Hlen _]]]].
    rewrite Hrun. cbn [bind snd app]. eexists. split; [reflexivity|].
    cbn [List.length]. rewrite Hlen. lia.
  - destruct (mapM_Forall2 _ _
                (fun r => fmt_row (map (fun h => (h, column_width rows h)) headers)
                                  (cell r))
                (fun _ _ => True) rows) as [body [Hbody Hall]].
    { intros r _. eexists. rewrite fmt_row_eval. split; [reflexivity|exact I]. }
    rewrite Hbody. cbn [bind app]. eexists. split; [reflexivity|].
    cbn [List.length]. rewrite <- (Forall2_length Hall). lia.
Qed.


